(** * LabkafeEquipmentAI: the matching and ranking core

    A shallow embedding of [api/database.py] (in-memory vector search,
    quote history), [api/matcher.py] (embedding client, frequency
    normalisation, hybrid scoring), [api/routes.py] (the [/suggest]
    handler), [scripts/generate_vectors.py] (the ingestion run),
    [scripts/load_vectors_to_memory.py] (the cache rebuild) and
    [scripts/create_sku_mapping_history.py] (the history table), followed by
    the properties of the specification that these functions decide and by
    further properties of the same functions.

    Conventions of the embedding:
    - a Python [dict] is an association list in insertion order with unique
      keys ([dict_set] updates in place or appends), because the ranking
      depends on the iteration order of [combined_scores];
    - a function that may raise returns an [outcome];
    - Python [int] is [Z]; Python [float] is an instance of the class [Num]:
      [Binary64] (IEEE 754 binary64, what CPython computes with) or [Exact]
      (rational arithmetic, the reading in which the decimals of the
      specification are meant);
    - NumPy arrays are lists of binary64 floats; [np.dot] and
      [np.linalg.norm] accumulate from left to right.  The cache holds
      float32 values and BLAS fixes no order of summation: the rounding of
      a similarity may differ from the model's, while zeros, NaN, the
      commutativity of the product and the order in which a sort leaves
      unequal values, on which the properties below rest, do not.  The
      order of equal values after [np.argsort] is left open. *)

From Stdlib Require Import ZArith QArith Floats String Lia Lqa.
From stdpp Require Import base list strings sorting.

Set Warnings "-inexact-float".
#[local] Open Scope Z_scope.

(** ** Python runtime: exceptions, slices, dictionaries, sorting *)

Inductive exn :=
| RuntimeError
| ValueError
| TypeError
| IndexError
| KeyError
| ZeroDivisionError
| OperationalError (locked : bool)
| OtherException.

Inductive outcome (A : Type) :=
| Return (a : A)
| Raise (e : exn).
Arguments Return {A} a.
Arguments Raise {A} e.

#[global] Instance outcome_ret : MRet outcome := fun A a => Return a.
#[global] Instance outcome_bind : MBind outcome := fun A B f m =>
  match m with
  | Return a => f a
  | Raise e => Raise e
  end.

(** [try: body except Exception: handler] *)
Definition try_except {A} (body : outcome A) (handler : exn -> outcome A) : outcome A :=
  match body with
  | Return a => Return a
  | Raise e => handler e
  end.

(** [l[:k]] for a Python int [k]: a negative [k] counts from the end. *)
Definition slice_to {A} (k : Z) (l : list A) : list A :=
  if 0 <=? k then take (Z.to_nat k) l
  else take (length l - Z.to_nat (- k)) l.

(** [l[i:j]] for [0 <= i <= j]. *)
Definition slice {A} (i j : nat) (l : list A) : list A :=
  take (j - i) (drop i l).

(** [range(0, n, step)] for a positive [step]. *)
Definition range_step (n step : nat) : list nat :=
  (fun j => j * step)%nat <$> seq 0 (Nat.div (n + step - 1) step).

(** [l[i]] *)
Definition list_index {A} (l : list A) (i : nat) : outcome A :=
  match l !! i with
  | Some x => Return x
  | None => Raise IndexError
  end.

Abbreviation dict V := (list (string * V)).

Fixpoint dict_get {V} (d : dict V) (k : string) : option V :=
  match d with
  | [] => None
  | (k', v) :: d' => if String.eqb k' k then Some v else dict_get d' k
  end.

(** [d[k] = v]: an existing key keeps its position, a new key goes last. *)
Fixpoint dict_set {V} (k : string) (v : V) (d : dict V) : dict V :=
  match d with
  | [] => [(k, v)]
  | (k', v') :: d' =>
      if String.eqb k' k then (k, v) :: d' else (k', v') :: dict_set k v d'
  end.

Definition dict_mem {V} (d : dict V) (k : string) : bool :=
  match dict_get d k with Some _ => true | None => false end.

Definition dict_keys {V} (d : dict V) : list string := d.*1.
Definition dict_values {V} (d : dict V) : list V := d.*2.

(** [{k: v for k, v in items}] *)
Definition dict_of_items {V} (items : list (string * V)) : dict V :=
  foldl (fun d kv => dict_set kv.1 kv.2 d) [] items.

Definition dict_wf {V} (d : dict V) : Prop := NoDup (dict_keys d).

Section Sorting.
Context {A K : Type} (lt : K -> K -> bool) (key : A -> K).

(** [sorted(l, key=key)]: CPython's sort is stable and compares keys with
    [<] only.  On keys that [<] orders totally its result is the stable
    ascending arrangement, computed here by insertion: an element is put
    before the first one that is not smaller than it.  With a NaN among float
    keys [<] is no such order, and the arrangement CPython produces then
    depends on the comparisons its merge sort happens to make: these
    functions stand for [sorted] on keys without NaN only, and a statement
    about the order of a sorted list says so in a hypothesis. *)
Fixpoint insert_asc (x : A) (l : list A) : list A :=
  match l with
  | [] => [x]
  | y :: l' => if lt (key y) (key x) then y :: insert_asc x l' else x :: y :: l'
  end.

Fixpoint sorted_asc (l : list A) : list A :=
  match l with
  | [] => []
  | x :: l' => insert_asc x (sorted_asc l')
  end.

(** [sorted(l, key=key, reverse=True)]: descending, and still stable (equal
    keys keep the order they had in [l]). *)
Fixpoint insert_desc (x : A) (l : list A) : list A :=
  match l with
  | [] => [x]
  | y :: l' => if lt (key x) (key y) then y :: insert_desc x l' else x :: y :: l'
  end.

Fixpoint sorted_desc (l : list A) : list A :=
  match l with
  | [] => []
  | x :: l' => insert_desc x (sorted_desc l')
  end.

End Sorting.

(** [max(l)] on Python ints; [l] is not empty where the source calls it. *)
Definition max_int (l : list Z) : Z :=
  match l with
  | [] => 0
  | x :: l' => foldl Z.max x l'
  end.

(** ** Float arithmetic *)

(** The operations the scoring code uses.  [nratio a b] is Python's
    [a / b] on ints with [b] not zero; it also reads decimal literals
    ([0.7] is [nratio 7 10]).  [nsame x y] says that [x] and [y] are the
    same number. *)
Class Num (F : Type) := {
  nzero : F;
  nadd : F -> F -> F;
  nmul : F -> F -> F;
  nltb : F -> F -> bool;
  neqb : F -> F -> bool;
  nratio : Z -> Z -> F;
  nsame : F -> F -> Prop;
}.

Class NumLaws (F : Type) `{Num F} := {
  nsame_refl : forall x : F, nsame x x;
  nadd_0_l : forall x : F, nsame x (nadd nzero x);
  nadd_0_r : forall x : F, nsame x (nadd x nzero);
}.

(** [float(z)]: the binary64 nearest to the integer [z]. *)
Definition Z2F (z : Z) : float := SF2Prim (binary_normalize prec emax z 0 false).

(** IEEE 754 binary64.  [a / b] on ints is the float division of the
    converted operands, which is what CPython returns when both convert
    exactly (below [2^53] in magnitude); for larger ints CPython rounds the
    exact quotient once, which this instance does not stand for, so a
    statement about the value of a quotient carries that bound.  Two floats
    are the same number when they are the same value or compare equal
    ([-0.0] and [0.0]). *)
#[global] Instance Binary64 : Num float := {
  nzero := 0%float;
  nadd := PrimFloat.add;
  nmul := PrimFloat.mul;
  nltb := PrimFloat.ltb;
  neqb := PrimFloat.eqb;
  nratio a b := PrimFloat.div (Z2F a) (Z2F b);
  nsame x y := x = y \/ PrimFloat.eqb x y = true;
}.

(** Exact rational arithmetic. *)
#[global] Instance Exact : Num Q := {
  nzero := 0%Q;
  nadd := Qplus;
  nmul := Qmult;
  nltb x y := negb (Qle_bool y x);
  neqb := Qeq_bool;
  nratio a b := Qdiv (inject_Z a) (inject_Z b);
  nsame := Qeq;
}.

Definition is_nan (x : float) : bool := negb (PrimFloat.eqb x x).

(** NumPy orders floats for sorting with NaN last:
    [a < b || (b != b && a == a)]. *)
Definition np_lt (a b : float) : bool :=
  PrimFloat.ltb a b || (is_nan b && negb (is_nan a)).

(** The same order on the specification of binary64 values. *)
Definition sf_is_nan (x : spec_float) : bool :=
  match x with S754_nan => true | _ => false end.

Definition sf_lt (x y : spec_float) : bool :=
  SFltb x y || (sf_is_nan y && negb (sf_is_nan x)).

(** ** api/database.py *)

Module Database.

#[local] Open Scope float_scope.

Abbreviation vector := (list float).
Abbreviation matrix := (list (list float)).

(** The module's globals; [None] until a load assigns them. *)
Record globals := {
  _vectors_cache : option matrix;
  _item_skus : option (list string);
  _item_names : option (list string);
  _item_sku_to_index : option (dict nat);
}.

Definition initial : globals :=
  {| _vectors_cache := None; _item_skus := None; _item_names := None;
     _item_sku_to_index := None |}.

(** The unpickled cache: a dict whose three entries may be missing. *)
Record cache_data := {
  cd_vectors : option matrix;
  cd_item_skus : option (list string);
  cd_item_names : option (list string);
}.

(** What is found at [VECTORS_CACHE_PATH]. *)
Inductive cache_file :=
| Missing
| Unreadable
| Pickled (d : cache_data).

(** [{sku: idx for idx, sku in enumerate(skus)}] *)
Definition sku_to_index (skus : list string) : dict nat :=
  dict_of_items (imap (fun idx sku => (sku, idx)) skus).

(** [load_vectors_to_memory()]: the globals after the call, and whether it
    returned or raised.  Each global keeps what was assigned to it before
    an exception. *)
Definition load_vectors_to_memory (f : cache_file) (g : globals) : globals * outcome () :=
  match f with
  | Missing => (g, Return ())
  | Unreadable => (g, Raise OtherException)
  | Pickled d =>
      match cd_vectors d with
      | None => (g, Raise KeyError)
      | Some vectors =>
          let g1 := {| _vectors_cache := Some vectors; _item_skus := _item_skus g;
                       _item_names := _item_names g;
                       _item_sku_to_index := _item_sku_to_index g |} in
          match cd_item_skus d with
          | None => (g1, Raise ValueError)
          | Some skus =>
              let g2 := {| _vectors_cache := Some vectors; _item_skus := Some skus;
                           _item_names := _item_names g;
                           _item_sku_to_index := _item_sku_to_index g |} in
              match cd_item_names d with
              | None => (g2, Raise KeyError)
              | Some names =>
                  ({| _vectors_cache := Some vectors; _item_skus := Some skus;
                      _item_names := Some names;
                      _item_sku_to_index := Some (sku_to_index skus) |},
                   Return ())
              end
          end
      end
  end.

Definition get_vectors (g : globals)
  : outcome (matrix * option (list string) * option (list string)) :=
  match _vectors_cache g with
  | None => Raise RuntimeError
  | Some cache => Return (cache, _item_skus g, _item_names g)
  end.

(** [np.dot] of two vectors of one length, summed from left to right in
    binary64.  The arrays of the source hold float32 and NumPy's routines
    choose the order of the additions, so the last bits of a value may
    differ from the source's. *)
Definition dot (u v : vector) : float :=
  foldl (fun acc p => acc + p.1 * p.2) 0 (zip u v).

(** [np.linalg.norm] *)
Definition norm (v : vector) : float := PrimFloat.sqrt (dot v v).

Definition same_shape (m : matrix) (q : vector) : bool :=
  forallb (fun row => Nat.eqb (length row) (length q)) m.

(** [np.dot(m, q)]: one dot product per row; the shapes must agree. *)
Definition matvec (m : matrix) (q : vector) : outcome vector :=
  if same_shape m q then Return ((fun row => dot row q) <$> m)
  else Raise ValueError.

Definition cosine_similarity (vec1 vec2 : vector) : outcome float :=
  if negb (Nat.eqb (length vec1) (length vec2)) then Raise ValueError
  else
    let dot_product := dot vec1 vec2 in
    let norm1 := norm vec1 in
    let norm2 := norm vec2 in
    if PrimFloat.eqb norm1 0 || PrimFloat.eqb norm2 0 then Return 0
    else Return (dot_product / (norm1 * norm2)).

(** [np.argsort(xs)]: the indices in ascending order of their value.  The
    default kind of [np.argsort] promises no order among equal values; the
    model leaves them in ascending index order, which is what its insertion
    sort does on the short arrays of the examples.  No general statement
    below rests on the order of equal values. *)
Definition argsort (xs : vector) : list nat :=
  (sorted_asc np_lt snd (imap pair xs)).*1.

(** [_item_skus[idx]] *)
Definition sku_at (g : globals) (idx : nat) : outcome string :=
  match _item_skus g with
  | None => Raise TypeError
  | Some skus => list_index skus idx
  end.

(** The loop that pairs each selected index with its similarity. *)
Definition collect (g : globals) (sims : vector) (indices : list nat)
  : outcome (list (string * float)) :=
  mapM (fun idx =>
          sku ← sku_at g idx;
          score ← list_index sims idx;
          mret (sku, score)) indices.

(** The local [similarities] of [search_vectors]. *)
Definition similarities (cache : matrix) (query_vector : vector) : outcome vector :=
  dots ← matvec cache query_vector;
  let norms := norm <$> cache in
  let qnorm := norm query_vector in
  mret (zip_with (fun d n => d / (n * qnorm)) dots norms).

(** [np.argsort(similarities)[::-1][:top_k]] *)
Definition top_indices (similarities : vector) (top_k : Z) : list nat :=
  slice_to top_k (reverse (argsort similarities)).

Definition search_vectors (g : globals) (query_vector : vector) (top_k : Z)
  : outcome (list (string * float)) :=
  match _vectors_cache g with
  | None => Raise RuntimeError
  | Some cache =>
      sims ← similarities cache query_vector;
      collect g sims (top_indices sims top_k)
  end.

(** [norms[norms == 0] = 1e-10] *)
Definition guard_zero (norms : vector) : vector :=
  (fun n => if PrimFloat.eqb n 0 then nratio 1 10000000000 else n) <$> norms.

(** [np.dot(qs, m.T)]: for every query, its dot product with every row. *)
Definition matmul_t (qs m : matrix) : outcome matrix :=
  if forallb (same_shape m) qs then Return ((fun q => (fun row => dot q row) <$> m) <$> qs)
  else Raise ValueError.

Definition search_vectors_batch (g : globals) (query_vectors : matrix) (top_k : Z)
  : outcome (list (list (string * float))) :=
  match _vectors_cache g with
  | None => Raise RuntimeError
  | Some cache =>
      if Nat.eqb (length query_vectors) 0 then Return []
      else
        let cache_norms := guard_zero (norm <$> cache) in
        let query_norms := guard_zero (norm <$> query_vectors) in
        products ← matmul_t query_vectors cache;
        let all_sims :=
          zip_with (fun dots qn => zip_with (fun d cn => d / (qn * cn)) dots cache_norms)
                   products query_norms in
        mapM (fun sims => collect g sims (top_indices sims top_k)) all_sims
  end.

End Database.

(** ** api/matcher.py *)

Module Matcher.

(** [a / b] on Python ints. *)
Definition int_truediv {F} `{Num F} (a b : Z) : outcome F :=
  if b =? 0 then Raise ZeroDivisionError else Return (nratio a b).

Section EmbeddingClient.
(** [E] is an embedding as the service returns it. *)
Context {E : Type}.

Record response_item := { index : Z; embedding : E }.

(** [BATCH_SIZE] is read from the environment.  [post batch] is the one
    HTTP request for [batch]: [None] stands for whatever the [try] block
    catches (transport error, error status, undecodable or incomplete
    body). *)
Context (BATCH_SIZE : Z) (post : list string -> option (list response_item)).

(** One turn of the loop over [range(0, len(texts), BATCH_SIZE)]: the
    request for the batch at [i] is sent, and the embeddings of its answer,
    sorted by their index, or one [None] per item are appended.  The first
    component logs the requests. *)
Definition embed_step (texts : list string)
    (acc : list (list string) * list (option E)) (i : nat)
  : list (list string) * list (option E) :=
  let batch := slice i (i + Z.to_nat BATCH_SIZE) texts in
  (acc.1 ++ [batch],
   acc.2 ++ match post batch with
            | Some data =>
                (fun item => Some (embedding item)) <$> sorted_asc Z.ltb index data
            | None => replicate (length batch) None
            end).

(** [generate_embeddings_batch(texts)]: the requests sent, in order, and the
    list returned. *)
Definition generate_embeddings_batch (api_key : option string) (texts : list string)
  : outcome (list (list string) * list (option E)) :=
  match api_key with
  | None => Raise ValueError
  | Some _ =>
      if BATCH_SIZE =? 0 then Raise ZeroDivisionError
      else if BATCH_SIZE <? 0 then Return ([], [])
      else
        Return (foldl (embed_step texts) ([], [])
                  (range_step (length texts) (Z.to_nat BATCH_SIZE)))
  end.

End EmbeddingClient.

Section Scoring.
Context {F : Type} `{Num F}.

Definition HISTORY_WEIGHT : F := nratio 7 10.
Definition VECTOR_WEIGHT : F := nratio 3 10.

Definition normalize_frequencies (frequencies : dict Z) : outcome (dict F) :=
  match frequencies with
  | [] => Return []
  | _ =>
      let max_freq := max_int (dict_values frequencies) in
      if max_freq =? 0 then
        Return (dict_of_items ((fun sku => (sku, nzero)) <$> dict_keys frequencies))
      else
        items ← mapM (fun kv => v ← int_truediv kv.2 max_freq; mret (kv.1, v))
                     frequencies;
        mret (dict_of_items items)
  end.

(** The metadata dict of one sku. *)
Record score := {
  historical_score : F;
  vector_score : F;
  historical_frequency : Z;
  vector_similarity : F;
  final_score : F;
}.

(** Step 4, first loop. *)
Definition add_historical (historical_mappings : dict Z) (normalized_history : dict F)
  : dict score :=
  foldl (fun combined_scores kv =>
           dict_set kv.1
             {| historical_score := nmul kv.2 HISTORY_WEIGHT;
                vector_score := nzero;
                historical_frequency := default 0 (dict_get historical_mappings kv.1);
                vector_similarity := nzero;
                final_score := nmul kv.2 HISTORY_WEIGHT |}
             combined_scores)
        [] normalized_history.

(** Step 4, one turn of the second loop. *)
Definition add_vector (combined_scores : dict score) (sv : string * F) : dict score :=
  let sku := sv.1 in
  let vector_sim := sv.2 in
  match dict_get combined_scores sku with
  | None =>
      dict_set sku
        {| historical_score := nzero;
           vector_score := nmul vector_sim VECTOR_WEIGHT;
           historical_frequency := 0;
           vector_similarity := vector_sim;
           final_score := nmul vector_sim VECTOR_WEIGHT |}
        combined_scores
  | Some m =>
      dict_set sku
        {| historical_score := historical_score m;
           vector_score := nmul vector_sim VECTOR_WEIGHT;
           historical_frequency := historical_frequency m;
           vector_similarity := vector_sim;
           final_score := nadd (historical_score m) (nmul vector_sim VECTOR_WEIGHT) |}
        combined_scores
  end.

(** Step 4: [combined_scores] after both loops. *)
Definition combine (historical_mappings : dict Z) (normalized_history : dict F)
    (vector_results : list (string * F)) : dict score :=
  foldl add_vector (add_historical historical_mappings normalized_history)
        vector_results.

(** Step 5: sort by final score, keep [top_k], format. *)
Definition rank (combined_scores : dict score) (top_k : Z)
  : list (string * F * score) :=
  (fun sm => (sm.1, final_score sm.2, sm.2))
    <$> slice_to top_k (sorted_desc nltb (fun sm => final_score sm.2) combined_scores).

(** A value of a database row. *)
Inductive value :=
| VNone
| VStr (s : string)
| VInt (z : Z)
| VNum (x : F).

(** What the scoring calls outside itself: the history table, the embedding
    service, the vector search and the item table.  [V] is a query vector. *)
Record world (V : Type) := {
  get_all_historical_mappings : string -> outcome (dict Z);
  generate_embedding : string -> outcome V;
  search_vectors : V -> Z -> outcome (list (string * F));
  get_item_by_sku : string -> outcome (option (dict value));
}.
Arguments get_all_historical_mappings {V} w _.
Arguments generate_embedding {V} w _.
Arguments search_vectors {V} w _ _.
Arguments get_item_by_sku {V} w _.

Section Queries.
Context {V : Type} (w : world V).

(** Step 2: the embedding, only when a vector search has to run. *)
Definition step_embedding (requirement_string : string) (query_vector : option V)
    (vector_results : option (list (string * F))) : option V :=
  match vector_results, query_vector with
  | None, None =>
      match generate_embedding w requirement_string with
      | Return v => Some v
      | Raise _ => None
      end
  | _, _ => query_vector
  end.

(** Step 3: the vector similarities, given or searched. *)
Definition step_vector_results (top_k : Z) (query_vector : option V)
    (vector_results : option (list (string * F))) : list (string * F) :=
  match vector_results with
  | Some results => results
  | None =>
      match query_vector with
      | None => []
      | Some qv =>
          match search_vectors w qv (top_k * 2) with
          | Return results => results
          | Raise _ => []
          end
      end
  end.

Definition calculate_hybrid_score (requirement_string : string) (top_k : Z)
    (query_vector : option V) (vector_results : option (list (string * F)))
  : outcome (list (string * F * score)) :=
  historical_mappings ← get_all_historical_mappings w requirement_string;
  normalized_history ← normalize_frequencies historical_mappings;
  let query_vector := step_embedding requirement_string query_vector vector_results in
  let vector_results := step_vector_results top_k query_vector vector_results in
  mret (rank (combine historical_mappings normalized_history vector_results) top_k).

Record suggestion := {
  s_sku : string;
  s_item_name : value;
  s_confidence_score : F;
  s_historical_frequency : Z;
  s_vector_similarity : F;
  s_historical_score : F;
  s_vector_score : F;
  s_image : value;
  s_price : value;
}.

(** [item.get(k, d) if item else None] *)
Definition item_field (item : option (dict value)) (k : string) (d : value) : value :=
  match item with
  | None | Some [] => VNone
  | Some row => default d (dict_get row k)
  end.

Definition falsy (item : option (dict value)) : bool :=
  match item with
  | None | Some [] => true
  | Some _ => false
  end.

(** The loop of [get_suggestions] over the ranked results. *)
Fixpoint suggest (skip_item_lookup : bool) (items_cache : option (dict (dict value)))
    (hybrid_results : list (string * F * score)) : outcome (list suggestion) :=
  match hybrid_results with
  | [] => Return []
  | (sku, final, metadata) :: rest =>
      let use_cache := match items_cache with Some _ => true | None => false end in
      item ← match items_cache with
             | Some cache => Return (dict_get cache sku)
             | None => if skip_item_lookup then Return None else get_item_by_sku w sku
             end;
      if negb skip_item_lookup && negb use_cache && falsy item then
        suggest skip_item_lookup items_cache rest
      else
        suggestions ← suggest skip_item_lookup items_cache rest;
        mret ({| s_sku := sku;
                 s_item_name := item_field item "name" (VStr "Unknown");
                 s_confidence_score := final;
                 s_historical_frequency := historical_frequency metadata;
                 s_vector_similarity := vector_similarity metadata;
                 s_historical_score := historical_score metadata;
                 s_vector_score := vector_score metadata;
                 s_image := item_field item "image" VNone;
                 s_price := item_field item "amt" VNone |} :: suggestions)
  end.

Definition get_suggestions (requirement_string : string) (top_k : Z)
    (query_vector : option V) (vector_results : option (list (string * F)))
    (skip_item_lookup : bool) (items_cache : option (dict (dict value)))
  : outcome (list suggestion) :=
  try_except
    (hybrid_results ← calculate_hybrid_score requirement_string top_k
                        query_vector vector_results;
     suggest skip_item_lookup items_cache hybrid_results)
    (fun _ => Return []).

End Queries.
End Scoring.
Arguments score : clear implicits.
Arguments value : clear implicits.
Arguments world : clear implicits.
Arguments suggestion : clear implicits.
Arguments response_item : clear implicits.
Arguments get_all_historical_mappings {F V} w _.
Arguments generate_embedding {F V} w _.
Arguments search_vectors {F V} w _ _.
Arguments get_item_by_sku {F V} w _.

End Matcher.

(** ** scripts/generate_vectors.py *)

Module GenerateVectors.

#[local] Open Scope nat_scope.

(** [E] is an embedding as the service returns it. *)
Section Ingestion.
Context {E : Type}.

(** The thread-safe counters [success_counter] and [failed_counter]. *)
Record counters := { success_counter : nat; failed_counter : nat }.

(** What one [cursor.execute] of [update_vector] does. *)
Inductive attempt :=
| Executed
| Locked
| OtherOperationalError
| OtherError.

(** What one [conn.commit()] does. *)
Inductive commit :=
| Committed
| CommitLocked
| CommitOperationalError
| CommitError.

(** Everything outside one worker's control while it handles its batch:
    whether [connect_sqlite()] and the client constructor return, the answer
    of the embedding service ([None]: the call raised), the result of each
    execute attempt per sku, the results of the commit and of its one
    retry, and whether [conn.rollback()] returns when a handler calls it. *)
Record batch_world := {
  connects : bool;
  client_starts : bool;
  service : list string -> option (list E);
  execute : string -> nat -> attempt;
  first_commit : commit;
  retry_commit : commit;
  rollback : bool;
}.

Definition generate_embeddings_batch (w : batch_world) (item_names : list string)
  : list (option E) :=
  match service w item_names with
  | Some data => Some <$> data
  | None => replicate (length item_names) None
  end.

(** The [for attempt in range(retries)] loop of [update_vector]. *)
Fixpoint update_vector_loop (run : nat -> attempt) (retries : nat) (todo : list nat)
  : bool :=
  match todo with
  | [] => false
  | attempt_no :: rest =>
      match run attempt_no with
      | Executed => true
      | Locked =>
          if attempt_no <? retries - 1 then update_vector_loop run retries rest
          else false
      | OtherOperationalError => false
      | OtherError => false
      end
  end.

Definition update_vector (w : batch_world) (sku : string) (retries : nat) : bool :=
  update_vector_loop (execute w sku) retries (seq 0 retries).

(** The loop over [zip(item_skus, embeddings)]: the local counts. *)
Fixpoint count_updates (w : batch_world) (pairs : list (string * option E))
    (success_count failed_count : nat) : nat * nat :=
  match pairs with
  | [] => (success_count, failed_count)
  | (sku, None) :: rest => count_updates w rest success_count (failed_count + 1)
  | (sku, Some _) :: rest =>
      if update_vector w sku 5 then count_updates w rest (success_count + 1) failed_count
      else count_updates w rest success_count (failed_count + 1)
  end.

(** [conn.rollback()] in a handler, followed by what the handler does
    next: a rollback that raises leaves the handler at once. *)
Definition rollback_then (w : batch_world) (next : outcome ()) : outcome () :=
  if rollback w then next else Raise OtherException.

(** The inner [try] around the updates and the commit.  A locked database
    gets one more commit after a pause; a commit that fails is rolled back;
    after the rollback an [OperationalError] is dropped and any other
    exception is raised again. *)
Definition commit_batch (w : batch_world) : outcome () :=
  match first_commit w with
  | Committed => Return ()
  | CommitLocked =>
      match retry_commit w with
      | Committed => Return ()
      | _ => rollback_then w (Return ())
      end
  | CommitOperationalError => rollback_then w (Return ())
  | CommitError => rollback_then w (Raise OtherException)
  end.

(** The outer [try] of the worker: the counts it adds to the global
    counters under the lock, and returns. *)
Definition worker_body (w : batch_world) (batch_items : list (string * string))
  : outcome (nat * nat) :=
  _ ← (if client_starts w then Return () else Raise OtherException);
  let item_skus := batch_items.*1 in
  let item_names := batch_items.*2 in
  let embeddings := generate_embeddings_batch w item_names in
  let counts := count_updates w (zip item_skus embeddings) 0 0 in
  _ ← commit_batch w;
  mret counts.

(** [process_batch_worker]: the global counters after the call and what the
    future holds. *)
Definition process_batch_worker (w : batch_world) (batch_items : list (string * string))
    (c : counters) : counters * outcome (nat * nat) :=
  if connects w then
    match worker_body w batch_items with
    | Return (success_count, failed_count) =>
        ({| success_counter := success_counter c + success_count;
            failed_counter := failed_counter c + failed_count |},
         Return (success_count, failed_count))
    | Raise _ => (c, Return (0, length batch_items))
    end
  else (c, Raise OtherException).

(** The batches of [main]. *)
Definition batches (BATCH_SIZE : nat) (items : list (string * string))
  : list (list (string * string)) :=
  (fun i => slice i (i + BATCH_SIZE) items) <$> range_step (length items) BATCH_SIZE.

(** The pool: every batch is handled by one worker; the counters are
    updated under the lock, one batch at a time.  [worlds n] is what the
    worker of the batch at position [n] meets.  An exception that a worker
    lets through is logged by [main] and changes nothing. *)
Fixpoint run_pool (worlds : nat -> batch_world) (n : nat)
    (todo : list (list (string * string))) (c : counters) : counters :=
  match todo with
  | [] => c
  | batch :: rest =>
      run_pool worlds (S n) rest (process_batch_worker (worlds n) batch c).1
  end.

(** [main()]: the counters when it ends, which are the ones its final
    summary reports next to [total_items = len(items)].  The batches are
    prepared before the pool is created, and [ThreadPoolExecutor] refuses a
    [max_workers] that is not positive. *)
Definition main (api_key : option string) (connects : bool) (BATCH_SIZE NUM_WORKERS : Z)
    (worlds : nat -> batch_world) (items : list (string * string)) (c : counters)
  : counters * outcome () :=
  match api_key with
  | None => (c, Raise ValueError)
  | Some _ =>
      if negb connects then (c, Raise OtherException)
      else
        match items with
        | [] => (c, Return ())
        | _ =>
            let reset := {| success_counter := 0; failed_counter := 0 |} in
            if (BATCH_SIZE =? 0)%Z then (reset, Raise ValueError)
            else if (NUM_WORKERS <=? 0)%Z then (reset, Raise ValueError)
            else if (BATCH_SIZE <? 0)%Z then (reset, Return ())
            else (run_pool worlds 0 (batches (Z.to_nat BATCH_SIZE) items) reset,
                  Return ())
        end
  end.

End Ingestion.
Arguments counters : clear implicits.
Arguments batch_world : clear implicits.

End GenerateVectors.

(** ** api/routes.py: the [/suggest] handler *)

Module Routes.

(** [np.stack(arrays)]: the arrays as the rows of one matrix; they must be
    of one shape, and there must be at least one. *)
Definition np_stack (arrays : list Database.vector) : outcome Database.matrix :=
  match arrays with
  | [] => Raise ValueError
  | first :: _ =>
      if forallb (fun a => Nat.eqb (length a) (length first)) arrays then Return arrays
      else Raise ValueError
  end.

(** The loop that maps the batch results back to the items: an item whose
    embedding is [None] gets the empty list, every other item the next
    entry of [batch_vector_results]. *)
Fixpoint map_back {V R} (all_embeddings : list (option V))
    (batch_vector_results : list (list R)) (vidx : nat) : outcome (list (list R)) :=
  match all_embeddings with
  | [] => Return []
  | Some _ :: rest =>
      results ← list_index batch_vector_results vidx;
      vector_results_per_item ← map_back rest batch_vector_results (S vidx);
      mret (results :: vector_results_per_item)
  | None :: rest =>
      vector_results_per_item ← map_back rest batch_vector_results vidx;
      mret ([] :: vector_results_per_item)
  end.

Section Suggest.
(** [L] is a line item of the request.  The handler sees the embedding
    service through [BATCH_SIZE], [post] and [api_key], the snapshot through
    the globals [g] of [api/database.py], and the history table through
    [w]. *)
Context {L : Type}.
Context (BATCH_SIZE : Z)
        (post : list string -> option (list (Matcher.response_item Database.vector)))
        (api_key : option string)
        (g : Database.globals)
        (w : Matcher.world float Database.vector).

(** The batch vector search and the mapping back. *)
Definition vector_results_per_item (all_embeddings : list (option Database.vector))
  : outcome (list (list (string * float))) :=
  let valid_embeddings := omap id all_embeddings in
  batch_vector_results ←
    match valid_embeddings with
    | [] => Return []
    | _ =>
        valid_arr ← np_stack valid_embeddings;
        Database.search_vectors_batch g valid_arr 6
    end;
  map_back all_embeddings batch_vector_results 0.

(** The handler from the collected [(line_item, requirement)] pairs to the
    list [all_suggestion_lists] (lines 153 to 189 of the try block): the
    batch of embeddings, the batch vector search with the mapping back, and
    the matching loop.  An exception raised here is answered with status
    500.  What precedes and follows is not part of this definition: the
    loop that drops the line items with a blank description, and, after
    the list is built, the look-ups of items and quotes, the enrichment
    loop with its response models (which validate their fields: a
    confidence score outside [[0, 1]] is refused) and the response. *)
Definition all_suggestion_lists (items_to_process : list (L * string))
  : outcome (list (L * list (Matcher.suggestion float))) :=
  let all_requirements := items_to_process.*2 in
  sent ← Matcher.generate_embeddings_batch BATCH_SIZE post api_key all_requirements;
  let all_embeddings := sent.2 in
  per_item ← vector_results_per_item all_embeddings;
  mapM (fun iv =>
          suggestion_list ← Matcher.get_suggestions w iv.1.2 3 None (Some iv.2) true None;
          mret (iv.1.1, suggestion_list))
       (zip items_to_process per_item).

End Suggest.

End Routes.

(** ** api/database.py: the quote history of many skus *)

(** [for x in l: acc = f(acc, x)], ended by the first exception. *)
Fixpoint for_each {A B} (f : B -> A -> outcome B) (acc : B) (l : list A) : outcome B :=
  match l with
  | [] => Return acc
  | x :: l' => acc' ← f acc x; for_each f acc' l'
  end.

Module Quotes.
Section Rows.
Context {F : Type}.

(** A row of [tables_data] as [dict(row)] gives it. *)
Abbreviation row := (dict (Matcher.value F)).

(** [fetch skus] is the one SELECT (rows whose sku is among [skus], ordered
    by sku and descending id), connection included. *)
Context (fetch : list string -> outcome (list row)).

(** [d["sku"]], as a key of [result]: the keys of [result] are strings. *)
Definition row_sku (d : row) : outcome string :=
  match dict_get d "sku" with
  | Some (Matcher.VStr sku) => Return sku
  | _ => Raise KeyError
  end.

(** One turn of the grouping loop. *)
Definition group_step (limit_per_sku : Z) (result : dict (list row)) (d : row)
  : outcome (dict (list row)) :=
  sku ← row_sku d;
  match dict_get result sku with
  | None => Raise KeyError
  | Some quotes =>
      if Z.of_nat (length quotes) <? limit_per_sku
      then Return (dict_set sku (quotes ++ [d]) result)
      else Return result
  end.

Definition get_quote_history_bulk (skus : list string) (limit_per_sku : Z)
  : outcome (dict (list row)) :=
  match skus with
  | [] => Return []
  | _ =>
      rows ← fetch skus;
      for_each (group_step limit_per_sku)
               (dict_of_items ((fun sku => (sku, [])) <$> skus)) rows
  end.

End Rows.
End Quotes.

(** ** scripts/load_vectors_to_memory.py *)

Module LoadVectors.

(** What [pickle.loads] makes of the [name_vector] of a row: an exception
    (or a value without a first dimension, which ends in the same [except]),
    or a one-dimensional float32 array, which is what
    [generate_vectors.update_vector] stores and what the conversions of this
    script leave as it is. *)
Inductive blob :=
| Corrupt
| Array (vector : Database.vector).

(** A row of the SELECT: [sku, name, name_vector]. *)
Abbreviation item_row := (string * string * blob)%type.

(** One turn of the loop over the rows: the three lists after it. *)
Definition load_step (acc : list string * list string * list Database.vector)
    (row : item_row) : list string * list string * list Database.vector :=
  let '(item_skus, item_names, vectors_list) := acc in
  let '(sku, item_name, vector_blob) := row in
  match vector_blob with
  | Corrupt => acc
  | Array vector =>
      if negb (Nat.eqb (length vector) 1536) then acc
      else (item_skus ++ [sku], item_names ++ [item_name], vectors_list ++ [vector])
  end.

(** [load_items_and_vectors(conn)] on the rows that the SELECT returns;
    the empty array stands for [np.array([])]. *)
Definition load_items_and_vectors (rows : list item_row)
  : Database.matrix * list string * list string :=
  match rows with
  | [] => ([], [], [])
  | _ =>
      let '(item_skus, item_names, vectors_list) := foldl load_step ([], [], []) rows in
      match vectors_list with
      | [] => ([], [], [])
      | _ => (vectors_list, item_skus, item_names)
      end
  end.

(** [save_cache]: the file it writes, and whether it returns; its last log
    line reads [vectors.shape[1]], which [np.array([])] does not have. *)
Definition save_cache (vectors : Database.matrix) (item_skus item_names : list string)
  : Database.cache_file * outcome () :=
  (Database.Pickled {| Database.cd_vectors := Some vectors;
                       Database.cd_item_skus := Some item_skus;
                       Database.cd_item_names := Some item_names |},
   match vectors with
   | [] => Raise IndexError
   | _ => Return ()
   end).

(** [run_rebuild_cache()]: the cache file after the call, given the file
    before it, and whether it returned.  [select] is the connection and the
    SELECT together. *)
Definition run_rebuild_cache (select : outcome (list item_row)) (file : Database.cache_file)
  : Database.cache_file * outcome () :=
  match select with
  | Raise e => (file, Raise e)
  | Return rows =>
      let '(vectors, item_skus, item_names) := load_items_and_vectors rows in
      if Nat.eqb (length item_skus) 0 then (file, Raise ValueError)
      else save_cache vectors item_skus item_names
  end.

End LoadVectors.

(** ** scripts/create_sku_mapping_history.py *)

Module MappingHistory.
Section Aggregate.
(** [strip] is [str.strip]; nothing is assumed about it. *)
Context (strip : string -> string).

(** One turn of the loop over the rows of [tables_data]:
    [mappings[requirement][sku] += 1] on the nested [defaultdict]. *)
Definition count_row (mappings : dict (dict Z)) (row : string * string) : dict (dict Z) :=
  let requirement := strip row.1 in
  let sku := strip row.2 in
  if negb (String.eqb requirement "") && negb (String.eqb sku "") then
    let freqs := default [] (dict_get mappings requirement) in
    dict_set requirement (dict_set sku (default 0 (dict_get freqs sku) + 1) freqs) mappings
  else mappings.

(** [extract_mappings_from_tables_data] on the rows of its SELECT. *)
Definition extract_mappings_from_tables_data (rows : list (string * string))
  : dict (dict Z) :=
  foldl count_row [] rows.

End Aggregate.

(** [insert_mappings]: the rows it inserts into the emptied
    [sku_mapping_history], in order. *)
Definition insert_mappings (mappings : dict (dict Z)) : list (string * string * Z) :=
  mappings ≫= (fun rf => (fun sf => (rf.1, sf.1, sf.2)) <$> rf.2).

End MappingHistory.

(** * The statements of the specification *)

(** ** Hybrid scoring *)

Section ScoringStatements.
Context {F : Type} `{Num F}.

(** The similarity that the last entry of [vector_results] gives to [sku]. *)
Definition last_similarity (vector_results : list (string * F)) (sku : string) : option F :=
  dict_get (reverse vector_results) sku.

(** The record of a sku with normalized frequency [nf] and similarity [sim],
    each absent when the sku is not in that source. *)
Definition scored_as (nf sim : option F) (m : Matcher.score F) : Prop :=
  Matcher.historical_score m =
    match nf with Some x => nmul x Matcher.HISTORY_WEIGHT | None => nzero end /\
  Matcher.vector_score m =
    match sim with Some s => nmul s Matcher.VECTOR_WEIGHT | None => nzero end /\
  nsame (Matcher.final_score m)
        (nadd (Matcher.historical_score m) (Matcher.vector_score m)).

(** What the second loop leaves for a sku whose last similarity is [s],
    starting from the record [m0] (if any). *)
Definition after_vector (m0 : option (Matcher.score F)) (s : F) (m : Matcher.score F) : Prop :=
  Matcher.historical_score m = from_option Matcher.historical_score nzero m0 /\
  Matcher.historical_frequency m = from_option Matcher.historical_frequency 0 m0 /\
  Matcher.vector_score m = nmul s Matcher.VECTOR_WEIGHT /\
  Matcher.vector_similarity m = s /\
  (Matcher.final_score m = nadd (Matcher.historical_score m) (Matcher.vector_score m) \/
   (Matcher.historical_score m = nzero /\ Matcher.final_score m = Matcher.vector_score m)).

(** The skus and final scores of a ranking, in order. *)
Definition final_scores (ranking : list (string * F * Matcher.score F)) : list (string * F) :=
  (fun r => (r.1.1, r.1.2)) <$> ranking.

End ScoringStatements.

(** The worked example: history [{SKU-A: 5, SKU-B: 1}], normalized
    [{SKU-A: 1.0, SKU-B: 0.2}], vector results [(SKU-A, 0.9), (SKU-C, 0.5)]. *)
Definition example_history : dict Z := [("SKU-A", 5); ("SKU-B", 1)].

Definition example_normalized {F} `{Num F} : dict F :=
  [("SKU-A", nratio 1 1); ("SKU-B", nratio 2 10)].

Definition example_vector_results {F} `{Num F} : list (string * F) :=
  [("SKU-A", nratio 9 10); ("SKU-C", nratio 5 10)].

Definition example_ranking {F} `{Num F} : list (string * F) :=
  final_scores
    (Matcher.rank (Matcher.combine example_history example_normalized
                     example_vector_results) 10).

(** Two binary64 floats that differ by less than [1e-15]. *)
Definition close (x y : float) : bool :=
  PrimFloat.ltb (PrimFloat.abs (PrimFloat.sub x y)) (nratio 1 1000000000000000).


(** ** Frequency normalisation *)

(** What the specification says [normalize] returns: every frequency divided
    by the largest one, or [0.0] for every sku when the largest is zero. *)
Definition normalized {F} `{Num F} (frequencies : dict Z) : dict F :=
  let max_freq := max_int (dict_values frequencies) in
  (fun kv => (kv.1, if max_freq =? 0 then nzero else nratio kv.2 max_freq))
    <$> frequencies.

(** A mantissa with its rounding bits, at exponent [e], that stands for a
    number of [[0, 1]]: the mantissa is at most [2^(-e)], and smaller when a
    rounding bit is set. *)
Definition in_unit (mrs : shr_record) (e : Z) : Prop :=
  0 <= shr_m mrs /\ shr_m mrs <= 2 ^ (- e) /\
  (shr_r mrs || shr_s mrs = true -> shr_m mrs < 2 ^ (- e)).

(** A binary64 value between [0.0] and [1.0] (the second float is [1.0]). *)
Definition unit_float (x : spec_float) : Prop :=
  SFleb (S754_zero false) x = true /\
  SFleb x (S754_finite false 4503599627370496 (-52)) = true.


(** ** Ranking of ties *)

(** The keys of a dict filled by setting the keys of [l] in order: each key
    where it was first seen. *)
Definition first_seen (l : list string) : list string :=
  foldl (fun acc k => if bool_decide (k ∈ acc) then acc else acc ++ [k]) [] l.

Section RankingStatements.
Context {F : Type} `{Num F}.

(** The specification's tie-break: of two ranked skus with equal final
    scores, the lexically smaller comes first. *)
Definition lexical_ties (ranking : list (string * F * Matcher.score F)) : Prop :=
  forall (p q : nat) sku1 f1 m1 sku2 f2 m2,
    (p < q)%nat ->
    ranking !! p = Some (sku1, f1, m1) ->
    ranking !! q = Some (sku2, f2, m2) ->
    neqb f1 f2 = true ->
    String.ltb sku1 sku2 = true.

(** The code's tie-break: a sku whose final score is not smaller than that
    of a sku inserted after it into [combined_scores] is ranked before it. *)
Definition insertion_ties (combined_scores : dict (Matcher.score F))
    (ranking : list (string * F * Matcher.score F)) : Prop :=
  forall (i j p q : nat) sku1 m1 sku2 m2,
    (i < j)%nat ->
    combined_scores !! i = Some (sku1, m1) ->
    combined_scores !! j = Some (sku2, m2) ->
    nltb (Matcher.final_score m1) (Matcher.final_score m2) = false ->
    ranking !! p = Some (sku1, Matcher.final_score m1, m1) ->
    ranking !! q = Some (sku2, Matcher.final_score m2, m2) ->
    (p < q)%nat.

(** The final scores that [calculate_hybrid_score] sorts are numbers: each
    equals itself, which of the floats only NaN does not (a NaN similarity
    from the vector search makes a NaN final score). *)
Definition numeric_scores {V} (w : Matcher.world F V) (requirement_string : string)
    (top_k : Z) (query_vector : option V) (vector_results : option (list (string * F)))
    : Prop :=
  forall (hm : dict Z) (nh : dict F),
    Matcher.get_all_historical_mappings w requirement_string = Return hm ->
    Matcher.normalize_frequencies hm = Return nh ->
    let vr' :=
      Matcher.step_vector_results w top_k
        (Matcher.step_embedding w requirement_string query_vector vector_results)
        vector_results in
    Forall (fun sm => neqb (Matcher.final_score sm.2) (Matcher.final_score sm.2) = true)
           (Matcher.combine hm nh vr').

(** What a call of [calculate_hybrid_score] that returns [ranking] went
    through: the history [hm], its normalisation [nh], the vector results
    [vr'] it ended up with, and the dict it ranked, whose keys are the skus
    of [nh] followed by the new skus of [vr'], each where first seen. *)
Definition ranked_by_insertion {V} (w : Matcher.world F V) (requirement_string : string)
    (top_k : Z) (query_vector : option V) (vector_results : option (list (string * F)))
    (ranking : list (string * F * Matcher.score F)) : Prop :=
  exists (hm : dict Z) (nh : dict F),
    Matcher.get_all_historical_mappings w requirement_string = Return hm /\
    Matcher.normalize_frequencies hm = Return nh /\
    let vr' :=
      Matcher.step_vector_results w top_k
        (Matcher.step_embedding w requirement_string query_vector vector_results)
        vector_results in
    let combined_scores := Matcher.combine hm nh vr' in
    dict_keys combined_scores = first_seen (dict_keys nh ++ vr'.*1) /\
    ranking = Matcher.rank combined_scores top_k /\
    insertion_ties combined_scores ranking.

End RankingStatements.

(** Two skus with the same history count and no vector results. *)
Definition tie_world : Matcher.world float (list float) :=
  {| Matcher.get_all_historical_mappings := fun _ => Return [("SKU-B", 1); ("SKU-A", 1)];
     Matcher.generate_embedding := fun _ => Raise OtherException;
     Matcher.search_vectors := fun _ _ => Raise RuntimeError;
     Matcher.get_item_by_sku := fun _ => Return None |}.

Definition tie_score : Matcher.score float :=
  {| Matcher.historical_score := nratio 7 10;
     Matcher.vector_score := nzero;
     Matcher.historical_frequency := 1;
     Matcher.vector_similarity := nzero;
     Matcher.final_score := nratio 7 10 |}.

Definition tie_ranking : list (string * float * Matcher.score float) :=
  [("SKU-B", nratio 7 10, tie_score); ("SKU-A", nratio 7 10, tie_score)].


(** ** Vector search *)

Section SearchStatements.
Import Database.

(** The specification's order of [search_vectors]: at most [k] results,
    strictly descending by similarity, and of two results with equal
    similarity the one of the smaller row comes first. *)
Definition search_order_claim (g : globals) (q : vector) (k : Z) : Prop :=
  forall res,
    search_vectors g q k = Return res ->
    Z.of_nat (length res) <= k /\
    forall (p p' i i' : nat) s x s' x',
      (p < p')%nat ->
      res !! p = Some (s, x) ->
      res !! p' = Some (s', x') ->
      sku_at g i = Return s ->
      sku_at g i' = Return s' ->
      PrimFloat.ltb x' x = true \/ (PrimFloat.eqb x x' = true /\ (i < i')%nat).

(** The code's order: the [min(k, n)] selected rows are distinct, each
    result pairs the sku and the similarity of its row, and a later result
    never has a greater similarity (in NumPy's sort order, which puts NaN
    above every number).  Nothing is said of the order of rows whose
    similarities tie: the code leaves it to [np.argsort], whose default kind
    is not stable. *)
Definition search_order (g : globals) (cache : matrix) (skus : list string)
    (q : vector) (k : Z) : Prop :=
  exists sims,
    similarities cache q = Return sims /\
    length sims = length cache /\
    let idxs := top_indices sims k in
    length idxs = Nat.min (Z.to_nat k) (length cache) /\
    NoDup idxs /\
    (exists res,
       search_vectors g q k = Return res /\
       Forall2 (fun i r => skus !! i = Some r.1 /\ sims !! i = Some r.2) idxs res) /\
    forall (p p' i i' : nat) x x',
      (p < p')%nat ->
      idxs !! p = Some i ->
      idxs !! p' = Some i' ->
      sims !! i = Some x ->
      sims !! i' = Some x' ->
      np_lt x x' = false.

End SearchStatements.

(** A snapshot of two identical rows. *)
Definition twin_rows : Database.globals :=
  {| Database._vectors_cache := Some [[1; 0]; [1; 0]]%float;
     Database._item_skus := Some ["SKU-A"; "SKU-B"];
     Database._item_names := Some ["first"; "second"];
     Database._item_sku_to_index := Some [("SKU-A", 0%nat); ("SKU-B", 1%nat)] |}.


(** ** Zero vectors and unloaded snapshots *)

(** The zero vector of dimension [n]. *)
Definition zeros (n : nat) : Database.vector := replicate n 0%float.

(** A snapshot of one row, and one whose only row is the zero vector. *)
Definition one_row : Database.globals :=
  {| Database._vectors_cache := Some [[1; 0]]%float;
     Database._item_skus := Some ["SKU-A"];
     Database._item_names := Some ["first"];
     Database._item_sku_to_index := Some [("SKU-A", 0%nat)] |}.

Definition zero_row : Database.globals :=
  {| Database._vectors_cache := Some [[0; 0]]%float;
     Database._item_skus := Some ["SKU-A"];
     Database._item_names := Some ["first"];
     Database._item_sku_to_index := Some [("SKU-A", 0%nat)] |}.

(** A cache file written before [item_skus] existed. *)
Definition old_format : Database.cache_file :=
  Database.Pickled
    {| Database.cd_vectors := Some [[1; 0]]%float;
       Database.cd_item_skus := None;
       Database.cd_item_names := Some ["first"] |}.


(** ** Embedding in batches *)

Section EmbeddingStatements.
Context {E : Type}.

(** The embedding that a response gives to the item at position [o] of its
    batch: the one whose index field is [o]. *)
Definition by_index (data : list (Matcher.response_item E)) (o : nat) : option E :=
  Matcher.embedding <$> List.find (fun item => Matcher.index item =? Z.of_nat o) data.

(** The entry for the item at position [o] of [batch]: [None] when the
    request for the batch failed. *)
Definition expected_entry (post : list string -> option (list (Matcher.response_item E)))
    (batch : list string) (o : nat) : option E :=
  match post batch with
  | Some data => by_index data o
  | None => None
  end.

(** What one batch contributes to the returned list. *)
Definition part (post : list string -> option (list (Matcher.response_item E)))
    (batch : list string) : list (option E) :=
  match post batch with
  | Some data =>
      (fun item => Some (Matcher.embedding item))
        <$> sorted_asc Z.ltb Matcher.index data
  | None => replicate (length batch) None
  end.

(** The service answers a batch with one item per input, their index fields
    being the positions of the batch in some order. *)
Definition well_formed (post : list string -> option (list (Matcher.response_item E))) : Prop :=
  forall batch data,
    post batch = Some data ->
    Matcher.index <$> data ≡ₚ Z.of_nat <$> seq 0 (length batch).

(** The requests [reqs] partition [texts] into [ceil(n / b)] batches of at
    most [b] items, and [out] has one entry per text: the entry of the text
    at [i] is decided by the request for batch [i / b], at position
    [i mod b]. *)
Definition embedded_in_batches (b : nat)
    (post : list string -> option (list (Matcher.response_item E)))
    (texts : list string) (reqs : list (list string)) (out : list (option E)) : Prop :=
  concat reqs = texts /\
  length reqs = ((length texts + b - 1) / b)%nat /\
  Forall (fun c => 0 < length c <= b)%nat reqs /\
  length out = length texts /\
  forall (i : nat) text,
    texts !! i = Some text ->
    exists batch,
      reqs !! (i / b)%nat = Some batch /\
      batch !! (i mod b)%nat = Some text /\
      out !! i = Some (expected_entry post batch (i mod b)).

End EmbeddingStatements.

(** A service that fails on batches of one item and otherwise answers with
    the items in reverse order; the embedding of a text is the text. *)
Definition flaky_post (batch : list string) : option (list (Matcher.response_item string)) :=
  if Nat.eqb (length batch) 1 then None
  else Some (reverse (imap (fun i text => {| Matcher.index := Z.of_nat i;
                                             Matcher.embedding := text |}) batch)).


(** ** Ingestion counters *)

Section IngestionStatements.
Import GenerateVectors.

(** A worker that meets nothing unusual: the service answers every name
    with an embedding (here the name itself), every write is executed and
    the commit succeeds. *)
Definition healthy : batch_world string :=
  {| connects := true; client_starts := true;
     service := fun item_names => Some item_names;
     execute := fun _ _ => Executed;
     first_commit := Committed; retry_commit := Committed; rollback := true |}.

(** A worker whose embedding client cannot be constructed. *)
Definition client_fails : batch_world string :=
  {| connects := true; client_starts := false;
     service := fun item_names => Some item_names;
     execute := fun _ _ => Executed;
     first_commit := Committed; retry_commit := Committed; rollback := true |}.

(** A worker whose commit raises something other than an [OperationalError]. *)
Definition commit_fails : batch_world string :=
  {| connects := true; client_starts := true;
     service := fun item_names => Some item_names;
     execute := fun _ _ => Executed;
     first_commit := CommitError; retry_commit := Committed; rollback := true |}.

(** A worker that gets as far as adding its counts to the counters: it
    connects, its client starts, the service gives one embedding per name
    when it answers, and its commit either succeeds (at once, or at the
    retry after a lock) or fails with an [OperationalError] that is rolled
    back without a further exception. *)
Definition reports {E} (w : batch_world E) (batch_items : list (string * string)) : Prop :=
  connects w = true /\
  client_starts w = true /\
  (first_commit w = Committed \/
   (first_commit w = CommitLocked /\ retry_commit w = Committed) \/
   (first_commit w <> CommitError /\ rollback w = true)) /\
  forall data, service w batch_items.*2 = Some data -> length data = length batch_items.

Definition fresh : counters := {| success_counter := 0; failed_counter := 0 |}.

Definition three_items : list (string * string) :=
  [("SKU-A", "Beaker"); ("SKU-B", "Flask"); ("SKU-C", "Funnel")].

End IngestionStatements.


(** ** Suggestions under failure *)

Section SuggestionStatements.
Context {F : Type} `{Num F} {V : Type}.

(** Every suggestion of an outcome has the vector score [0.0]. *)
Definition history_only (r : outcome (list (Matcher.suggestion F))) : Prop :=
  forall suggestions s,
    r = Return suggestions -> s ∈ suggestions -> Matcher.s_vector_score s = nzero.

(** [get_suggestions] when no vector result is available: what it returns
    is what it returns on the empty list of vector results, and it is scored
    on history alone. *)
Definition degrades_to_history (w : Matcher.world F V) (requirement_string : string)
    (top_k : Z) (query_vector : option V) (skip_item_lookup : bool)
    (items_cache : option (dict (dict (Matcher.value F)))) : Prop :=
  Matcher.get_suggestions w requirement_string top_k query_vector None
      skip_item_lookup items_cache
    = Matcher.get_suggestions w requirement_string top_k query_vector (Some [])
        skip_item_lookup items_cache /\
  history_only (Matcher.get_suggestions w requirement_string top_k query_vector None
                  skip_item_lookup items_cache).

End SuggestionStatements.

(** ** Tactics *)

(** Case analysis on every comparison of integers in sight. *)
Ltac compare_cases :=
  repeat match goal with
  | |- context [Z.compare ?a ?b] => destruct (Z.compare_spec a b)
  | H : context [Z.compare ?a ?b] |- _ => destruct (Z.compare_spec a b)
  | |- context [Pos.compare ?a ?b] => destruct (Pos.compare_spec a b)
  | H : context [Pos.compare ?a ?b] |- _ => destruct (Pos.compare_spec a b)
  end.


(** ** Suggestions, quote history, snapshots and the history table *)

(** ** Suggestions and item lookups *)

(** Whether [get_item_by_sku] returns a row for [sku]. *)
Definition item_found {F V} (w : Matcher.world F V) (sku : string) : bool :=
  match Matcher.get_item_by_sku w sku with
  | Return item => negb (Matcher.falsy item)
  | Raise _ => false
  end.

(** The skus of a ranking, in order. *)
Definition ranked_skus {F} (ranking : list (string * F * Matcher.score F)) : list string :=
  (fun r => r.1.1) <$> ranking.

(** A history of two skus of which only one is in the item table. *)
Definition catalogue_world : Matcher.world float (list float) :=
  {| Matcher.get_all_historical_mappings := fun _ => Return [("SKU-B", 2); ("SKU-A", 1)];
     Matcher.generate_embedding := fun _ => Raise OtherException;
     Matcher.search_vectors := fun _ _ => Raise RuntimeError;
     Matcher.get_item_by_sku := fun sku =>
       if String.eqb sku "SKU-A" then Return (Some [("name", Matcher.VStr "Beaker")])
       else Return None |}.

(** An embedding service that answers every text with the vector [[1, 0]]. *)
Definition unit_post (batch : list string)
  : option (list (Matcher.response_item Database.vector)) :=
  Some (imap (fun i _ => {| Matcher.index := Z.of_nat i;
                            Matcher.embedding := [1; 0]%float |}) batch).

(** An embedding service that is down. *)
Definition no_post (batch : list string)
  : option (list (Matcher.response_item Database.vector)) := None.

(** Whether the row [d] is a quote of [sku]. *)
Definition quote_of {F} (sku : string) (d : dict (Matcher.value F)) : bool :=
  match Quotes.row_sku d with
  | Return s => String.eqb s sku
  | Raise _ => false
  end.

(** Quotes of two skus, as the query orders them. *)
Definition example_quotes : list (dict (Matcher.value float)) :=
  [[("id", Matcher.VInt 9); ("sku", Matcher.VStr "SKU-A")];
   [("id", Matcher.VInt 7); ("sku", Matcher.VStr "SKU-A")];
   [("id", Matcher.VInt 4); ("sku", Matcher.VStr "SKU-A")];
   [("id", Matcher.VInt 8); ("sku", Matcher.VStr "SKU-B")]].

(** The rows that [load_items_and_vectors] keeps: those whose blob holds an
    array of 1536 components. *)
Definition valid_row (row : LoadVectors.item_row) : option (string * string * Database.vector) :=
  match row with
  | (sku, item_name, LoadVectors.Array vector) =>
      if Nat.eqb (length vector) 1536 then Some (sku, item_name, vector) else None
  | (_, _, LoadVectors.Corrupt) => None
  end.

(** The globals of [api/database.py] after a complete load. *)
Definition loaded (vectors : Database.matrix) (item_skus item_names : list string)
  : Database.globals :=
  {| Database._vectors_cache := Some vectors;
     Database._item_skus := Some item_skus;
     Database._item_names := Some item_names;
     Database._item_sku_to_index := Some (Database.sku_to_index item_skus) |}.

(** Three rows of the item table: a good one, one of the wrong dimension and
    one that cannot be unpickled. *)
Definition example_rows : list LoadVectors.item_row :=
  [("SKU-A", "Beaker", LoadVectors.Array (replicate 1536 1%float));
   ("SKU-B", "Flask", LoadVectors.Array [1; 0]%float);
   ("SKU-C", "Funnel", LoadVectors.Corrupt)].

(** The history of the worked example, in exact arithmetic. *)
Definition example_world : Matcher.world Q (list Q) :=
  {| Matcher.get_all_historical_mappings := fun _ => Return example_history;
     Matcher.generate_embedding := fun _ => Raise OtherException;
     Matcher.search_vectors := fun _ _ => Raise RuntimeError;
     Matcher.get_item_by_sku := fun _ => Return None |}.

(** How many rows map [requirement] to [sku] once stripped. *)
Definition occurrences (strip : string -> string) (requirement sku : string)
    (rows : list (string * string)) : Z :=
  Z.of_nat (length (filter (fun row => strip row.1 = requirement /\ strip row.2 = sku) rows)).

(** [mappings[requirement][sku]], if both keys are there. *)
Definition frequency_of (mappings : dict (dict Z)) (requirement sku : string) : option Z :=
  dict_get mappings requirement ≫= (fun freqs => dict_get freqs sku).

(** Four quotation rows for two requirements. *)
Definition example_mappings_rows : list (string * string) :=
  [("beaker", "SKU-A"); ("flask", "SKU-B"); ("beaker", "SKU-A"); ("beaker", "SKU-C");
   ("", "SKU-D")].

(** * Properties *)

(** ** Dictionaries *)

Section DictFacts.
Context {V : Type}.
Implicit Types (d : dict V) (k : string) (v : V).

Lemma dict_get_set_eq d k v : dict_get (dict_set k v d) k = Some v.
Proof.
  induction d as [|[k' v'] d IH]; csimpl.
  - by rewrite String.eqb_refl.
  - destruct (String.eqb k' k) eqn:E; csimpl.
    + by rewrite String.eqb_refl.
    + by rewrite E.
Qed.

Lemma dict_get_set_ne d k k' v : k <> k' -> dict_get (dict_set k v d) k' = dict_get d k'.
Proof.
  intros Hne. induction d as [|[k0 v0] d IH]; csimpl.
  - destruct (String.eqb_spec k k'); [done|done].
  - destruct (String.eqb_spec k0 k) as [->|Hk]; csimpl.
    + destruct (String.eqb_spec k k'); [done|].
      destruct (String.eqb_spec k k'); [done|done].
    + destruct (String.eqb_spec k0 k'); [done|done].
Qed.

Lemma dict_get_None d k : dict_get d k = None <-> k ∉ dict_keys d.
Proof.
  unfold dict_keys. induction d as [|[k' v'] d IH]; csimpl.
  - split; [intros _; apply not_elem_of_nil | done].
  - rewrite not_elem_of_cons. destruct (String.eqb_spec k' k) as [->|Hk].
    + split; [done | intros [? _]; done].
    + rewrite IH. split; [intros ?; split; [congruence | done] | intros [_ ?]; done].
Qed.

Lemma dict_get_Some_elem d k v : dict_get d k = Some v -> (k, v) ∈ d.
Proof.
  induction d as [|[k' v'] d IH]; csimpl; [done|].
  destruct (String.eqb_spec k' k) as [->|Hk].
  - intros [= ->]. apply list_elem_of_here.
  - intros ?. apply list_elem_of_further. auto.
Qed.

Lemma dict_get_lookup d k v i :
  dict_wf d -> d !! i = Some (k, v) -> dict_get d k = Some v.
Proof.
  unfold dict_wf, dict_keys. revert i. induction d as [|[k' v'] d IH]; intros i Hwf Hi.
  - done.
  - csimpl in Hwf. apply NoDup_cons in Hwf as [Hnin Hwf]. destruct i as [|i]; csimpl in *.
    + injection Hi as -> ->. by rewrite String.eqb_refl.
    + destruct (String.eqb_spec k' k) as [->|Hk].
      * exfalso. apply Hnin. apply list_elem_of_fmap. exists (k, v). split; [done|].
        by eapply list_elem_of_lookup_2.
      * eauto.
Qed.

Lemma dict_keys_set d k v :
  dict_keys (dict_set k v d) = if dict_mem d k then dict_keys d else dict_keys d ++ [k].
Proof.
  unfold dict_mem, dict_keys. induction d as [|[k' v'] d IH]; csimpl; [done|].
  destruct (String.eqb_spec k' k) as [->|Hk]; csimpl; [done|].
  rewrite IH. by destruct (dict_get d k).
Qed.

Lemma dict_mem_elem d k : dict_mem d k = true <-> k ∈ dict_keys d.
Proof.
  unfold dict_mem. destruct (dict_get d k) eqn:E.
  - split; [intros _|done]. destruct (decide (k ∈ dict_keys d)) as [|Hn]; [done|].
    apply dict_get_None in Hn. congruence.
  - apply dict_get_None in E. split; [done | intros ?; done].
Qed.

Lemma dict_wf_set d k v : dict_wf d -> dict_wf (dict_set k v d).
Proof.
  unfold dict_wf. rewrite dict_keys_set. destruct (dict_mem d k) eqn:E; [done|].
  intros Hwf. apply NoDup_app. split; [done|]. split.
  - intros x Hx Hx'. apply list_elem_of_singleton in Hx' as ->.
    apply dict_mem_elem in Hx. congruence.
  - apply NoDup_singleton.
Qed.

Lemma dict_set_fresh d k v : k ∉ dict_keys d -> dict_set k v d = d ++ [(k, v)].
Proof.
  unfold dict_keys. induction d as [|[k' v'] d IH]; csimpl; [done|].
  rewrite not_elem_of_cons. intros [Hne Hnin].
  destruct (String.eqb_spec k' k) as [->|Hk]; [done|]. by rewrite IH.
Qed.

(** A dict comprehension over items with distinct keys lists them as they come. *)
Lemma dict_of_items_wf (items : list (string * V)) :
  NoDup items.*1 -> dict_of_items items = items.
Proof.
  unfold dict_of_items. intros Hnd.
  enough (forall acc, NoDup (acc.*1 ++ items.*1) ->
            foldl (fun d kv => dict_set kv.1 kv.2 d) acc items = acc ++ items) as Hgen.
  { apply (Hgen []). done. }
  clear Hnd. induction items as [|[k v] items IH]; intros acc Hnd; csimpl.
  - by rewrite app_nil_r.
  - rewrite dict_set_fresh.
    + rewrite IH; [by rewrite <- app_assoc|].
      rewrite fmap_app. csimpl. by rewrite <- app_assoc.
    + csimpl in Hnd. apply NoDup_app in Hnd as (_ & Hdisj & _).
      intros Hin. apply (Hdisj k Hin). apply list_elem_of_here.
Qed.

End DictFacts.

(** ** Sorting *)

Section SortFacts.
Context {A K : Type} (lt : K -> K -> bool) (key : A -> K).

Lemma sorted_asc_desc l : sorted_asc lt key l = sorted_desc (fun a b => lt b a) key l.
Proof.
  induction l as [|x l IH]; [done|]. simpl. rewrite IH.
  generalize (sorted_desc (fun a b => lt b a) key l). intros s.
  induction s as [|y s IHs]; [done|]. simpl. by rewrite IHs.
Qed.

Lemma insert_desc_perm x l : insert_desc lt key x l ≡ₚ x :: l.
Proof.
  induction l as [|y l IH]; [done|]. simpl.
  destruct (lt (key x) (key y)); [|done].
  rewrite IH. apply Permutation_swap.
Qed.

Lemma sorted_desc_perm l : sorted_desc lt key l ≡ₚ l.
Proof.
  induction l as [|x l IH]; [done|]. simpl.
  rewrite insert_desc_perm. by rewrite IH.
Qed.

Lemma insert_desc_sublist x l0 l : l0 `sublist_of` l -> l0 `sublist_of` insert_desc lt key x l.
Proof.
  revert l0. induction l as [|y l IH]; intros l0 Hsub; simpl.
  - by apply sublist_cons.
  - destruct (lt (key x) (key y)).
    + apply sublist_cons_r in Hsub as [Hsub|(l0' & -> & Hsub)].
      * apply sublist_cons. by apply IH.
      * apply sublist_skip. by apply IH.
    + by apply sublist_cons.
Qed.

Lemma insert_desc_before a b l :
  b ∈ l -> lt (key a) (key b) = false -> [a; b] `sublist_of` insert_desc lt key a l.
Proof.
  intros Hin Hlt. induction l as [|y l IH]; simpl.
  - by apply elem_of_nil in Hin.
  - destruct (lt (key a) (key y)) eqn:E.
    + apply sublist_cons. apply IH.
      apply elem_of_cons in Hin as [->|Hin]; [congruence|done].
    + apply sublist_skip. by apply singleton_sublist_l.
Qed.

(** Stability: an element that is not smaller than a later one stays before it. *)
Lemma sorted_desc_stable a b l :
  [a; b] `sublist_of` l -> lt (key a) (key b) = false ->
  [a; b] `sublist_of` sorted_desc lt key l.
Proof.
  intros Hsub Hlt. induction l as [|x l IH]; simpl.
  - by apply sublist_nil_r in Hsub.
  - apply sublist_cons_r in Hsub as [Hsub|(l0' & [= <- <-] & Hsub)].
    + apply insert_desc_sublist. by apply IH.
    + apply insert_desc_before; [|done].
      rewrite sorted_desc_perm. by apply singleton_sublist_l.
Qed.

Lemma sorted_asc_perm l : sorted_asc lt key l ≡ₚ l.
Proof.
  induction l as [|x l IH]; [done|]. simpl. rewrite <- IH at 2.
  generalize (sorted_asc lt key l). intros s.
  induction s as [|y s IHs]; [done|]. simpl.
  destruct (lt (key y) (key x)); [|done].
  rewrite IHs. apply Permutation_swap.
Qed.

Section Ordered.
(** [lt] is a strict weak order on the keys. *)
Hypothesis lt_asym : forall x y, lt x y = true -> lt y x = false.
Hypothesis lt_negtrans : forall x y z, lt x y = false -> lt y z = false -> lt x z = false.

Lemma insert_desc_sorted x l :
  StronglySorted (fun a b => lt (key a) (key b) = false) l ->
  StronglySorted (fun a b => lt (key a) (key b) = false) (insert_desc lt key x l).
Proof.
  induction 1 as [|y l Hs IH Hall]; simpl.
  - by repeat constructor.
  - destruct (lt (key x) (key y)) eqn:E.
    + constructor; [done|].
      rewrite insert_desc_perm. constructor; [by apply lt_asym | done].
    + constructor; [by constructor|].
      constructor; [done|].
      eapply Forall_impl; [exact Hall|]. intros z Hz. simpl in Hz.
      by eapply lt_negtrans.
Qed.

Lemma sorted_desc_sorted l :
  StronglySorted (fun a b => lt (key a) (key b) = false) (sorted_desc lt key l).
Proof.
  induction l as [|x l IH]; simpl; [constructor|]. by apply insert_desc_sorted.
Qed.

End Ordered.
End SortFacts.

Lemma sorted_asc_sorted {A K} (lt : K -> K -> bool) (key : A -> K) (l : list A) :
  (forall x y, lt x y = true -> lt y x = false) ->
  (forall x y z, lt x y = false -> lt y z = false -> lt x z = false) ->
  StronglySorted (fun a b => lt (key b) (key a) = false) (sorted_asc lt key l).
Proof.
  intros Hasym Hneg. rewrite sorted_asc_desc.
  apply (sorted_desc_sorted (fun a b => lt b a) key); [by auto|].
  intros x y z Hxy Hyz. by eapply Hneg.
Qed.


(** Positions of a pair that occurs in order in a duplicate-free list. *)
Lemma sublist_pair_lookup {A} (l : list A) (a b : A) (p q : nat) :
  NoDup l -> [a; b] `sublist_of` l -> l !! p = Some a -> l !! q = Some b -> (p < q)%nat.
Proof.
  intros Hnd Hsub Hp Hq.
  apply sublist_cons_l in Hsub as (l1 & l2 & -> & Hsub).
  apply singleton_sublist_l in Hsub. apply list_elem_of_lookup in Hsub as [j Hj].
  assert (p = length l1) as ->.
  { eapply NoDup_lookup; [done|done|]. by rewrite list_lookup_middle. }
  assert (q = (length l1 + S j)%nat) as ->.
  { eapply NoDup_lookup; [done|done|].
    rewrite lookup_app_r by lia.
    replace (length l1 + S j - length l1)%nat with (S j) by lia. done. }
  lia.
Qed.

Lemma lookup_pair_sublist {A} (l : list A) (a b : A) (p q : nat) :
  (p < q)%nat -> l !! p = Some a -> l !! q = Some b -> [a; b] `sublist_of` l.
Proof.
  intros Hpq Hp Hq.
  rewrite <- (take_drop_middle l p a Hp).
  apply sublist_inserts_l. apply sublist_skip. apply singleton_sublist_l.
  apply list_elem_of_lookup. exists (q - S p)%nat.
  rewrite lookup_drop. rewrite <- Hq. f_equal. lia.
Qed.

(** ** Binary64 and exact arithmetic *)

Section FloatFacts.
#[local] Open Scope float_scope.

Lemma float_add_0_r (x : float) : x = x + 0 \/ PrimFloat.eqb x (x + 0) = true.
Proof.
  destruct (Prim2SF x) as [s|s| |s m e] eqn:E.
  - destruct s.
    + right. rewrite FloatAxioms.eqb_spec, add_spec, E. reflexivity.
    + left. apply Prim2SF_inj. rewrite add_spec, E. reflexivity.
  - left. apply Prim2SF_inj. rewrite add_spec, E. reflexivity.
  - left. apply Prim2SF_inj. rewrite add_spec, E. reflexivity.
  - left. apply Prim2SF_inj. rewrite add_spec, E. reflexivity.
Qed.

Lemma float_add_0_l (x : float) : x = 0 + x \/ PrimFloat.eqb x (0 + x) = true.
Proof.
  destruct (Prim2SF x) as [s|s| |s m e] eqn:E.
  - destruct s.
    + right. rewrite FloatAxioms.eqb_spec, add_spec, E. reflexivity.
    + left. apply Prim2SF_inj. rewrite add_spec, E. reflexivity.
  - left. apply Prim2SF_inj. rewrite add_spec, E. reflexivity.
  - left. apply Prim2SF_inj. rewrite add_spec, E. reflexivity.
  - left. apply Prim2SF_inj. rewrite add_spec, E. reflexivity.
Qed.

Lemma SFcompare_refl x : sf_is_nan x = false -> SFcompare x x = Some Eq.
Proof.
  destruct x as [s|s| |s m e]; simpl; try discriminate; intros _.
  - reflexivity.
  - destruct s; reflexivity.
  - rewrite Z.compare_refl.
    change (PosDef.Pos.compare_cont Eq m m) with (Pos.compare m m).
    rewrite Pos.compare_refl. destruct s; reflexivity.
Qed.

Lemma is_nan_spec x : is_nan x = sf_is_nan (Prim2SF x).
Proof.
  unfold is_nan. rewrite FloatAxioms.eqb_spec. unfold SFeqb.
  destruct (sf_is_nan (Prim2SF x)) eqn:E.
  - destruct (Prim2SF x); try discriminate. reflexivity.
  - rewrite SFcompare_refl by exact E. reflexivity.
Qed.

Lemma np_lt_spec a b : np_lt a b = sf_lt (Prim2SF a) (Prim2SF b).
Proof. unfold np_lt, sf_lt. now rewrite FloatAxioms.ltb_spec, !is_nan_spec. Qed.

Lemma sf_lt_asym x y : sf_lt x y = true -> sf_lt y x = false.
Proof.
  unfold sf_lt, SFltb.
  destruct x as [sx|sx| |sx mx ex], y as [sy|sy| |sy my ey]; simpl;
    try destruct sx; try destruct sy; simpl; try congruence;
    change (PosDef.Pos.compare_cont Eq ?a ?b) with (Pos.compare a b);
    compare_cases; simpl; try congruence; try lia.
Qed.

Lemma sf_lt_negtrans x y z : sf_lt x y = false -> sf_lt y z = false -> sf_lt x z = false.
Proof.
  unfold sf_lt, SFltb.
  destruct x as [sx|sx| |sx mx ex], y as [sy|sy| |sy my ey], z as [sz|sz| |sz mz ez];
    simpl; try destruct sx; try destruct sy; try destruct sz; simpl; try congruence;
    change (PosDef.Pos.compare_cont Eq ?a ?b) with (Pos.compare a b);
    compare_cases; simpl; try congruence; try lia.
Qed.

(** NumPy's sort order is a strict weak order on all floats, NaN included. *)
Lemma np_lt_asym a b : np_lt a b = true -> np_lt b a = false.
Proof. rewrite !np_lt_spec. apply sf_lt_asym. Qed.

Lemma np_lt_negtrans a b c : np_lt a b = false -> np_lt b c = false -> np_lt a c = false.
Proof. rewrite !np_lt_spec. apply sf_lt_negtrans. Qed.

End FloatFacts.

#[global] Instance Binary64_laws : NumLaws float.
Proof.
  split.
  - intros x. by left.
  - apply float_add_0_l.
  - apply float_add_0_r.
Qed.

#[global] Instance Exact_laws : NumLaws Q.
Proof.
  split; simpl.
  - intros x. reflexivity.
  - intros x. symmetry. apply Qplus_0_l.
  - intros x. symmetry. apply Qplus_0_r.
Qed.

(** ** The combine step of [calculate_hybrid_score] *)

Section CombineFacts.
Context {F : Type} `{Num F}.

Lemma dict_wf_reverse {V} (d : dict V) : dict_wf d -> dict_wf (reverse d).
Proof. unfold dict_wf, dict_keys. rewrite fmap_reverse. by rewrite reverse_Permutation. Qed.

Lemma dict_get_elem_wf {V} (d : dict V) k v : dict_wf d -> (k, v) ∈ d -> dict_get d k = Some v.
Proof.
  intros Hwf Hin. apply list_elem_of_lookup in Hin as [i Hi]. by eapply dict_get_lookup.
Qed.

Lemma dict_get_reverse {V} (d : dict V) k : dict_wf d -> dict_get (reverse d) k = dict_get d k.
Proof.
  intros Hwf. destruct (dict_get d k) as [v|] eqn:E.
  - apply dict_get_elem_wf; [by apply dict_wf_reverse|].
    apply elem_of_reverse. by apply dict_get_Some_elem.
  - apply dict_get_None. apply dict_get_None in E.
    unfold dict_keys in *. rewrite fmap_reverse. by rewrite elem_of_reverse.
Qed.

Lemma add_historical_get hm (nh : dict F) sku :
  dict_get (Matcher.add_historical hm nh) sku =
    (fun nf => {| Matcher.historical_score := nmul nf Matcher.HISTORY_WEIGHT;
                  Matcher.vector_score := nzero;
                  Matcher.historical_frequency := default 0 (dict_get hm sku);
                  Matcher.vector_similarity := nzero;
                  Matcher.final_score := nmul nf Matcher.HISTORY_WEIGHT |})
      <$> dict_get (reverse nh) sku.
Proof.
  unfold Matcher.add_historical.
  induction nh as [|[k nf] nh IH] using rev_ind; [done|].
  rewrite foldl_snoc, reverse_snoc. simpl.
  destruct (String.eqb_spec k sku) as [->|Hne].
  - by rewrite dict_get_set_eq.
  - by rewrite dict_get_set_ne.
Qed.

Lemma add_vector_fold_get c0 (vr : list (string * F)) sku :
  match last_similarity vr sku with
  | None => dict_get (foldl Matcher.add_vector c0 vr) sku = dict_get c0 sku
  | Some s => exists m, dict_get (foldl Matcher.add_vector c0 vr) sku = Some m /\
                        after_vector (dict_get c0 sku) s m
  end.
Proof.
  unfold last_similarity.
  induction vr as [|[k s] vr IH] using rev_ind; [done|].
  rewrite foldl_snoc, reverse_snoc. simpl.
  set (c := foldl Matcher.add_vector c0 vr) in *.
  destruct (String.eqb_spec k sku) as [->|Hne].
  - unfold Matcher.add_vector. simpl.
    destruct (dict_get c sku) as [m'|] eqn:Ec; rewrite dict_get_set_eq;
      eexists; (split; [done|]); unfold after_vector; simpl.
    + destruct (dict_get (reverse vr) sku) as [s'|].
      * destruct IH as (m & [= <-] & Hh & Hf & _). naive_solver.
      * rewrite <- IH. simpl. naive_solver.
    + destruct (dict_get (reverse vr) sku) as [s'|].
      * destruct IH as (m & [=] & _).
      * rewrite <- IH. simpl. naive_solver.
  - replace (dict_get (Matcher.add_vector c (k, s)) sku) with (dict_get c sku); [done|].
    unfold Matcher.add_vector. simpl.
    destruct (dict_get c k); by rewrite dict_get_set_ne.
Qed.

End CombineFacts.

Lemma combine_get {F} `{NumLaws F} hm (nh : dict F) vr sku :
  dict_wf nh ->
  match dict_get nh sku, last_similarity vr sku with
  | None, None => dict_get (Matcher.combine hm nh vr) sku = None
  | nf, sim => exists m, dict_get (Matcher.combine hm nh vr) sku = Some m /\ scored_as nf sim m
  end.
Proof.
  intros Hwf. unfold Matcher.combine.
  pose proof (add_vector_fold_get (Matcher.add_historical hm nh) vr sku) as Hv.
  rewrite add_historical_get, dict_get_reverse in Hv by done.
  destruct (dict_get nh sku) as [nf|], (last_similarity vr sku) as [s|]; simpl in Hv.
  - destruct Hv as (m & Hm & Hh & _ & Hvs & _ & Hfin). exists m. split; [done|].
    unfold scored_as. rewrite Hh, Hvs. split; [done|]. split; [done|].
    destruct Hfin as [->| [Hz ->]].
    + rewrite Hh, Hvs. apply nsame_refl.
    + rewrite Hh in Hz. rewrite Hz, Hvs. apply nadd_0_l.
  - eexists. split; [done|]. unfold scored_as. simpl. split; [done|]. split; [done|].
    apply nadd_0_r.
  - destruct Hv as (m & Hm & Hh & _ & Hvs & _ & Hfin). exists m. split; [done|].
    unfold scored_as. rewrite Hh, Hvs. split; [done|]. split; [done|].
    destruct Hfin as [->| [Hz ->]].
    + rewrite Hh, Hvs. apply nsame_refl.
    + rewrite Hvs. apply nadd_0_l.
  - done.
Qed.

(** C1. The combine step of [calculate_hybrid_score] gives each sku
    [historical_score = normalizedFreq * 0.7] (0 if the sku is absent from the
    history), [vector_score = similarity * 0.3] for the similarity of its last
    vector entry (0 if it has none; a repeated entry overwrites and leaves
    [historical_score] untouched) and a [final_score] that is the same number
    as [historical_score + vector_score]; a sku in neither source gets no
    record.  This holds in every arithmetic in which adding zero changes
    nothing, binary64 and the rationals included.  On the worked example the
    ranking is SKU-A, SKU-C, SKU-B with final scores 0.97, 0.15 and 0.14:
    exactly so in rational arithmetic, and to within [1e-15] in binary64
    (where SKU-B is the float [0.2 * 0.7], printed 0.13999999999999999). *)
Theorem C1_combine_scores :
  (forall (F : Type) (N : Num F) (L : NumLaws F)
          (hm : dict Z) (nh : dict F) (vr : list (string * F)) (sku : string),
     dict_wf nh ->
     match dict_get nh sku, last_similarity vr sku with
     | None, None => dict_get (Matcher.combine hm nh vr) sku = None
     | nf, sim =>
         exists m, dict_get (Matcher.combine hm nh vr) sku = Some m /\ scored_as nf sim m
     end) /\
  Forall2 (fun a b => a.1 = b.1 /\ Qeq a.2 b.2)
    (example_ranking (F := Q))
    [("SKU-A", 0.97%Q); ("SKU-C", 0.15%Q); ("SKU-B", 0.14%Q)] /\
  Forall2 (fun a b => a.1 = b.1 /\ close a.2 b.2 = true)
    (example_ranking (F := float))
    [("SKU-A", 0.97%float); ("SKU-C", 0.15%float); ("SKU-B", 0.14%float)].
Proof.
  split; [|split].
  - intros F N L hm nh vr sku Hwf. by apply combine_get.
  - repeat constructor.
  - repeat constructor.
Qed.

(** The worked example is an instance: SKU-A is in both sources. *)
Lemma C1_combine_scores_witness :
  dict_wf (example_normalized (F := Q)) /\
  exists m, dict_get (Matcher.combine example_history example_normalized
                        example_vector_results) "SKU-A" = Some m /\
            scored_as (Some 1%Q) (Some 0.9%Q) m.
Proof.
  assert (dict_wf (example_normalized (F := Q))) as Hwf.
  { apply (bool_decide_unpack _). vm_compute. exact I. }
  split; [exact Hwf|].
  exact (proj1 C1_combine_scores Q _ _ example_history example_normalized
           example_vector_results "SKU-A" Hwf).
Defined.

(** ** [normalize_frequencies] *)

Lemma mapM_Return {A B} (f : A -> outcome B) (g : A -> B) (l : list A) :
  (forall x, x ∈ l -> f x = Return (g x)) -> mapM f l = Return (g <$> l).
Proof.
  induction l as [|x l IH]; intros Hf; [done|].
  assert (mapM f l = Return (g <$> l)) as IH'.
  { apply IH. intros y Hy. apply Hf. by apply list_elem_of_further. }
  csimpl. rewrite (Hf x) by apply list_elem_of_here. simpl.
  change (mapM f l ≫= (fun k => mret (g x :: k)) = Return (g x :: (g <$> l))).
  by rewrite IH'.
Qed.

Lemma foldl_max_ge (l : list Z) (a x : Z) : x = a \/ x ∈ l -> x <= foldl Z.max a l.
Proof.
  revert a x. induction l as [|y l IH]; intros a x [->|Hin]; simpl.
  - lia.
  - by apply elem_of_nil in Hin.
  - transitivity (Z.max a y); [lia | apply IH; by left].
  - apply elem_of_cons in Hin as [->|Hin].
    + transitivity (Z.max a y); [lia | apply IH; by left].
    + apply IH. by right.
Qed.

Lemma max_int_ge (l : list Z) (x : Z) : x ∈ l -> x <= max_int l.
Proof.
  destruct l as [|y l]; simpl; intros Hin.
  - by apply elem_of_nil in Hin.
  - apply foldl_max_ge. apply elem_of_cons in Hin as [->|Hin]; auto.
Qed.

Lemma fmap_fst_tag {A B} (b : A -> B) (l : list A) : ((fun a => (a, b a)) <$> l).*1 = l.
Proof. induction l as [|a l IH]; [done|]. csimpl. by rewrite IH. Qed.

Lemma fmap_fst_keep {A B C} (f : A * B -> C) (l : list (A * B)) :
  ((fun kv => (kv.1, f kv)) <$> l).*1 = l.*1.
Proof. induction l as [|a l IH]; [done|]. csimpl. by rewrite IH. Qed.

Lemma normalize_frequencies_normalized {F} `{Num F} (frequencies : dict Z) :
  dict_wf frequencies ->
  Matcher.normalize_frequencies frequencies = Return (normalized frequencies).
Proof.
  intros Hwf. unfold Matcher.normalize_frequencies, normalized.
  destruct frequencies as [|kv0 rest]; [done|].
  set (frequencies := kv0 :: rest) in *.
  set (max_freq := max_int (dict_values frequencies)).
  destruct (max_freq =? 0) eqn:Emax.
  - f_equal. rewrite dict_of_items_wf.
    + unfold dict_keys. rewrite <- list_fmap_compose. done.
    + rewrite (fmap_fst_tag (fun _ => nzero)). exact Hwf.
  - rewrite (mapM_Return _ (fun kv => (kv.1, nratio kv.2 max_freq))).
    + unfold mbind, mret, outcome_bind, outcome_ret. f_equal. apply dict_of_items_wf.
      rewrite (fmap_fst_keep (fun kv => nratio kv.2 max_freq)). exact Hwf.
    + intros kv _. unfold Matcher.int_truediv. by rewrite Emax.
Qed.

Lemma ratio_in_unit_interval (f m : Z) :
  0 <= f <= m -> m <> 0 -> (0 <= nratio (F := Q) f m <= 1)%Q.
Proof.
  intros Hf Hm. simpl. destruct m as [|p|p]; [done| |lia].
  unfold Qdiv, Qinv, Qmult, Qle, inject_Z. simpl. lia.
Qed.

Lemma foldl_max_elem (l : list Z) (a : Z) : foldl Z.max a l ∈ a :: l.
Proof.
  revert a. induction l as [|y l IH]; intros a; simpl; [by left|].
  specialize (IH (Z.max a y)). apply elem_of_cons in IH as [->|IH].
  - destruct (Z.max_spec a y) as [[_ ->]|[_ ->]]; [right; by left | by left].
  - by do 2 right.
Qed.

Lemma max_int_elem (l : list Z) : l <> [] -> max_int l ∈ l.
Proof. destruct l as [|x l]; [done|]. intros _. apply foldl_max_elem. Qed.

(** *** Quotients of ints in binary64

    For [0 <= a <= b < 2^53] both ints convert to binary64 exactly, and the
    float division rounds their quotient to a float between [0.0] and
    [1.0]. *)

Section UnitRatio.
#[local] Open Scope Z_scope.

Lemma digits2_pos_bounds (p : positive) :
  2 ^ (Zpos (digits2_pos p) - 1) <= Zpos p < 2 ^ Zpos (digits2_pos p).
Proof.
  induction p as [p IH|p IH|]; simpl digits2_pos; [| |simpl; lia].
  all: rewrite Pos2Z.inj_succ;
    replace (Z.succ (Zpos (digits2_pos p)) - 1) with (Z.succ (Zpos (digits2_pos p) - 1)) by lia;
    rewrite !Z.pow_succ_r by lia; lia.
Qed.

Lemma digits2_pos_unique (p : positive) (d : Z) :
  2 ^ (d - 1) <= Zpos p < 2 ^ d -> Zpos (digits2_pos p) = d.
Proof.
  intros [Hlo Hhi]. pose proof (digits2_pos_bounds p) as [Hlo' Hhi'].
  set (d' := Zpos (digits2_pos p)) in *.
  assert (0 < d) as Hd.
  { destruct (Z_lt_le_dec 0 d) as [|Hle]; [done|]. exfalso.
    assert (2 ^ d <= 2 ^ 0) by (destruct d; simpl; try lia; by apply Z.pow_le_mono_r).
    simpl in *. lia. }
  destruct (Z_lt_le_dec d' d) as [Hlt|Hge].
  - assert (2 ^ d' <= 2 ^ (d - 1)) by (apply Z.pow_le_mono_r; lia). lia.
  - destruct (Z_lt_le_dec d d') as [Hlt|Hle]; [|lia].
    assert (2 ^ d <= 2 ^ (d' - 1)) by (apply Z.pow_le_mono_r; lia). lia.
Qed.

Lemma digits2_pos_le (p : positive) (k : Z) :
  0 <= k -> Zpos p <= 2 ^ k -> Zpos (digits2_pos p) <= k + 1.
Proof.
  intros Hk Hp. pose proof (digits2_pos_bounds p) as [Hlo _].
  destruct (Z_lt_le_dec (k + 1) (Zpos (digits2_pos p))) as [Hlt|]; [|done].
  assert (2 ^ (k + 1) <= 2 ^ (Zpos (digits2_pos p) - 1)) by (apply Z.pow_le_mono_r; lia).
  rewrite Z.pow_add_r in * by lia. simpl in *. lia.
Qed.

Lemma iter_xO_value (p k : positive) : Zpos (Pos.iter xO p k) = Zpos p * 2 ^ Zpos k.
Proof.
  apply (Pos.iter_ind _ xO p (fun k q => Zpos q = Zpos p * 2 ^ Zpos k)).
  - simpl. lia.
  - intros k' q IH. rewrite Pos2Z.inj_succ, Z.pow_succ_r by lia.
    rewrite Pos2Z.inj_xO. lia.
Qed.

(** [k] steps of [f] move an invariant that counts the steps by [k]. *)
Lemma iter_pos_counted {A} (f : A -> A) (P : Z -> A -> Prop) :
  (forall k x, P k x -> P (k + 1) (f x)) ->
  forall p k x, P k x -> P (k + Zpos p) (SpecFloat.iter_pos f p x).
Proof.
  intros Hstep p. induction p as [p IH|p IH|]; intros k x Hx; simpl.
  - replace (k + Zpos p~1) with (k + 1 + Zpos p + Zpos p) by lia.
    by apply IH, IH, Hstep.
  - replace (k + Zpos p~0) with (k + Zpos p + Zpos p) by lia.
    by apply IH, IH.
  - by apply Hstep.
Qed.

Lemma shr_1_in_unit (mrs : shr_record) (e : Z) :
  e < 0 -> in_unit mrs e -> in_unit (shr_1 mrs) (e + 1).
Proof.
  intros He (H0 & Hle & Hlt). destruct mrs as [m r s]. simpl in *.
  replace (- e) with (Z.succ (- (e + 1))) in Hle, Hlt by lia.
  rewrite Z.pow_succ_r in Hle, Hlt by lia.
  assert (0 < 2 ^ (- (e + 1))) by (apply Z.pow_pos_nonneg; lia).
  destruct m as [|[p|p|]|p]; simpl; unfold in_unit; simpl; [| | | |lia].
  - split; [lia|]. split; [lia|]. intros _. lia.
  - split; [lia|]. split; [lia|]. intros _. lia.
  - split; [lia|]. split; [lia|]. intros Hb. specialize (Hlt Hb). lia.
  - split; [lia|]. split; [lia|]. intros _. lia.
Qed.

Lemma shr_fexp_in_unit (m e : Z) (l : location) :
  e <= -52 -> in_unit (shr_record_of_loc m l) e ->
  in_unit (shr_fexp prec emax m e l).1 (shr_fexp prec emax m e l).2 /\
  (shr_fexp prec emax m e l).2 <= -52.
Proof.
  intros He Hin. unfold shr_fexp, shr.
  destruct (fexp prec emax (Zdigits2 m + e) - e) as [|n|n] eqn:En; simpl; [done| |done].
  assert (shr_m (shr_record_of_loc m l) = m) as Hm by (by destruct l as [|[]]).
  assert (Zdigits2 m + e <= 1) as Hd.
  { destruct Hin as (H0 & Hle & _). rewrite Hm in H0, Hle.
    destruct m as [|p|p]; simpl; [lia| |lia].
    pose proof (digits2_pos_le p (- e) ltac:(lia) Hle). lia. }
  assert (e + Zpos n <= -52) as He'.
  { unfold fexp, emin, prec, emax in En. lia. }
  split; [|done].
  apply (iter_pos_counted shr_1 (fun k x => e + k <= 0 -> in_unit x (e + k)))
    with (k := 0) (p := n) (x := shr_record_of_loc m l); [| |simpl; lia].
  - intros k x Hx Hk. replace (e + (k + 1)) with (e + k + 1) by lia.
    apply shr_1_in_unit; [lia|]. apply Hx. lia.
  - intros _. by rewrite Z.add_0_r.
Qed.

Lemma round_nearest_even_in_unit (mrs : shr_record) (e : Z) :
  in_unit mrs e ->
  in_unit (shr_record_of_loc (round_nearest_even (shr_m mrs) (loc_of_shr_record mrs))
                             loc_Exact) e.
Proof.
  intros (H0 & Hle & Hlt). destruct mrs as [m [] []]; simpl in *; unfold in_unit; simpl.
  - specialize (Hlt eq_refl). split; [lia|]. split; [lia|done].
  - specialize (Hlt eq_refl). destruct (Z.even m); (split; [lia|]); (split; [lia|done]).
  - split; [lia|]. split; [lia|done].
  - split; [lia|]. split; [lia|done].
Qed.

(** Rounding a number of [[0, 1]] gives a float of [[0, 1]]. *)
Lemma binary_round_aux_unit (mx ex : Z) (lx : location) :
  ex <= -52 -> in_unit (shr_record_of_loc mx lx) ex ->
  unit_float (binary_round_aux prec emax false mx ex lx).
Proof.
  intros He Hin. unfold binary_round_aux.
  destruct (shr_fexp_in_unit mx ex lx He Hin) as [Hin1 He1].
  destruct (shr_fexp prec emax mx ex lx) as [mrs1 e1]. simpl in Hin1, He1.
  apply round_nearest_even_in_unit in Hin1.
  destruct (shr_fexp_in_unit _ e1 loc_Exact He1 Hin1) as [Hin2 He2].
  destruct (shr_fexp prec emax _ e1 loc_Exact) as [mrs2 e2]. simpl in Hin2, He2.
  destruct Hin2 as (H0 & Hle & _).
  destruct (shr_m mrs2) as [|m|m]; [done| |lia].
  assert ((e2 <=? emax - prec) = true) as ->
    by (apply Z.leb_le; unfold emax, prec; lia).
  unfold unit_float, SFleb, SFcompare. split; [done|].
  destruct (Z.compare_spec e2 (-52)) as [->|Hlt|Hgt]; [|done|lia].
  assert (2 ^ (- -52) = Zpos 4503599627370496) as Hpow by reflexivity.
  rewrite Hpow in Hle. clear Hpow.
  generalize dependent 4503599627370496%positive. intros n Hle.
  rewrite Pos.compare_cont_spec. unfold Pos.switch_Eq.
  destruct (Pos.compare_spec m n) as [Heq|Hlt|Hgt]; [done|done|].
  apply Pos2Z.pos_lt_pos in Hgt. lia.
Qed.

(** The mantissa and the exponent of [float(a)] for [0 < a < 2^53]: the
    conversion is exact. *)
Lemma binary_round_aux_canonical (s : bool) (M : positive) (E : Z) :
  Zpos (digits2_pos M) = 53 -> -1074 <= E <= 971 ->
  binary_round_aux prec emax s (Zpos M) E loc_Exact = S754_finite s M E.
Proof.
  intros Hd HE. unfold binary_round_aux.
  assert (forall m, m = Zpos M ->
            shr_fexp prec emax m E loc_Exact = (Build_shr_record m false false, E)) as Hshr.
  { intros m ->. unfold shr_fexp, shr. simpl Zdigits2. rewrite Hd.
    replace (fexp prec emax (53 + E) - E) with 0
      by (unfold fexp, emin, prec, emax; lia). done. }
  rewrite (Hshr _ eq_refl). simpl. rewrite (Hshr _ eq_refl). simpl.
  assert ((E <=? emax - prec) = true) as ->
    by (apply Z.leb_le; unfold emax, prec; lia).
  done.
Qed.

Lemma Prim2SF_Z2F (p : positive) :
  Zpos p < 2 ^ 53 ->
  exists M : positive,
    Prim2SF (Z2F (Zpos p)) = S754_finite false M (Zpos (digits2_pos p) - 53) /\
    Zpos M = Zpos p * 2 ^ (53 - Zpos (digits2_pos p)) /\
    Zpos (digits2_pos M) = 53.
Proof.
  intros Hp. pose proof (digits2_pos_bounds p) as [Hlo Hhi].
  set (d := Zpos (digits2_pos p)) in *.
  assert (1 <= d <= 53) as Hd.
  { split; [unfold d; lia|].
    destruct (Z_lt_le_dec 53 d) as [Hlt|]; [|done].
    assert (2 ^ 53 <= 2 ^ (d - 1)) by (apply Z.pow_le_mono_r; lia). lia. }
  assert (exists M : positive,
            shl_align p 0 (fexp prec emax (d + 0)) = (M, d - 53) /\
            Zpos M = Zpos p * 2 ^ (53 - d)) as (M & Hal & HM).
  { unfold shl_align.
    replace (fexp prec emax (d + 0) - 0) with (d - 53)
      by (unfold fexp, emin, prec, emax; lia).
    replace (fexp prec emax (d + 0)) with (d - 53)
      by (unfold fexp, emin, prec, emax; lia).
    destruct (d - 53) as [|k|k] eqn:Ek; [|lia|].
    - exists p. split; [done|]. replace (53 - d) with 0 by lia. simpl. lia.
    - exists (Pos.iter xO p k). split; [done|].
      rewrite iter_xO_value. by replace (53 - d) with (Zpos k) by lia. }
  assert (Zpos (digits2_pos M) = 53) as HdM.
  { apply digits2_pos_unique. rewrite HM.
    replace (2 ^ (53 - 1)) with (2 ^ (d - 1) * 2 ^ (53 - d))
      by (rewrite <- Z.pow_add_r by lia; f_equal; lia).
    replace (2 ^ 53) with (2 ^ d * 2 ^ (53 - d))
      by (rewrite <- Z.pow_add_r by lia; f_equal; lia).
    assert (0 < 2 ^ (53 - d)) by (apply Z.pow_pos_nonneg; lia).
    split; [apply Z.mul_le_mono_nonneg_r; lia | apply Z.mul_lt_mono_pos_r; lia]. }
  exists M. split; [|done].
  unfold Z2F, binary_normalize, binary_round. fold d. rewrite Hal.
  rewrite binary_round_aux_canonical by (done || lia).
  apply Prim2SF_SF2Prim. unfold valid_binary, bounded, canonical_mantissa.
  rewrite HdM. apply andb_true_intro. split.
  - apply Z.eqb_eq. unfold fexp, emin, prec, emax. lia.
  - apply Z.leb_le. unfold emax, prec. lia.
Qed.

Lemma new_location_inexact (n r : Z) : new_location n r <> loc_Exact -> r <> 0.
Proof.
  intros Hloc ->. apply Hloc. unfold new_location, new_location_even, new_location_odd.
  by destruct (Z.even n).
Qed.

(** [a / b] on ints with [0 <= a <= b < 2^53] is a float of [[0, 1]]. *)
Lemma nratio_unit (a b : Z) :
  0 <= a <= b -> 0 < b < 2 ^ 53 ->
  PrimFloat.leb 0 (nratio (F := float) a b) = true /\
  PrimFloat.leb (nratio (F := float) a b) 1 = true.
Proof.
  intros Ha Hb. rewrite !leb_spec. simpl nratio. rewrite div_spec.
  change (Prim2SF 0) with (S754_zero false).
  change (Prim2SF 1) with (S754_finite false 4503599627370496 (-52)).
  fold (unit_float (SF64div (Prim2SF (Z2F a)) (Prim2SF (Z2F b)))).
  destruct b as [|pb|pb]; [lia| |lia].
  destruct (Prim2SF_Z2F pb ltac:(lia)) as (M2 & -> & HM2 & Hd2).
  destruct a as [|pa|pa]; [| |lia].
  { change (Prim2SF (Z2F 0)) with (S754_zero false). done. }
  destruct (Prim2SF_Z2F pa ltac:(lia)) as (M1 & -> & HM1 & Hd1).
  pose proof (digits2_pos_bounds pa) as [Hlo1 Hhi1].
  pose proof (digits2_pos_bounds pb) as [Hlo2 Hhi2].
  set (d1 := Zpos (digits2_pos pa)) in *. set (d2 := Zpos (digits2_pos pb)) in *.
  assert (1 <= d1) by (unfold d1; lia).
  assert (d1 <= d2) as Hdd.
  { destruct (Z_lt_le_dec d2 d1) as [Hlt|]; [|done].
    assert (2 ^ d2 <= 2 ^ (d1 - 1)) by (apply Z.pow_le_mono_r; lia). lia. }
  assert (d2 <= 53) as Hd253.
  { destruct (Z_lt_le_dec 53 d2) as [Hlt|]; [|done].
    assert (2 ^ 53 <= 2 ^ (d2 - 1)) by (apply Z.pow_le_mono_r; lia). lia. }
  unfold SF64div, SFdiv, SFdiv_core_binary, Zdigits2. rewrite Hd1, Hd2. simpl xorb.
  replace (Z.min (fexp prec emax (53 + (d1 - 53) - (53 + (d2 - 53)))) (d1 - 53 - (d2 - 53)))
    with (d1 - d2 - 53) by (unfold fexp, emin, prec, emax; lia).
  replace (d1 - 53 - (d2 - 53) - (d1 - d2 - 53)) with 53 by lia.
  rewrite Z.shiftl_mul_pow2 by lia.
  pose proof (Z_div_mod (Zpos M1 * 2 ^ 53) (Zpos M2) ltac:(lia)) as Hdiv.
  destruct (Z.div_eucl (Zpos M1 * 2 ^ 53) (Zpos M2)) as [q r].
  destruct Hdiv as [Hq Hr].
  set (k := 53 + d2 - d1) in *.
  assert (Zpos M1 * 2 ^ 53 <= 2 ^ k * Zpos M2) as Hbound.
  { rewrite HM1, HM2. unfold k.
    replace (2 ^ (53 + d2 - d1)) with (2 ^ (53 - d1) * 2 ^ d2)
      by (rewrite <- Z.pow_add_r by lia; f_equal; lia).
    replace (2 ^ 53) with (2 ^ d2 * 2 ^ (53 - d2)) at 1
      by (rewrite <- Z.pow_add_r by lia; f_equal; lia).
    assert (0 < 2 ^ (53 - d1)) by (apply Z.pow_pos_nonneg; lia).
    assert (0 < 2 ^ (53 - d2)) by (apply Z.pow_pos_nonneg; lia).
    assert (0 < 2 ^ d2) by (apply Z.pow_pos_nonneg; lia).
    nia. }
  assert (0 < 2 ^ k) by (apply Z.pow_pos_nonneg; lia).
  apply binary_round_aux_unit; [lia|].
  assert (shr_m (shr_record_of_loc q (new_location (Zpos M2) r)) = q) as Hm
    by (by destruct (new_location (Zpos M2) r) as [|[]]).
  unfold in_unit. rewrite Hm.
  replace (- (d1 - d2 - 53)) with k by lia.
  assert (0 <= q) as Hq0.
  { destruct (Z_lt_le_dec q 0) as [Hneg|]; [|done].
    assert (Zpos M2 * q <= Zpos M2 * -1) by (apply Z.mul_le_mono_nonneg_l; lia). lia. }
  split; [done|]. split.
  - apply (Z.mul_le_mono_pos_l _ _ (Zpos M2)); lia.
  - intros Hbits.
    assert (r <> 0) as Hr0.
    { apply (new_location_inexact (Zpos M2)). intros Hex. rewrite Hex in Hbits. done. }
    apply (Z.mul_lt_mono_pos_l (Zpos M2)); lia.
Qed.

End UnitRatio.

(** C9. [normalize_frequencies] returns the empty mapping for the empty
    mapping.  Otherwise its divisor is the maximum of the frequencies: one
    of them, and none is larger.  When that maximum is zero it maps every
    sku to exactly [0.0]; otherwise it maps each sku to its frequency
    divided by the maximum (it never raises: the divisor is not zero).  For
    nonnegative frequencies every value lies in [[0, 1]]: in exact
    arithmetic always, and as binary64 floats for frequencies below [2^53],
    where Python's [int / int] is the float division of the converted
    operands. *)
Theorem C9_normalize_frequencies (frequencies : dict Z) :
  dict_wf frequencies ->
  (forall (F : Type) (N : Num F),
     Matcher.normalize_frequencies frequencies = Return (normalized frequencies)) /\
  (frequencies = [] ->
   forall (F : Type) (N : Num F),
     Matcher.normalize_frequencies (F := F) frequencies = Return []) /\
  (frequencies <> [] ->
   max_int (dict_values frequencies) ∈ dict_values frequencies /\
   Forall (fun f => f <= max_int (dict_values frequencies)) (dict_values frequencies)) /\
  (max_int (dict_values frequencies) = 0 ->
   forall (F : Type) (N : Num F),
     Matcher.normalize_frequencies (F := F) frequencies =
       Return ((fun kv => (kv.1, nzero)) <$> frequencies)) /\
  (max_int (dict_values frequencies) <> 0 ->
   forall (F : Type) (N : Num F),
     Matcher.normalize_frequencies (F := F) frequencies =
       Return ((fun kv => (kv.1, nratio kv.2 (max_int (dict_values frequencies))))
                 <$> frequencies)) /\
  (Forall (fun f => 0 <= f) (dict_values frequencies) ->
   Forall (fun kv => (0 <= kv.2 <= 1)%Q) (normalized (F := Q) frequencies)) /\
  (Forall (fun f => 0 <= f < 2 ^ 53) (dict_values frequencies) ->
   Forall (fun kv => PrimFloat.leb 0 kv.2 = true /\ PrimFloat.leb kv.2 1 = true)
          (normalized (F := float) frequencies)).
Proof.
  intros Hwf. repeat apply conj.
  - intros F N. by apply normalize_frequencies_normalized.
  - intros -> F N. done.
  - intros Hne. split.
    + apply max_int_elem. unfold dict_values. by destruct frequencies.
    + apply Forall_forall. intros f Hf. by apply max_int_ge.
  - intros Hmax F N. rewrite normalize_frequencies_normalized by done.
    unfold normalized. by rewrite Hmax.
  - intros Hmax F N. rewrite normalize_frequencies_normalized by done.
    unfold normalized. apply Z.eqb_neq in Hmax. by rewrite Hmax.
  - intros Hpos. unfold normalized. apply Forall_fmap, Forall_forall.
    intros [sku f] Hin. simpl.
    assert (f ∈ dict_values frequencies) as Hf.
    { unfold dict_values. apply list_elem_of_fmap. by exists (sku, f). }
    destruct (max_int (dict_values frequencies) =? 0) eqn:Emax.
    + split; apply Qle_refl || done.
    + apply ratio_in_unit_interval.
      * split; [by eapply Forall_forall in Hpos | by apply max_int_ge].
      * by apply Z.eqb_neq.
  - intros Hpos. unfold normalized. apply Forall_fmap, Forall_forall.
    intros [sku f] Hin. simpl.
    assert (f ∈ dict_values frequencies) as Hf.
    { unfold dict_values. apply list_elem_of_fmap. by exists (sku, f). }
    destruct (max_int (dict_values frequencies) =? 0) eqn:Emax.
    + split; reflexivity.
    + apply Z.eqb_neq in Emax.
      assert (max_int (dict_values frequencies) ∈ dict_values frequencies) as Hmax.
      { apply max_int_elem. intros Hnil. rewrite Hnil in Hf. by apply elem_of_nil in Hf. }
      pose proof (proj1 (Forall_forall _ _) Hpos _ Hmax) as Hm.
      pose proof (proj1 (Forall_forall _ _) Hpos _ Hf) as Hf0.
      cbv beta in Hm, Hf0.
      apply nratio_unit; [|lia].
      split; [lia | by apply max_int_ge].
Qed.

(** The frequencies of the worked example, 5 and 1: the divisor is 5, and
    they normalise to 1 and 1/5, as floats to [1.0] and [0.2]. *)
Lemma C9_normalize_frequencies_witness :
  dict_wf example_history /\
  max_int (dict_values example_history) = 5 /\
  Matcher.normalize_frequencies (F := Q) example_history =
    Return [("SKU-A", 5 / 5); ("SKU-B", 1 / 5)]%Q /\
  Matcher.normalize_frequencies (F := float) example_history =
    Return [("SKU-A", 1); ("SKU-B", 0.2)]%float /\
  Forall (fun kv => (0 <= kv.2 <= 1)%Q) (normalized (F := Q) example_history) /\
  Forall (fun kv => PrimFloat.leb 0 kv.2 = true /\ PrimFloat.leb kv.2 1 = true)
         (normalized (F := float) example_history).
Proof.
  assert (dict_wf example_history) as Hwf.
  { apply (bool_decide_unpack _). vm_compute. exact I. }
  destruct (C9_normalize_frequencies example_history Hwf)
    as (Hn & _ & _ & _ & Hd & Hq & Hf).
  split; [exact Hwf|]. split; [reflexivity|].
  split; [exact (Hd ltac:(discriminate) Q _)|].
  split; [rewrite (Hn float _); vm_compute; reflexivity|].
  split.
  - apply Hq. unfold example_history, dict_values. simpl. repeat constructor; lia.
  - apply Hf. unfold example_history, dict_values. simpl. repeat constructor; lia.
Defined.

(** ** The ranking of [calculate_hybrid_score] *)

Lemma StronglySorted_lookup {A} (R : relation A) (l : list A) (i j : nat) (x y : A) :
  StronglySorted R l -> (i < j)%nat -> l !! i = Some x -> l !! j = Some y -> R x y.
Proof.
  intros Hs. revert i j. induction Hs as [|z l Hs IH Hall]; intros i j Hij Hi Hj.
  - done.
  - destruct j as [|j]; [lia|]. simpl in Hj. destruct i as [|i]; simpl in Hi.
    + injection Hi as ->. eapply Forall_forall in Hall; [done|].
      by eapply list_elem_of_lookup_2.
    + apply (IH i j); [lia|done|done].
Qed.

Lemma slice_to_take {A} (k : Z) (l : list A) : exists n, slice_to k l = take n l.
Proof. unfold slice_to. destruct (0 <=? k); eauto. Qed.

Lemma dict_mem_decide {V} (d : dict V) k : dict_mem d k = bool_decide (k ∈ dict_keys d).
Proof.
  destruct (dict_mem d k) eqn:E; symmetry.
  - apply bool_decide_eq_true. by apply dict_mem_elem.
  - apply bool_decide_eq_false. intros Hin. apply dict_mem_elem in Hin. congruence.
Qed.

Section RankFacts.
Context {F : Type} `{Num F}.

Lemma add_historical_wf hm (nh : dict F) : dict_wf (Matcher.add_historical hm nh).
Proof.
  unfold Matcher.add_historical.
  induction nh as [|kv nh IH] using rev_ind; [apply NoDup_nil_2|].
  rewrite foldl_snoc. by apply dict_wf_set.
Qed.

Lemma add_vector_wf c (sv : string * F) : dict_wf c -> dict_wf (Matcher.add_vector c sv).
Proof. intros Hwf. unfold Matcher.add_vector. destruct (dict_get c sv.1); by apply dict_wf_set. Qed.

Lemma combine_wf hm (nh : dict F) vr : dict_wf (Matcher.combine hm nh vr).
Proof.
  unfold Matcher.combine.
  induction vr as [|sv vr IH] using rev_ind; [apply add_historical_wf|].
  rewrite foldl_snoc. by apply add_vector_wf.
Qed.

Lemma dict_keys_snoc {V} (d : dict V) (kv : string * V) :
  dict_keys (d ++ [kv]) = dict_keys d ++ [kv.1].
Proof. unfold dict_keys. by rewrite fmap_app. Qed.

Lemma add_historical_keys hm (nh : dict F) :
  dict_keys (Matcher.add_historical hm nh) = first_seen (dict_keys nh).
Proof.
  unfold Matcher.add_historical, first_seen.
  induction nh as [|kv nh IH] using rev_ind; [done|].
  rewrite dict_keys_snoc, !foldl_snoc.
  by rewrite dict_keys_set, dict_mem_decide, IH.
Qed.

Lemma add_vector_keys c (sv : string * F) :
  dict_keys (Matcher.add_vector c sv) =
    if bool_decide (sv.1 ∈ dict_keys c) then dict_keys c else dict_keys c ++ [sv.1].
Proof.
  unfold Matcher.add_vector. destruct (dict_get c sv.1);
    by rewrite dict_keys_set, dict_mem_decide.
Qed.

Lemma combine_keys hm (nh : dict F) vr :
  dict_keys (Matcher.combine hm nh vr) = first_seen (dict_keys nh ++ vr.*1).
Proof.
  unfold Matcher.combine, first_seen. rewrite foldl_app.
  fold (first_seen (dict_keys nh)). rewrite <- (add_historical_keys hm).
  induction vr as [|sv vr IH] using rev_ind; [done|].
  rewrite fmap_app. change ([sv].*1) with [sv.1].
  rewrite !foldl_snoc. by rewrite add_vector_keys, IH.
Qed.

(** The ranking keeps, among entries of which the first is not smaller, the
    order of the dict it sorts. *)
Lemma rank_insertion_ties (combined_scores : dict (Matcher.score F)) top_k :
  dict_wf combined_scores ->
  insertion_ties combined_scores (Matcher.rank combined_scores top_k).
Proof.
  intros Hwf i j p q sku1 m1 sku2 m2 Hij Hi Hj Hlt Hp Hq.
  unfold Matcher.rank in Hp, Hq.
  destruct (slice_to_take top_k
              (sorted_desc nltb (fun sm => Matcher.final_score sm.2) combined_scores))
    as [n Hn].
  rewrite Hn in Hp, Hq. clear Hn.
  set (sorted := sorted_desc nltb (fun sm => Matcher.final_score sm.2) combined_scores) in *.
  rewrite list_lookup_fmap in Hp, Hq.
  destruct (take n sorted !! p) as [[s1 x1]|] eqn:Ep; [|done].
  destruct (take n sorted !! q) as [[s2 x2]|] eqn:Eq; [|done].
  simpl in Hp, Hq. injection Hp as -> _ ->. injection Hq as -> _ ->.
  apply lookup_take_Some in Ep as [Ep _]. apply lookup_take_Some in Eq as [Eq _].
  eapply (sublist_pair_lookup sorted); [| |exact Ep|exact Eq].
  - unfold sorted. rewrite sorted_desc_perm. by eapply NoDup_fmap_1.
  - apply sorted_desc_stable; [|done]. by eapply lookup_pair_sublist.
Qed.

(** C4, as the code has it.  When no final score is NaN, the ranking breaks
    ties by the order in which the skus entered [combined_scores], not
    lexically: the sort is stable, so a sku whose final score is not smaller
    than (in particular, is equal to) that of a sku inserted after it stays
    before it; the skus of the history come first in lookup order, then the
    skus first seen in the vector results.  With a NaN final score the order
    of the ranking is left open. *)
Theorem C4_ties_keep_insertion_order {V} (w : Matcher.world F V)
    (req : string) (top_k : Z) (qv : option V) (vr : option (list (string * F)))
    (ranking : list (string * F * Matcher.score F)) :
  numeric_scores w req top_k qv vr ->
  Matcher.calculate_hybrid_score w req top_k qv vr = Return ranking ->
  ranked_by_insertion w req top_k qv vr ranking.
Proof.
  unfold Matcher.calculate_hybrid_score, ranked_by_insertion.
  intros _.
  destruct (Matcher.get_all_historical_mappings w req) as [hm|] eqn:Eh; [|done].
  simpl. destruct (Matcher.normalize_frequencies hm) as [nh|] eqn:En; [|done].
  simpl. intros [= <-]. exists hm, nh. split; [done|]. split; [done|].
  split; [apply combine_keys|]. split; [done|].
  apply rank_insertion_ties, combine_wf.
Qed.

End RankFacts.

Lemma C4_ties_keep_insertion_order_witness :
  numeric_scores tie_world "Test Tube 10ml" 10 None (Some []) /\
  Matcher.calculate_hybrid_score tie_world "Test Tube 10ml" 10 None (Some [])
    = Return tie_ranking /\
  ranked_by_insertion tie_world "Test Tube 10ml" 10 None (Some []) tie_ranking.
Proof.
  assert (numeric_scores tie_world "Test Tube 10ml" 10 None (Some [])) as Hnum.
  { intros hm nh [= <-] [= <-]. vm_compute. repeat constructor. }
  assert (Matcher.calculate_hybrid_score tie_world "Test Tube 10ml" 10 None (Some [])
          = Return tie_ranking) as Hrun by (vm_compute; reflexivity).
  split; [exact Hnum|]. split; [exact Hrun|].
  exact (C4_ties_keep_insertion_order tie_world "Test Tube 10ml" 10 None (Some [])
           tie_ranking Hnum Hrun).
Defined.

(** C4, as the specification states it, fails: with equal final scores the
    code returns SKU-B before SKU-A, the order of the history lookup. *)
Lemma C4_lexical_ties_counterexample :
  Matcher.calculate_hybrid_score tie_world "Test Tube 10ml" 10 None (Some [])
    = Return tie_ranking /\
  ~ lexical_ties tie_ranking.
Proof.
  split; [vm_compute; reflexivity|].
  intros Hlex.
  specialize (Hlex 0%nat 1%nat "SKU-B" _ _ "SKU-A" _ _ (Nat.lt_0_succ 0) eq_refl eq_refl).
  discriminate Hlex. vm_compute. reflexivity.
Qed.

(** ** [search_vectors] *)

Section SearchFacts.
Import Database.

Lemma imap_pair_fst {A} (xs : list A) : (imap pair xs).*1 = seq 0 (length xs).
Proof.
  apply list_eq. intros i. rewrite list_lookup_fmap, list_lookup_imap.
  destruct (xs !! i) as [x|] eqn:E; simpl.
  - symmetry. apply lookup_seq. split; [done|]. by eapply lookup_lt_Some.
  - symmetry. apply lookup_seq_ge. by apply lookup_ge_None.
Qed.

Lemma imap_pair_lookup {A} (xs : list A) i x : xs !! i = Some x -> imap pair xs !! i = Some (i, x).
Proof. intros Hx. by rewrite list_lookup_imap, Hx. Qed.

Lemma imap_pair_elem {A} (xs : list A) i x : (i, x) ∈ imap pair xs -> xs !! i = Some x.
Proof.
  intros [j Hj]%list_elem_of_lookup. rewrite list_lookup_imap in Hj.
  destruct (xs !! j) eqn:E; simplify_eq/=. done.
Qed.

Lemma imap_pair_NoDup {A} (xs : list A) : NoDup (imap pair xs).
Proof. eapply NoDup_fmap_1. rewrite imap_pair_fst. apply NoDup_seq. Qed.

Lemma argsort_perm xs : argsort xs ≡ₚ seq 0 (length xs).
Proof. unfold argsort. by rewrite sorted_asc_perm, imap_pair_fst. Qed.

Lemma argsort_length xs : length (argsort xs) = length xs.
Proof. by rewrite argsort_perm, length_seq. Qed.

Lemma argsort_NoDup xs : NoDup (argsort xs).
Proof. rewrite argsort_perm. apply NoDup_seq. Qed.

Lemma argsort_lt xs i : i ∈ argsort xs -> (i < length xs)%nat.
Proof. rewrite argsort_perm. intros ?%elem_of_seq. lia. Qed.

(** Positions in the reversed argsort. *)
Lemma reverse_argsort_lookup xs p i x :
  reverse (argsort xs) !! p = Some i -> xs !! i = Some x ->
  sorted_asc np_lt snd (imap pair xs) !! (length xs - S p)%nat = Some (i, x) /\
  (p < length xs)%nat.
Proof.
  unfold argsort. intros Hp Hx.
  apply reverse_lookup_Some in Hp as [Hp Hlen].
  rewrite length_fmap in Hp, Hlen.
  assert (length (sorted_asc np_lt snd (imap pair xs)) = length xs) as Hl.
  { by rewrite sorted_asc_perm, length_imap. }
  rewrite Hl in Hp, Hlen. split; [|done].
  rewrite list_lookup_fmap in Hp.
  destruct (sorted_asc np_lt snd (imap pair xs) !! (length xs - S p)%nat)
    as [[j y]|] eqn:E; [|done].
  simpl in Hp. injection Hp as ->.
  assert ((i, y) ∈ imap pair xs) as Hin.
  { rewrite <- (sorted_asc_perm np_lt snd). by eapply list_elem_of_lookup_2. }
  apply imap_pair_elem in Hin. congruence.
Qed.

Lemma reverse_argsort_order xs (p p' i i' : nat) x x' :
  (p < p')%nat ->
  reverse (argsort xs) !! p = Some i ->
  reverse (argsort xs) !! p' = Some i' ->
  xs !! i = Some x ->
  xs !! i' = Some x' ->
  np_lt x x' = false.
Proof.
  intros Hpp Hp Hp' Hx Hx'.
  destruct (reverse_argsort_lookup xs p i x Hp Hx) as [Hs Hlt].
  destruct (reverse_argsort_lookup xs p' i' x' Hp' Hx') as [Hs' Hlt'].
  set (sorted := sorted_asc np_lt snd (imap pair xs)) in *.
  apply (StronglySorted_lookup (fun a b => np_lt b.2 a.2 = false) sorted
           (length xs - S p') (length xs - S p) (i', x') (i, x)); [|lia|done|done].
  apply sorted_asc_sorted; [apply np_lt_asym | apply np_lt_negtrans].
Qed.

Lemma top_indices_take sims k :
  0 <= k -> top_indices sims k = take (Z.to_nat k) (reverse (argsort sims)).
Proof.
  intros Hk. unfold top_indices, slice_to.
  destruct (0 <=? k) eqn:E; [done|]. apply Z.leb_gt in E. lia.
Qed.

Lemma top_indices_lt sims k i : i ∈ top_indices sims k -> (i < length sims)%nat.
Proof.
  unfold top_indices. destruct (slice_to_take k (reverse (argsort sims))) as [n ->].
  intros Hin. apply argsort_lt. apply elem_of_reverse. by eapply subseteq_take.
Qed.

Lemma similarities_Return cache q :
  same_shape cache q = true ->
  exists sims, similarities cache q = Return sims /\ length sims = length cache.
Proof.
  intros Hshape. unfold similarities, matvec. rewrite Hshape. simpl.
  eexists. split; [done|]. rewrite length_zip_with, !length_fmap. lia.
Qed.

Lemma collect_Return g skus sims idxs :
  _item_skus g = Some skus ->
  (forall i, i ∈ idxs -> (i < length skus)%nat /\ (i < length sims)%nat) ->
  exists res,
    collect g sims idxs = Return res /\
    Forall2 (fun i r => skus !! i = Some r.1 /\ sims !! i = Some r.2) idxs res.
Proof.
  intros Hskus Hlt.
  exists ((fun i => (default ""%string (skus !! i), default 0%float (sims !! i))) <$> idxs).
  split.
  - unfold collect. apply mapM_Return. intros i Hi.
    destruct (Hlt i Hi) as [H1 H2].
    apply lookup_lt_is_Some in H1 as [s Hs]. apply lookup_lt_is_Some in H2 as [x Hx].
    unfold sku_at, list_index. rewrite Hskus, Hs. simpl. rewrite Hx. reflexivity.
  - apply Forall2_fmap_r, Forall_Forall2_diag, Forall_forall. intros i Hi.
    destruct (Hlt i Hi) as [H1 H2].
    apply lookup_lt_is_Some in H1 as [s Hs]. apply lookup_lt_is_Some in H2 as [x Hx].
    unfold compose. simpl. by rewrite Hs, Hx.
Qed.

(** C2, as the code has it.  For a loaded snapshot of [n] rows with one sku
    per row, a query of the rows' dimension and [k >= 0], [search_vectors]
    returns [min(k, n)] pairs of distinct rows, each the sku and the
    similarity of its row, never a greater similarity after a smaller one.
    The order is not strict, and the code has no tie-break of its own: rows
    whose similarities tie come as [np.argsort] leaves them, read backwards
    (on two identical rows: the second row first). *)
Theorem C2_search_vectors_order (g : globals) (cache : matrix) (skus : list string)
    (q : vector) (k : Z) :
  _vectors_cache g = Some cache ->
  _item_skus g = Some skus ->
  length skus = length cache ->
  same_shape cache q = true ->
  0 <= k ->
  search_order g cache skus q k.
Proof.
  intros Hcache Hskus Hlen Hshape Hk.
  destruct (similarities_Return cache q Hshape) as (sims & Hsims & Hl).
  exists sims. split; [done|]. split; [done|]. simpl.
  split; [|split; [|split]].
  - rewrite top_indices_take by done.
    rewrite length_take, length_reverse, argsort_length. lia.
  - rewrite top_indices_take by done.
    eapply sublist_NoDup; [|apply sublist_take].
    rewrite reverse_Permutation. apply argsort_NoDup.
  - unfold search_vectors. rewrite Hcache, Hsims. simpl.
    apply collect_Return; [done|]. intros i Hi.
    apply top_indices_lt in Hi. lia.
  - intros p p' i i' x x' Hpp Hp Hp' Hx Hx'.
    rewrite top_indices_take in Hp, Hp' by done.
    apply lookup_take_Some in Hp as [Hp _]. apply lookup_take_Some in Hp' as [Hp' _].
    exact (reverse_argsort_order sims p p' i i' x x' Hpp Hp Hp' Hx Hx').
Qed.

End SearchFacts.

Lemma C2_search_vectors_order_witness :
  Database._vectors_cache twin_rows = Some [[1; 0]; [1; 0]]%float /\
  Database._item_skus twin_rows = Some ["SKU-A"; "SKU-B"] /\
  length ["SKU-A"; "SKU-B"] = length [[1; 0]; [1; 0]]%float /\
  Database.same_shape [[1; 0]; [1; 0]]%float [1; 0]%float = true /\
  0 <= 2 /\
  search_order twin_rows [[1; 0]; [1; 0]]%float ["SKU-A"; "SKU-B"] [1; 0]%float 2.
Proof.
  repeat (split; [reflexivity || lia|]).
  apply C2_search_vectors_order; reflexivity || lia.
Defined.

(** C2, as the specification states it, fails: two identical rows have
    equal similarities, and the code returns the second row first. *)
Lemma C2_search_order_counterexample :
  Database.search_vectors twin_rows [1; 0]%float 2
    = Return [("SKU-B", 1%float); ("SKU-A", 1%float)] /\
  ~ search_order_claim twin_rows [1; 0]%float 2.
Proof.
  split; [vm_compute; reflexivity|].
  intros Hclaim.
  destruct (Hclaim _ eq_refl) as [_ Hord].
  destruct (Hord 0%nat 1%nat 1%nat 0%nat "SKU-B" 1%float "SKU-A" 1%float
              (Nat.lt_0_succ 0) eq_refl eq_refl eq_refl eq_refl) as [Hlt|[_ Hlt]].
  - vm_compute in Hlt. discriminate Hlt.
  - lia.
Qed.

(** ** Zero vectors *)

Section ZeroFacts.
Import Database.
#[local] Open Scope float_scope.

Lemma dot_zeros n : dot (zeros n) (zeros n) = 0.
Proof.
  unfold dot, zeros. induction n as [|n IH]; [done|].
  simpl. exact IH.
Qed.

Lemma norm_zeros n : norm (zeros n) = 0.
Proof. unfold norm. by rewrite dot_zeros. Qed.

Lemma cosine_similarity_zero_r v : cosine_similarity v (zeros (length v)) = Return 0.
Proof.
  unfold cosine_similarity, zeros. rewrite length_replicate, Nat.eqb_refl. simpl.
  fold (zeros (length v)). rewrite norm_zeros.
  change (PrimFloat.eqb 0 0) with true. by rewrite orb_true_r.
Qed.

Lemma cosine_similarity_zero_l v : cosine_similarity (zeros (length v)) v = Return 0.
Proof.
  unfold cosine_similarity, zeros. rewrite length_replicate, Nat.eqb_refl. simpl.
  fold (zeros (length v)). rewrite norm_zeros. done.
Qed.

End ZeroFacts.

(** C5.  [cosine_similarity] is guarded: against the zero vector, in either
    operand, it returns [0.0].  [search_vectors] is not: for the zero query,
    and for a row of zero norm, it divides zero by zero and returns NaN as
    the similarity, where [search_vectors_batch] on the same inputs returns
    [0.0]. *)
Theorem C5_zero_vector_similarity :
  (forall v : Database.vector,
     Database.cosine_similarity v (zeros (length v)) = Return 0%float /\
     Database.cosine_similarity (zeros (length v)) v = Return 0%float) /\
  Database.search_vectors one_row (zeros 2) 1 = Return [("SKU-A", nan)] /\
  Database.search_vectors zero_row [1; 0]%float 1 = Return [("SKU-A", nan)] /\
  Database.search_vectors_batch one_row [zeros 2] 1 = Return [[("SKU-A", 0%float)]] /\
  Database.search_vectors_batch zero_row [[1; 0]%float] 1 = Return [[("SKU-A", 0%float)]].
Proof.
  split; [|repeat split; vm_compute; reflexivity].
  intros v. split; [apply cosine_similarity_zero_r | apply cosine_similarity_zero_l].
Qed.

(** C3.  The batch search and the single search differ on the zero query:
    the batch path replaces a zero norm by [1e-10] and returns the similarity
    [0.0], the single path divides by the zero norm and returns NaN, which
    no tolerance makes equal to [0.0].  On a query of norm one they agree. *)
Theorem C3_batch_differs_on_zero_query :
  Database.search_vectors_batch one_row [zeros 2; [1; 0]%float] 1
    = Return [[("SKU-A", 0%float)]; [("SKU-A", 1%float)]] /\
  Database.search_vectors one_row (zeros 2) 1 = Return [("SKU-A", nan)] /\
  Database.search_vectors one_row [1; 0]%float 1 = Return [("SKU-A", 1%float)] /\
  PrimFloat.eqb nan 0 = false /\
  close nan 0 = false.
Proof. repeat split; vm_compute; reflexivity. Qed.

(** C10.  While [_vectors_cache] is [None], as it is before any load and
    after a load that found no cache file, the three readers raise
    [RuntimeError] for every input.  A load that fails on a cache file in the
    old format has already assigned [_vectors_cache]: afterwards
    [get_vectors] returns the vectors with no skus and no names, and both
    searches raise [TypeError] instead. *)
Theorem C10_unloaded_snapshot :
  (forall (g : Database.globals) (q : Database.vector) (qs : Database.matrix) (k : Z),
     Database._vectors_cache g = None ->
     Database.get_vectors g = Raise RuntimeError /\
     Database.search_vectors g q k = Raise RuntimeError /\
     Database.search_vectors_batch g qs k = Raise RuntimeError) /\
  Database._vectors_cache Database.initial = None /\
  Database.load_vectors_to_memory Database.Missing Database.initial
    = (Database.initial, Return ()) /\
  (exists g,
     Database.load_vectors_to_memory old_format Database.initial = (g, Raise ValueError) /\
     Database.get_vectors g = Return ([[1; 0]]%float, None, None) /\
     Database.search_vectors g [1; 0]%float 1 = Raise TypeError /\
     Database.search_vectors_batch g [[1; 0]%float] 1 = Raise TypeError).
Proof.
  split; [|split; [done|split; [done|]]].
  - intros g q qs k Hnone.
    unfold Database.get_vectors, Database.search_vectors, Database.search_vectors_batch.
    by rewrite Hnone.
  - eexists. split; [reflexivity|]. repeat split; vm_compute; reflexivity.
Qed.

(** ** Batches *)

Section ChunkFacts.
Context {A : Type}.
Implicit Types l : list A.

Lemma ceil_div_lt (n b j : nat) : (0 < b)%nat -> (j < (n + b - 1) / b)%nat <-> (j * b < n)%nat.
Proof.
  intros Hb.
  pose proof (Nat.div_mod_eq (n + b - 1) b) as Hdm.
  pose proof (Nat.mod_upper_bound (n + b - 1) b ltac:(lia)) as Hmod.
  split; intros Hj; nia.
Qed.

Lemma range_step_length (n b : nat) : length (range_step n b) = ((n + b - 1) / b)%nat.
Proof. unfold range_step. by rewrite length_fmap, length_seq. Qed.

Lemma range_step_lookup (n b j : nat) :
  (0 < b)%nat -> (j * b < n)%nat -> range_step n b !! j = Some (j * b)%nat.
Proof.
  intros Hb Hj. unfold range_step. rewrite list_lookup_fmap.
  rewrite (proj2 (lookup_seq 0 _ j j)); [done|].
  split; [done|]. by apply ceil_div_lt.
Qed.

Lemma slice_length l (i b : nat) : length (slice i (i + b) l) = Nat.min b (length l - i).
Proof. unfold slice. rewrite length_take, length_drop. f_equal. lia. Qed.

Lemma slice_lookup l (i b o : nat) :
  (o < b)%nat -> slice i (i + b) l !! o = l !! (i + o)%nat.
Proof.
  intros Ho. unfold slice. rewrite lookup_take_lt by lia. apply lookup_drop.
Qed.

Lemma chunks_take l (b m : nat) :
  concat ((fun i => slice i (i + b) l) <$> ((fun j => j * b)%nat <$> seq 0 m)) = take (m * b) l.
Proof.
  induction m as [|m IH]; [done|].
  rewrite seq_S, !fmap_app, concat_app, IH. simpl. rewrite app_nil_r.
  unfold slice. replace (m * b + b - m * b)%nat with b by lia.
  rewrite take_take_drop. f_equal. lia.
Qed.

(** The batches of [range(0, len(l), b)] partition [l]. *)
Lemma chunks_concat l (b : nat) :
  (0 < b)%nat -> concat ((fun i => slice i (i + b) l) <$> range_step (length l) b) = l.
Proof.
  intros Hb. unfold range_step. rewrite chunks_take. apply take_ge.
  pose proof (Nat.div_mod_eq (length l + b - 1) b) as Hdm.
  pose proof (Nat.mod_upper_bound (length l + b - 1) b ltac:(lia)) as Hmod.
  nia.
Qed.

(** Each batch is not empty and has at most [b] items. *)
Lemma chunks_bounds l (b : nat) :
  (0 < b)%nat ->
  Forall (fun c => 0 < length c <= b)%nat
         ((fun i => slice i (i + b) l) <$> range_step (length l) b).
Proof.
  intros Hb. apply Forall_fmap, Forall_forall. intros i Hi. simpl.
  unfold range_step in Hi. apply list_elem_of_fmap in Hi as (j & -> & Hj).
  apply elem_of_seq in Hj as [_ Hj]. simpl in Hj.
  apply ceil_div_lt in Hj; [|done]. rewrite slice_length. lia.
Qed.

(** A batch before a batch that is not empty is full. *)
Lemma chunk_full l (b j j' : nat) :
  (j' < j)%nat -> (j * b < length l)%nat ->
  length (slice (j' * b) (j' * b + b) l) = b.
Proof. intros Hjj Hj. rewrite slice_length. nia. Qed.

End ChunkFacts.

(** Positions in a concatenation whose parts before [j] all have length [b]. *)
Lemma concat_lookup_uniform {A} (parts : list (list A)) (b j o : nat) (part : list A) :
  (forall j' p, (j' < j)%nat -> parts !! j' = Some p -> length p = b) ->
  parts !! j = Some part ->
  (o < length part)%nat ->
  concat parts !! (j * b + o)%nat = part !! o.
Proof.
  revert j. induction parts as [|p0 parts IH]; intros j Hfull Hj Ho; [done|].
  destruct j as [|j]; simpl in *.
  - injection Hj as ->. by rewrite lookup_app_l.
  - assert (length p0 = b) as Hp0 by (apply (Hfull 0%nat); [lia|done]).
    rewrite lookup_app_r by lia.
    replace (b + j * b + o - length p0)%nat with (j * b + o)%nat by lia.
    apply IH; [|done|done].
    intros j' p Hj' Hp. apply (Hfull (S j')); [lia|done].
Qed.

(** ** [generate_embeddings_batch] *)

Lemma StronglySorted_seq (s n : nat) : StronglySorted le (seq s n).
Proof.
  revert s. induction n as [|n IH]; intros s; simpl; constructor; [apply IH|].
  apply Forall_forall. intros x Hx. apply elem_of_seq in Hx. lia.
Qed.

Lemma NoDup_fmap_elem_inj {A B} (f : A -> B) (l : list A) (x y : A) :
  NoDup (f <$> l) -> x ∈ l -> y ∈ l -> f x = f y -> x = y.
Proof.
  induction l as [|a l IH]; csimpl; intros Hnd Hx Hy Hf.
  - by apply elem_of_nil in Hx.
  - apply NoDup_cons in Hnd as [Hnin Hnd].
    apply elem_of_cons in Hx as [->|Hx]; apply elem_of_cons in Hy as [->|Hy].
    + done.
    + exfalso. apply Hnin. rewrite Hf. by apply list_elem_of_fmap_2.
    + exfalso. apply Hnin. rewrite <- Hf. by apply list_elem_of_fmap_2.
    + by apply IH.
Qed.

Lemma length_concat_fmap {A B} (f : list A -> list B) (ls : list (list A)) :
  (forall x, x ∈ ls -> length (f x) = length x) ->
  length (concat (f <$> ls)) = length (concat ls).
Proof.
  induction ls as [|x ls IH]; intros Hf; csimpl; [done|].
  rewrite !length_app, IH, Hf; [done|apply list_elem_of_here|].
  intros y Hy. apply Hf. by apply list_elem_of_further.
Qed.

Section EmbeddingFacts.
Context {E : Type} (BATCH_SIZE : Z)
        (post : list string -> option (list (Matcher.response_item E))).

Lemma embed_loop texts offsets acc :
  foldl (Matcher.embed_step BATCH_SIZE post texts) acc offsets =
    (acc.1 ++ ((fun i => slice i (i + Z.to_nat BATCH_SIZE) texts) <$> offsets),
     acc.2 ++ concat (part post <$> ((fun i => slice i (i + Z.to_nat BATCH_SIZE) texts)
                                  <$> offsets))).
Proof.
  revert acc. induction offsets as [|i offsets IH]; intros [log out]; csimpl.
  - by rewrite !app_nil_r.
  - rewrite IH. unfold Matcher.embed_step, part. simpl.
    by rewrite <- !app_assoc.
Qed.

(** Sorting a well-formed response by index puts the item with index [o] at
    position [o]. *)
Lemma sorted_by_index (data : list (Matcher.response_item E)) (n o : nat) :
  Matcher.index <$> data ≡ₚ Z.of_nat <$> seq 0 n ->
  (o < n)%nat ->
  exists item,
    sorted_asc Z.ltb Matcher.index data !! o = Some item /\
    by_index data o = Some (Matcher.embedding item).
Proof.
  intros Hperm Ho.
  set (sorted := sorted_asc Z.ltb Matcher.index data).
  assert (Matcher.index <$> sorted = Z.of_nat <$> seq 0 n) as Hidx.
  { apply (StronglySorted_unique Z.le).
    - eapply StronglySorted_fmap; [|apply sorted_asc_sorted].
      + intros x y Hxy. simpl in Hxy. apply Z.ltb_ge in Hxy. exact Hxy.
      + intros x y Hxy. apply Z.ltb_lt in Hxy. apply Z.ltb_ge. lia.
      + intros x y z Hxy Hyz. apply Z.ltb_ge in Hxy, Hyz. apply Z.ltb_ge. lia.
    - eapply StronglySorted_fmap; [|apply (StronglySorted_seq 0 n)].
      intros x y Hxy. simpl in Hxy. lia.
    - unfold sorted. by rewrite sorted_asc_perm. }
  assert (exists item, sorted !! o = Some item /\ Matcher.index item = Z.of_nat o)
    as (item & Hitem & Hio).
  { assert ((Matcher.index <$> sorted) !! o = Some (Z.of_nat o)) as Hl.
    { rewrite Hidx, list_lookup_fmap.
      by rewrite (proj2 (lookup_seq 0 n o o) (conj eq_refl Ho)). }
    rewrite list_lookup_fmap in Hl.
    destruct (sorted !! o) as [item|]; [|done]. exists item. split; [done|].
    by injection Hl. }
  exists item. split; [done|]. unfold by_index.
  assert (item ∈ data) as Hin.
  { rewrite <- (sorted_asc_perm Z.ltb Matcher.index). by eapply list_elem_of_lookup_2. }
  destruct (List.find (fun it => Matcher.index it =? Z.of_nat o) data) as [item'|] eqn:Ef.
  - apply find_some in Ef as [Hin' Heq]. apply Z.eqb_eq in Heq. simpl. f_equal. f_equal.
    apply (NoDup_fmap_elem_inj Matcher.index data).
    + rewrite Hperm. apply NoDup_fmap_2; [|apply NoDup_seq]. intros ?? ?. lia.
    + by apply list_elem_of_In.
    + done.
    + congruence.
  - exfalso. pose proof (find_none _ _ Ef item) as Hnone. simpl in Hnone.
    rewrite Hio, Z.eqb_refl in Hnone. apply list_elem_of_In in Hin.
    by specialize (Hnone Hin).
Qed.

End EmbeddingFacts.

Section EmbeddingAligned.
Context {E : Type} (BATCH_SIZE : Z)
        (post : list string -> option (list (Matcher.response_item E))).
Hypothesis post_wf : well_formed post.

Lemma part_length batch : length (part post batch) = length batch.
Proof.
  unfold part. destruct (post batch) as [data|] eqn:Ep.
  - rewrite length_fmap, sorted_asc_perm.
    rewrite <- (length_fmap Matcher.index), (post_wf batch data Ep).
    by rewrite length_fmap, length_seq.
  - apply length_replicate.
Qed.

Lemma part_lookup batch o text :
  batch !! o = Some text -> part post batch !! o = Some (expected_entry post batch o).
Proof.
  intros Ho. apply lookup_lt_Some in Ho.
  unfold part, expected_entry. destruct (post batch) as [data|] eqn:Ep.
  - destruct (sorted_by_index data (length batch) o (post_wf batch data Ep) Ho)
      as (item & Hitem & Hby).
    by rewrite list_lookup_fmap, Hitem, Hby.
  - by apply lookup_replicate_2.
Qed.

End EmbeddingAligned.

Lemma flaky_post_wf : well_formed flaky_post.
Proof.
  intros batch data. unfold flaky_post.
  destruct (Nat.eqb (length batch) 1); [done|]. intros [= <-].
  rewrite fmap_reverse, reverse_Permutation.
  match goal with |- ?l ≡ₚ ?k => assert (l = k) as ->; [|done] end.
  apply list_eq. intros i.
  rewrite !list_lookup_fmap, list_lookup_imap.
  destruct (batch !! i) as [text|] eqn:Ei; simpl.
  - by rewrite (proj2 (lookup_seq 0 _ i i) (conj eq_refl (lookup_lt_Some _ _ _ Ei))).
  - apply lookup_ge_None in Ei. by rewrite lookup_seq_ge.
Qed.



(** ** The counters of an ingestion run *)

Section IngestionFacts.
Import GenerateVectors.
Context {E : Type}.

Lemma count_updates_sum (w : batch_world E) pairs s f :
  let r := count_updates w pairs s f in
  (r.1 + r.2 = s + f + length pairs)%nat.
Proof.
  revert s f. induction pairs as [|[sku [e|]] pairs IH]; intros s f; simpl.
  - lia.
  - destruct (update_vector w sku 5); rewrite IH; simpl; lia.
  - rewrite IH. simpl. lia.
Qed.

(** A worker that reports adds the size of its batch to the counters. *)
Lemma process_batch_worker_reports (w : batch_world E) batch_items c :
  reports w batch_items ->
  let c' := (process_batch_worker w batch_items c).1 in
  (success_counter c' + failed_counter c' =
   success_counter c + failed_counter c + length batch_items)%nat.
Proof.
  intros (Hconn & Hclient & Hcommit & Hdata).
  assert (commit_batch w = Return ()) as Hret.
  { unfold commit_batch, rollback_then.
    destruct Hcommit as [->|[[-> ->]|[Hne ->]]]; [done|done|].
    destruct (first_commit w); try done. by destruct (retry_commit w). }
  unfold process_batch_worker, worker_body. rewrite Hconn, Hclient, Hret. simpl.
  set (embeddings := generate_embeddings_batch w batch_items.*2).
  assert (length embeddings = length batch_items) as Hlen.
  { unfold embeddings, generate_embeddings_batch.
    destruct (service w batch_items.*2) as [data|] eqn:Es.
    - rewrite length_fmap. by apply Hdata.
    - by rewrite length_replicate, length_fmap. }
  pose proof (count_updates_sum w (zip batch_items.*1 embeddings) 0 0) as Hsum.
  rewrite length_zip, length_fmap, Hlen in Hsum. simpl in Hsum.
  destruct (count_updates w (zip batch_items.*1 embeddings) 0 0) as [s f].
  simpl in Hsum. simpl. lia.
Qed.

Lemma run_pool_reports (worlds : nat -> batch_world E) todo n c :
  (forall i batch, todo !! i = Some batch -> reports (worlds (n + i)%nat) batch) ->
  let c' := run_pool worlds n todo c in
  (success_counter c' + failed_counter c' =
   success_counter c + failed_counter c + length (concat todo))%nat.
Proof.
  revert n c. induction todo as [|batch todo IH]; intros n c Hall; simpl; [lia|].
  rewrite IH.
  - rewrite process_batch_worker_reports.
    + rewrite length_app. lia.
    + specialize (Hall 0%nat batch eq_refl). by rewrite Nat.add_0_r in Hall.
  - intros i b Hi. specialize (Hall (S i) b Hi).
    by replace (n + S i)%nat with (S n + i)%nat in Hall by lia.
Qed.

End IngestionFacts.

(** C6.  The counters of a run add up to the number of items only when every
    worker gets as far as adding its counts.  A worker whose client cannot be
    constructed, or whose commit raises something other than an
    [OperationalError], returns [(0, len(batch))] without touching the
    counters: a run of one item then ends with [0 + 0], and a run of three
    items in batches of two whose second batch fails so ends with [2 + 0]. *)
Theorem C6_counters_miss_failed_batches :
  (forall c : GenerateVectors.counters,
     GenerateVectors.process_batch_worker client_fails [("SKU-A", "Beaker")] c
       = (c, Return (0%nat, 1%nat))) /\
  GenerateVectors.main (Some "key") true 100 5 (fun _ => client_fails)
      [("SKU-A", "Beaker")] fresh
    = ({| GenerateVectors.success_counter := 0; GenerateVectors.failed_counter := 0 |},
       Return ()) /\
  GenerateVectors.main (Some "key") true 2 5
      (fun n => if Nat.eqb n 0 then healthy else commit_fails) three_items fresh
    = ({| GenerateVectors.success_counter := 2; GenerateVectors.failed_counter := 0 |},
       Return ()) /\
  GenerateVectors.main (Some "key") true 2 5 (fun _ => healthy) three_items fresh
    = ({| GenerateVectors.success_counter := 3; GenerateVectors.failed_counter := 0 |},
       Return ()).
Proof. repeat split; vm_compute; reflexivity. Qed.

(** ** [get_suggestions] *)

Section SuggestionFacts.
Context {F : Type} `{Num F} {V : Type} (w : Matcher.world F V).

Lemma get_suggestions_returns req top_k qv vr skip cache :
  exists suggestions,
    Matcher.get_suggestions w req top_k qv vr skip cache = Return suggestions.
Proof.
  unfold Matcher.get_suggestions, try_except.
  destruct (_ ≫= _) as [suggestions|e]; eauto.
Qed.

Lemma dict_set_Forall {U} (P : string * U -> Prop) (d : dict U) k v :
  P (k, v) -> Forall P d -> Forall P (dict_set k v d).
Proof.
  intros Hv. induction 1 as [|[k' v'] d Hx Hd IH]; simpl.
  - by repeat constructor.
  - destruct (String.eqb k' k); constructor; done.
Qed.

Lemma add_historical_vector_score hm (nh : dict F) :
  Forall (fun sm => Matcher.vector_score sm.2 = nzero) (Matcher.add_historical hm nh).
Proof.
  unfold Matcher.add_historical.
  induction nh as [|kv nh IH] using rev_ind; [constructor|].
  rewrite foldl_snoc. by apply dict_set_Forall.
Qed.

Lemma rank_elem (combined_scores : dict (Matcher.score F)) top_k sku f m :
  (sku, f, m) ∈ Matcher.rank combined_scores top_k -> (sku, m) ∈ combined_scores.
Proof.
  unfold Matcher.rank. intros Hin.
  apply list_elem_of_fmap in Hin as ([sku' m'] & [= -> _ ->] & Hin).
  destruct (slice_to_take top_k
              (sorted_desc nltb (fun sm => Matcher.final_score sm.2) combined_scores))
    as [n Hn].
  rewrite Hn in Hin. apply subseteq_take in Hin.
  by rewrite sorted_desc_perm in Hin.
Qed.

Lemma suggest_elem skip cache results suggestions s :
  Matcher.suggest w skip cache results = Return suggestions ->
  s ∈ suggestions ->
  exists sku f m, (sku, f, m) ∈ results /\ Matcher.s_vector_score s = Matcher.vector_score m.
Proof.
  revert suggestions. induction results as [|[[sku f] m] results IH]; intros suggestions.
  - simpl. intros [= <-] Hin. by apply elem_of_nil in Hin.
  - simpl.
    destruct (match cache with
              | Some c => Return (dict_get c sku)
              | None => if skip then Return None else Matcher.get_item_by_sku w sku
              end) as [item|e]; simpl; [|done].
    destruct (negb skip && negb (match cache with Some _ => true | None => false end)
              && Matcher.falsy item).
    + intros Hrest Hin. destruct (IH _ Hrest Hin) as (sku' & f' & m' & Hin' & Hs).
      exists sku', f', m'. split; [by apply list_elem_of_further|done].
    + destruct (Matcher.suggest w skip cache results) as [rest|e]; simpl; [|done].
      intros [= <-] Hin. apply elem_of_cons in Hin as [->|Hin].
      * exists sku, f, m. split; [apply list_elem_of_here|done].
      * destruct (IH _ eq_refl Hin) as (sku' & f' & m' & Hin' & Hs).
        exists sku', f', m'. split; [by apply list_elem_of_further|done].
Qed.

(** Without vector results the suggestions carry the vector score [0.0]. *)
Lemma get_suggestions_history_only req top_k qv skip cache :
  history_only (Matcher.get_suggestions w req top_k qv (Some []) skip cache).
Proof.
  intros suggestions s Hret Hin.
  unfold Matcher.get_suggestions, try_except, Matcher.calculate_hybrid_score in Hret.
  destruct (Matcher.get_all_historical_mappings w req) as [hm|e]; simpl in Hret;
    [|injection Hret as <-; by apply elem_of_nil in Hin].
  destruct (Matcher.normalize_frequencies hm) as [nh|e]; simpl in Hret;
    [|injection Hret as <-; by apply elem_of_nil in Hin].
  destruct (Matcher.suggest w skip cache _) as [l|e] eqn:Es;
    [|injection Hret as <-; by apply elem_of_nil in Hin].
  injection Hret as <-.
  destruct (suggest_elem _ _ _ _ _ Es Hin) as (sku & f & m & Hm & ->).
  apply rank_elem in Hm. unfold Matcher.combine in Hm. simpl in Hm.
  pose proof (add_historical_vector_score hm nh) as Hall.
  rewrite Forall_forall in Hall. exact (Hall _ Hm).
Qed.

Lemma embedding_failure_degrades req top_k skip cache e :
  Matcher.generate_embedding w req = Raise e ->
  degrades_to_history w req top_k None skip cache.
Proof.
  intros Hemb.
  assert (Matcher.get_suggestions w req top_k None None skip cache
          = Matcher.get_suggestions w req top_k None (Some []) skip cache) as Heq.
  { unfold Matcher.get_suggestions, Matcher.calculate_hybrid_score,
      Matcher.step_embedding, Matcher.step_vector_results. by rewrite Hemb. }
  split; [done|]. rewrite Heq. apply get_suggestions_history_only.
Qed.

Lemma search_failure_degrades req top_k v skip cache e :
  Matcher.search_vectors w v (top_k * 2) = Raise e ->
  degrades_to_history w req top_k (Some v) skip cache.
Proof.
  intros Hsearch.
  assert (Matcher.get_suggestions w req top_k (Some v) None skip cache
          = Matcher.get_suggestions w req top_k (Some v) (Some []) skip cache) as Heq.
  { unfold Matcher.get_suggestions, Matcher.calculate_hybrid_score,
      Matcher.step_embedding, Matcher.step_vector_results. by rewrite Hsearch. }
  split; [done|]. rewrite Heq. apply get_suggestions_history_only.
Qed.

Lemma no_match_returns_empty req top_k qv skip cache :
  Matcher.get_all_historical_mappings w req = Return [] ->
  Matcher.get_suggestions w req top_k qv (Some []) skip cache = Return [].
Proof.
  intros Hh. unfold Matcher.get_suggestions, Matcher.calculate_hybrid_score.
  rewrite Hh. simpl. unfold Matcher.rank, slice_to. simpl.
  destruct (0 <=? top_k); [by rewrite take_nil|done].
Qed.

End SuggestionFacts.



(** ** Mapping over a list, and the dot product *)

Lemma mapM_fmap {A B C} (f : B -> outcome C) (g : A -> B) (l : list A) :
  mapM f (g <$> l) = mapM (fun x => f (g x)) l.
Proof.
  induction l as [|x l IH]; [done|]. csimpl.
  destruct (f (g x)) as [y|e]; simpl; [|done].
  change (mapM f (g <$> l) ≫= (fun k => mret (y :: k))
          = mapM (fun x => f (g x)) l ≫= (fun k => mret (y :: k))).
  by rewrite IH.
Qed.

Section BatchFacts.
Import Database.
#[local] Open Scope float_scope.

Lemma float_mul_comm (x y : float) : x * y = y * x.
Proof.
  apply Prim2SF_inj. rewrite !mul_spec. unfold SF64mul, SFmul.
  destruct (Prim2SF x) as [sx|sx| |sx mx ex], (Prim2SF y) as [sy|sy| |sy my ey];
    try reflexivity; try (rewrite (xorb_comm sx sy); reflexivity).
  rewrite (xorb_comm sx sy), (Pos.mul_comm mx my), (Z.add_comm ex ey). reflexivity.
Qed.

Lemma dot_comm (u v : vector) : dot u v = dot v u.
Proof.
  unfold dot. generalize 0. revert v.
  induction u as [|x u IH]; intros [|y v] acc; simpl; try done.
  rewrite (float_mul_comm x y). apply IH.
Qed.

End BatchFacts.


Lemma healthy_reports (batch_items : list (string * string)) : reports healthy batch_items.
Proof.
  split; [done|]. split; [done|]. split; [by left|].
  intros data [= <-]. by rewrite length_fmap.
Qed.


(** ** [update_vector] *)

Section UpdateFacts.
Import GenerateVectors.

Lemma update_vector_loop_spec (run : nat -> attempt) (retries start n : nat) :
  (start + n <= retries)%nat ->
  update_vector_loop run retries (seq start n) = true <->
  exists a, (start <= a < start + n)%nat /\ run a = Executed /\
            forall b, (start <= b < a)%nat -> run b = Locked.
Proof.
  revert start. induction n as [|n IH]; intros start Hle; simpl.
  - split; [done|]. intros (a & Ha & _). lia.
  - destruct (run start) eqn:Er.
    + split; [|done]. intros _. exists start. split; [lia|]. split; [done|]. intros b Hb. lia.
    + destruct (Nat.ltb_spec start (retries - 1)) as [Hlt|Hge].
      * rewrite IH by lia. split.
        -- intros (a & Ha & Hex & Hlocked). exists a. split; [lia|]. split; [done|].
           intros b Hb. destruct (decide (b = start)) as [->|Hne]; [done|].
           apply Hlocked. lia.
        -- intros (a & Ha & Hex & Hlocked). exists a.
           assert (a <> start) by congruence.
           split; [lia|]. split; [done|]. intros b Hb. apply Hlocked. lia.
      * split; [done|]. intros (a & Ha & Hex & _).
        assert (a = start) as -> by lia. congruence.
    + split; [done|]. intros (a & Ha & Hex & Hlocked).
      destruct (decide (a = start)) as [->|Hne]; [congruence|].
      specialize (Hlocked start). rewrite Er in Hlocked. discriminate Hlocked. lia.
    + split; [done|]. intros (a & Ha & Hex & Hlocked).
      destruct (decide (a = start)) as [->|Hne]; [congruence|].
      specialize (Hlocked start). rewrite Er in Hlocked. discriminate Hlocked. lia.
Qed.

End UpdateFacts.

(** X3.  [update_vector] returns [True] exactly when one of its first
    [retries] attempts executes the update and every attempt before it found
    the database locked: a lock is retried, any other error ends the loop at
    once, and a lock at the last attempt is final. *)
Theorem X3_update_vector_retries {E : Type} (w : GenerateVectors.batch_world E)
    (sku : string) (retries : nat) :
  GenerateVectors.update_vector w sku retries = true <->
  exists attempt_no,
    (attempt_no < retries)%nat /\
    GenerateVectors.execute w sku attempt_no = GenerateVectors.Executed /\
    forall earlier, (earlier < attempt_no)%nat ->
      GenerateVectors.execute w sku earlier = GenerateVectors.Locked.
Proof.
  unfold GenerateVectors.update_vector.
  rewrite (update_vector_loop_spec _ retries 0 retries) by lia.
  split; intros (a & Ha & Hex & Hlocked); exists a; (split; [lia|]); (split; [done|]);
    intros b Hb; apply Hlocked; lia.
Qed.

(** ** The counters of an ingestion run, whatever the workers meet *)

Section CounterBounds.
Import GenerateVectors.
Context {E : Type}.

Lemma process_batch_worker_bound (w : batch_world E) batch_items c :
  let c' := (process_batch_worker w batch_items c).1 in
  (success_counter c' + failed_counter c' <=
   success_counter c + failed_counter c + length batch_items)%nat.
Proof.
  unfold process_batch_worker.
  destruct (connects w); [|simpl; lia].
  destruct (worker_body w batch_items) as [[s f]|e] eqn:Ew; [|simpl; lia].
  unfold worker_body in Ew.
  destruct (client_starts w); [|done].
  destruct (commit_batch w); [|done].
  simpl in Ew. injection Ew as Ew.
  pose proof (count_updates_sum w
    (zip batch_items.*1 (generate_embeddings_batch w batch_items.*2)) 0 0) as Hsum.
  rewrite Ew in Hsum. simpl in Hsum.
  rewrite length_zip, length_fmap in Hsum. simpl. lia.
Qed.

Lemma run_pool_bound (worlds : nat -> batch_world E) todo n c :
  let c' := run_pool worlds n todo c in
  (success_counter c' + failed_counter c' <=
   success_counter c + failed_counter c + length (concat todo))%nat.
Proof.
  revert n c. induction todo as [|batch todo IH]; intros n c; simpl; [lia|].
  etransitivity; [apply IH|].
  pose proof (process_batch_worker_bound (worlds n) batch c) as Hb. simpl in Hb.
  rewrite length_app. lia.
Qed.

End CounterBounds.

(** X4.  Started with its counters at zero, [main] never counts more than
    there are items: whatever the key, the connection, the batch size, the
    number of workers and the fate of each worker,
    [success_counter + failed_counter] is at most [len(items)] when it ends.
    (A worker that fails as a whole adds nothing, which is why the sum can
    fall short.) *)
Theorem X4_counters_never_exceed {E : Type} (api_key : option string) (connects : bool)
    (BATCH_SIZE NUM_WORKERS : Z) (worlds : nat -> GenerateVectors.batch_world E)
    (items : list (string * string)) :
  let c' := (GenerateVectors.main api_key connects BATCH_SIZE NUM_WORKERS worlds items
               fresh).1 in
  (GenerateVectors.success_counter c' + GenerateVectors.failed_counter c'
   <= length items)%nat.
Proof.
  unfold GenerateVectors.main.
  destruct api_key as [key|]; [|simpl; lia].
  destruct connects; [|simpl; lia]. simpl.
  destruct items as [|item items]; [simpl; lia|].
  set (all := item :: items).
  destruct (BATCH_SIZE =? 0) eqn:E0; [simpl; lia|].
  destruct (NUM_WORKERS <=? 0); [simpl; lia|].
  destruct (BATCH_SIZE <? 0) eqn:E1; [simpl; lia|].
  apply Z.eqb_neq in E0. apply Z.ltb_ge in E1.
  cbv zeta. unfold fst at 1 2.
  etransitivity; [apply run_pool_bound|].
  unfold GenerateVectors.batches. rewrite chunks_concat by lia. simpl. lia.
Qed.

(** ** [cosine_similarity] *)

(** X5.  [cosine_similarity] does not depend on the order of its arguments:
    the length check, the dot product, the product of the norms and the
    zero-norm guard are all symmetric, so both orders raise alike or return
    the same float. *)
Theorem X5_cosine_similarity_symmetric (vec1 vec2 : Database.vector) :
  Database.cosine_similarity vec1 vec2 = Database.cosine_similarity vec2 vec1.
Proof.
  unfold Database.cosine_similarity.
  rewrite (Nat.eqb_sym (length vec2) (length vec1)).
  destruct (negb (length vec1 =? length vec2)%nat); [done|].
  rewrite (dot_comm vec2 vec1), (float_mul_comm (Database.norm vec2) (Database.norm vec1)).
  by rewrite (orb_comm (PrimFloat.eqb (Database.norm vec2) 0)).
Qed.

(** ** The shape of the results of [search_vectors_batch] *)

Lemma mapM_Forall2 {A B} (f : A -> outcome B) (P : A -> B -> Prop) (l : list A) :
  (forall x, x ∈ l -> exists y, f x = Return y /\ P x y) ->
  exists ys, mapM f l = Return ys /\ Forall2 P l ys.
Proof.
  induction l as [|x l IH]; intros Hf.
  - exists []. by split.
  - destruct (Hf x) as (y & Hy & Hp); [apply list_elem_of_here|].
    destruct IH as (ys & Hys & Hall).
    { intros z Hz. apply Hf. by apply list_elem_of_further. }
    exists (y :: ys). split; [|by constructor].
    csimpl. rewrite Hy. simpl.
    change (mapM f l ≫= (fun k => mret (y :: k)) = Return (y :: ys)).
    by rewrite Hys.
Qed.

Section BatchShape.
Import Database.

Lemma top_indices_length sims k :
  0 <= k -> length (top_indices sims k) = Nat.min (Z.to_nat k) (length sims).
Proof.
  intros Hk. by rewrite top_indices_take, length_take, length_reverse, argsort_length.
Qed.

Lemma top_indices_NoDup sims k : NoDup (top_indices sims k).
Proof.
  unfold top_indices. destruct (slice_to_take k (reverse (argsort sims))) as [n ->].
  eapply sublist_NoDup; [|apply sublist_take].
  rewrite reverse_Permutation. apply argsort_NoDup.
Qed.

(** The rows that [indices] select carry distinct skus when the skus are
    distinct. *)
Lemma selected_NoDup (skus : list string) (indices : list nat) (selected : list string) :
  NoDup skus -> NoDup indices ->
  Forall2 (fun i s => skus !! i = Some s) indices selected ->
  NoDup selected.
Proof.
  intros Hskus Hidx Hall. induction Hall as [|i s indices selected His Hall IH];
    [constructor|].
  apply NoDup_cons in Hidx as [Hi Hidx]. constructor; [|by apply IH].
  intros Hin. apply list_elem_of_lookup in Hin as [p Hp].
  destruct (Forall2_lookup_r _ _ _ _ _ Hall Hp) as (j & Hj & Hjs).
  assert (i = j) as -> by exact (NoDup_lookup skus i j s Hskus His Hjs).
  apply Hi. by eapply list_elem_of_lookup_2.
Qed.

(** What the result loop returns for one row of similarities. *)
Lemma collect_top g skus sims k :
  _item_skus g = Some skus ->
  length skus = length sims ->
  0 <= k ->
  exists res,
    collect g sims (top_indices sims k) = Return res /\
    length res = Nat.min (Z.to_nat k) (length sims) /\
    Forall (fun r => r.1 ∈ skus) res /\
    (NoDup skus -> NoDup res.*1).
Proof.
  intros Hskus Hlen Hk.
  destruct (collect_Return g skus sims (top_indices sims k) Hskus) as (res & Hres & Hall).
  { intros i Hi. apply top_indices_lt in Hi. lia. }
  exists res. split; [done|].
  split; [by rewrite <- (Forall2_length _ _ _ Hall), top_indices_length|].
  split.
  - apply Forall_forall. intros r Hr. apply list_elem_of_lookup in Hr as [p Hp].
    destruct (Forall2_lookup_r _ _ _ _ _ Hall Hp) as (i & _ & Hi & _).
    by eapply list_elem_of_lookup_2.
  - intros Hnd. apply (selected_NoDup skus (top_indices sims k)); [done| |].
    + apply top_indices_NoDup.
    + apply Forall2_fmap_r. eapply Forall2_impl; [exact Hall|]. by intros i r [Hi _].
Qed.

(** One result list per query. *)
Lemma search_vectors_batch_results g cache skus (query_vectors : matrix) k :
  _vectors_cache g = Some cache ->
  _item_skus g = Some skus ->
  length skus = length cache ->
  forallb (same_shape cache) query_vectors = true ->
  0 <= k ->
  exists results,
    search_vectors_batch g query_vectors k = Return results /\
    Forall2 (fun (q : vector) res =>
               length res = Nat.min (Z.to_nat k) (length cache) /\
               Forall (fun r => r.1 ∈ skus) res /\
               (NoDup skus -> NoDup res.*1)) query_vectors results.
Proof.
  intros Hcache Hskus Hlen Hshape Hk. unfold search_vectors_batch. rewrite Hcache.
  destruct query_vectors as [|q0 qs]; [exists []; by split|].
  set (queries := q0 :: qs) in *.
  change (Nat.eqb (length queries) 0) with false. cbv iota.
  unfold matmul_t. rewrite Hshape. unfold mbind at 1, outcome_bind at 1.
  set (all_sims := zip_with _ _ _).
  assert (length all_sims = length queries) as Hn.
  { unfold all_sims, guard_zero. rewrite length_zip_with, !length_fmap. lia. }
  assert (Forall (fun sims => length sims = length cache) all_sims) as Hrows.
  { apply Forall_forall. intros sims Hin. unfold all_sims in Hin.
    apply list_elem_of_lookup in Hin as [i Hi].
    apply lookup_zip_with_Some in Hi as (dots & qn & -> & Hdots & _).
    rewrite list_lookup_fmap in Hdots.
    destruct (queries !! i) as [q|]; [|done]. injection Hdots as <-.
    unfold guard_zero. rewrite length_zip_with, !length_fmap. lia. }
  destruct (mapM_Forall2 (fun sims => collect g sims (top_indices sims k))
              (fun sims res => length res = Nat.min (Z.to_nat k) (length cache) /\
                               Forall (fun r => r.1 ∈ skus) res /\
                               (NoDup skus -> NoDup res.*1)) all_sims)
    as (results & Hres & Hall).
  { intros sims Hin. rewrite Forall_forall in Hrows. specialize (Hrows sims Hin).
    destruct (collect_top g skus sims k Hskus) as (res & Hc & Hl & Hin' & Hnd);
      [lia|done|].
    exists res. split; [done|]. by rewrite <- Hrows. }
  exists results. split; [done|].
  apply Forall2_same_length_lookup_2.
  - rewrite <- (Forall2_length _ _ _ Hall). by rewrite Hn.
  - intros i q res _ Hr. by destruct (Forall2_lookup_r _ _ _ _ _ Hall Hr) as (sims & _ & Hs).
Qed.

End BatchShape.

(** X6.  On a loaded snapshot with one sku per row, for queries of the
    rows' dimension and [top_k >= 0], [search_vectors_batch] returns one
    result list per query, in the order of the queries, each of exactly
    [min(top_k, n)] entries whose skus are skus of the snapshot, without a
    repeated sku when the snapshot has none.  Zero rows and zero queries are
    no exception: the batch search replaces their norms. *)
Theorem X6_search_vectors_batch_shape (g : Database.globals) (cache : Database.matrix)
    (skus : list string) (query_vectors : Database.matrix) (top_k : Z) :
  Database._vectors_cache g = Some cache ->
  Database._item_skus g = Some skus ->
  length skus = length cache ->
  forallb (Database.same_shape cache) query_vectors = true ->
  0 <= top_k ->
  exists results,
    Database.search_vectors_batch g query_vectors top_k = Return results /\
    length results = length query_vectors /\
    Forall (fun res => length res = Nat.min (Z.to_nat top_k) (length cache) /\
                       Forall (fun r => r.1 ∈ skus) res /\
                       (NoDup skus -> NoDup res.*1)) results.
Proof.
  intros Hcache Hskus Hlen Hshape Hk.
  destruct (search_vectors_batch_results g cache skus query_vectors top_k
              Hcache Hskus Hlen Hshape Hk) as (results & Hres & Hall).
  exists results. split; [done|].
  split; [by rewrite (Forall2_length _ _ _ Hall)|].
  apply Forall_forall. intros res Hin. apply list_elem_of_lookup in Hin as [i Hi].
  by destruct (Forall2_lookup_r _ _ _ _ _ Hall Hi) as (q & _ & Hq).
Qed.

(** Two identical rows, a zero query and a unit query, the best one of each. *)
Lemma X6_search_vectors_batch_shape_witness :
  Database._vectors_cache twin_rows = Some [[1; 0]; [1; 0]]%float /\
  Database._item_skus twin_rows = Some ["SKU-A"; "SKU-B"] /\
  length ["SKU-A"; "SKU-B"] = length [[1; 0]; [1; 0]]%float /\
  forallb (Database.same_shape [[1; 0]; [1; 0]]%float) [zeros 2; [0; 1]%float] = true /\
  0 <= 1 /\
  exists results,
    Database.search_vectors_batch twin_rows [zeros 2; [0; 1]%float] 1 = Return results /\
    length results = length [zeros 2; [0; 1]%float] /\
    Forall (fun res => length res = Nat.min (Z.to_nat 1) (length [[1; 0]; [1; 0]]%float) /\
                       Forall (fun r => r.1 ∈ ["SKU-A"; "SKU-B"]) res /\
                       (NoDup ["SKU-A"; "SKU-B"] -> NoDup res.*1)) results.
Proof.
  split; [reflexivity|]. split; [reflexivity|]. split; [reflexivity|].
  split; [reflexivity|]. split; [lia|].
  exact (X6_search_vectors_batch_shape twin_rows [[1; 0]; [1; 0]]%float ["SKU-A"; "SKU-B"]
           [zeros 2; [0; 1]%float] 1 eq_refl eq_refl eq_refl eq_refl ltac:(lia)).
Defined.

(** ** How many suggestions [get_suggestions] returns *)

Lemma first_seen_snoc (l : list string) (k : string) :
  first_seen (l ++ [k]) =
    if bool_decide (k ∈ first_seen l) then first_seen l else first_seen l ++ [k].
Proof. unfold first_seen. by rewrite foldl_snoc. Qed.

Lemma first_seen_elem (l : list string) (k : string) : k ∈ first_seen l <-> k ∈ l.
Proof.
  induction l as [|x l IH] using rev_ind; [done|].
  rewrite first_seen_snoc, elem_of_app, list_elem_of_singleton.
  destruct (bool_decide_reflect (x ∈ first_seen l)) as [Hin|Hnin].
  - rewrite IH. split; [by left|]. intros [Hl| ->]; [done|]. by apply IH.
  - by rewrite elem_of_app, list_elem_of_singleton, IH.
Qed.

Section SuggestionShape.
Context {F : Type} `{Num F} {V : Type} (w : Matcher.world F V).

Lemma rank_length (combined_scores : dict (Matcher.score F)) top_k :
  0 <= top_k ->
  length (Matcher.rank combined_scores top_k)
    = Nat.min (Z.to_nat top_k) (length combined_scores).
Proof.
  intros Hk. unfold Matcher.rank, slice_to.
  destruct (0 <=? top_k) eqn:E; [|apply Z.leb_gt in E; lia].
  by rewrite length_fmap, length_take, sorted_desc_perm.
Qed.

Lemma rank_skus_NoDup (combined_scores : dict (Matcher.score F)) top_k :
  dict_wf combined_scores -> NoDup (ranked_skus (Matcher.rank combined_scores top_k)).
Proof.
  intros Hwf. unfold ranked_skus, Matcher.rank. rewrite <- list_fmap_compose.
  destruct (slice_to_take top_k
              (sorted_desc nltb (fun sm => Matcher.final_score sm.2) combined_scores))
    as [n ->].
  eapply sublist_NoDup; [|apply fmap_sublist, sublist_take].
  unfold dict_wf, dict_keys in Hwf.
  rewrite sorted_desc_perm. rewrite (list_fmap_ext _ fst _ _ (fun _ _ _ => eq_refl) eq_refl) || idtac.
  exact Hwf.
Qed.

Lemma suggest_length skip cache results suggestions :
  Matcher.suggest w skip cache results = Return suggestions ->
  (length suggestions <= length results)%nat.
Proof.
  revert suggestions. induction results as [|[[sku f] m] results IH]; intros suggestions.
  - simpl. intros [= <-]. done.
  - simpl.
    destruct (match cache with
              | Some c => Return (dict_get c sku)
              | None => if skip then Return None else Matcher.get_item_by_sku w sku
              end) as [item|e]; simpl; [|done].
    destruct (negb skip && negb (match cache with Some _ => true | None => false end)
              && Matcher.falsy item).
    + intros Hrest. specialize (IH _ Hrest). lia.
    + destruct (Matcher.suggest w skip cache results) as [rest|e]; simpl; [|done].
      intros [= <-]. specialize (IH _ eq_refl). simpl. lia.
Qed.

Lemma get_suggestions_length req top_k qv vr skip cache suggestions :
  0 <= top_k ->
  Matcher.get_suggestions w req top_k qv vr skip cache = Return suggestions ->
  (length suggestions <= Z.to_nat top_k)%nat.
Proof.
  intros Hk. unfold Matcher.get_suggestions, try_except, Matcher.calculate_hybrid_score.
  destruct (Matcher.get_all_historical_mappings w req) as [hm|e]; simpl;
    [|intros [= <-]; simpl; lia].
  destruct (Matcher.normalize_frequencies hm) as [nh|e]; simpl;
    [|intros [= <-]; simpl; lia].
  destruct (Matcher.suggest w skip cache _) as [l|e] eqn:Es; [|intros [= <-]; simpl; lia].
  intros [= <-]. apply suggest_length in Es. rewrite rank_length in Es by done. lia.
Qed.

(** With [skip_item_lookup] or an [items_cache], no ranked result is
    dropped. *)
Lemma suggest_keeps skip cache results :
  skip = true \/ is_Some cache ->
  exists suggestions,
    Matcher.suggest w skip cache results = Return suggestions /\
    Matcher.s_sku <$> suggestions = ranked_skus results /\
    Matcher.s_confidence_score <$> suggestions = (fun r => r.1.2) <$> results.
Proof.
  intros Hbulk. induction results as [|[[sku f] m] results IH].
  - by exists [].
  - destruct IH as (rest & Hrest & Hskus & Hconf). simpl.
    assert (negb skip && negb (match cache with Some _ => true | None => false end)
            = false) as Hkeep.
    { destruct Hbulk as [->|[c ->]]; [done|]. by rewrite andb_false_r. }
    destruct (match cache with
              | Some c => Return (dict_get c sku)
              | None => if skip then Return None else Matcher.get_item_by_sku w sku
              end) as [item|e] eqn:Eitem.
    + simpl. rewrite Hkeep. simpl. rewrite Hrest. simpl.
      eexists. split; [done|]. csimpl. unfold ranked_skus in *. csimpl.
      by rewrite Hskus, Hconf.
    + exfalso. destruct Hbulk as [->|[c ->]]; [by destruct cache|done].
Qed.

(** Without either, a ranked result is kept exactly when its item is
    found, as long as no lookup raises. *)
Lemma suggest_filters results :
  (forall sku, sku ∈ ranked_skus results ->
     exists item, Matcher.get_item_by_sku w sku = Return item) ->
  exists suggestions,
    Matcher.suggest w false None results = Return suggestions /\
    Matcher.s_sku <$> suggestions = filter (fun sku => item_found w sku = true)
                                           (ranked_skus results).
Proof.
  induction results as [|[[sku f] m] results IH]; intros Hall.
  - by exists [].
  - destruct IH as (rest & Hrest & Hskus).
    { intros s Hs. apply Hall. unfold ranked_skus. csimpl. by apply list_elem_of_further. }
    destruct (Hall sku) as [item Hitem].
    { unfold ranked_skus. csimpl. apply list_elem_of_here. }
    assert (item_found w sku = negb (Matcher.falsy item)) as Hfound.
    { unfold item_found. by rewrite Hitem. }
    unfold ranked_skus. csimpl. rewrite filter_cons, Hitem. simpl.
    destruct (Matcher.falsy item) eqn:Ef; simpl.
    + rewrite decide_False by (by rewrite Hfound). by exists rest.
    + rewrite decide_True by (by rewrite Hfound). rewrite Hrest. simpl.
      eexists. split; [done|]. csimpl. by rewrite Hskus.
Qed.

(** One lookup that raises ends the loop. *)
Lemma suggest_raises results sku e :
  sku ∈ ranked_skus results ->
  Matcher.get_item_by_sku w sku = Raise e ->
  exists e', Matcher.suggest w false None results = Raise e'.
Proof.
  induction results as [|[[sku' f] m] results IH]; intros Hin Hraise.
  - by apply elem_of_nil in Hin.
  - unfold ranked_skus in Hin. csimpl in Hin. simpl.
    destruct (Matcher.get_item_by_sku w sku') as [item|e0] eqn:Eitem; simpl; [|by eexists].
    assert (sku ∈ ranked_skus results) as Hin'.
    { apply elem_of_cons in Hin as [->|Hin]; [congruence|done]. }
    destruct (IH Hin' Hraise) as [e' ->].
    destruct (Matcher.falsy item); simpl; by eexists.
Qed.

End SuggestionShape.

(** X7.  In the bulk flow, with [skip_item_lookup] or an [items_cache],
    [get_suggestions] keeps every ranked result: for [top_k >= 0] and a
    history that is read without error it returns exactly
    [min(top_k, c)] suggestions, [c] being the number of distinct skus of
    the history and the vector results; no sku is suggested twice, and every
    suggested sku comes from one of the two sources. *)
Theorem X7_bulk_suggestions_count {F : Type} {N : Num F} {V : Type}
    (w : Matcher.world F V) (requirement_string : string) (top_k : Z)
    (query_vector : option V) (vector_results : option (list (string * F)))
    (skip_item_lookup : bool) (items_cache : option (dict (dict (Matcher.value F))))
    (historical_mappings : dict Z) :
  0 <= top_k ->
  skip_item_lookup = true \/ is_Some items_cache ->
  Matcher.get_all_historical_mappings w requirement_string = Return historical_mappings ->
  dict_wf historical_mappings ->
  let candidates :=
    dict_keys historical_mappings ++
    (Matcher.step_vector_results w top_k
       (Matcher.step_embedding w requirement_string query_vector vector_results)
       vector_results).*1 in
  exists suggestions,
    Matcher.get_suggestions w requirement_string top_k query_vector vector_results
      skip_item_lookup items_cache = Return suggestions /\
    length suggestions = Nat.min (Z.to_nat top_k) (length (first_seen candidates)) /\
    NoDup (Matcher.s_sku <$> suggestions) /\
    Forall (fun s => Matcher.s_sku s ∈ candidates) suggestions.
Proof.
  intros Hk Hbulk Hh Hwf candidates.
  unfold Matcher.get_suggestions, Matcher.calculate_hybrid_score.
  rewrite Hh. simpl. rewrite normalize_frequencies_normalized by done. simpl.
  set (vr := Matcher.step_vector_results _ _ _ _) in *.
  set (combined := Matcher.combine historical_mappings (normalized historical_mappings) vr).
  destruct (suggest_keeps w skip_item_lookup items_cache (Matcher.rank combined top_k) Hbulk)
    as (suggestions & -> & Hskus & _).
  exists suggestions. split; [done|].
  assert (dict_keys combined = first_seen candidates) as Hkeys.
  { unfold combined. rewrite combine_keys. unfold candidates, normalized, dict_keys.
    by rewrite (fmap_fst_keep (fun kv => if _ =? 0 then nzero else nratio kv.2 _)). }
  split; [|split].
  - rewrite <- (length_fmap Matcher.s_sku), Hskus. unfold ranked_skus.
    rewrite length_fmap, rank_length by done.
    rewrite <- Hkeys. unfold dict_keys. by rewrite length_fmap.
  - rewrite Hskus. apply rank_skus_NoDup, combine_wf.
  - apply Forall_forall. intros s Hs.
    assert (Matcher.s_sku s ∈ ranked_skus (Matcher.rank combined top_k)) as Hin.
    { rewrite <- Hskus. by apply list_elem_of_fmap_2. }
    apply list_elem_of_fmap in Hin as ([[sku f] m] & -> & Hin). simpl.
    apply rank_elem in Hin. apply first_seen_elem. rewrite <- Hkeys.
    by apply (list_elem_of_fmap_2 fst) in Hin.
Qed.

(** The worked example: two skus of the history and one more from the
    vector results, of which the best two are asked for. *)
Lemma X7_bulk_suggestions_count_witness :
  0 <= 2 /\
  Matcher.get_all_historical_mappings tie_world "Test Tube 10ml"
    = Return [("SKU-B", 1); ("SKU-A", 1)] /\
  dict_wf [("SKU-B", 1); ("SKU-A", 1)] /\
  exists suggestions,
    Matcher.get_suggestions tie_world "Test Tube 10ml" 2 None
      (Some [("SKU-A", 0.5%float); ("SKU-C", 0.9%float)]) true None = Return suggestions /\
    length suggestions = 2%nat /\
    NoDup (Matcher.s_sku <$> suggestions) /\
    Forall (fun s => Matcher.s_sku s ∈ ["SKU-B"; "SKU-A"; "SKU-A"; "SKU-C"]) suggestions.
Proof.
  assert (dict_wf [("SKU-B", 1); ("SKU-A", 1)]) as Hwf.
  { apply (bool_decide_unpack _). vm_compute. exact I. }
  split; [lia|]. split; [reflexivity|]. split; [exact Hwf|].
  exact (X7_bulk_suggestions_count tie_world "Test Tube 10ml" 2 None
           (Some [("SKU-A", 0.5%float); ("SKU-C", 0.9%float)]) true None
           [("SKU-B", 1); ("SKU-A", 1)] ltac:(lia) (or_introl eq_refl) eq_refl Hwf).
Defined.

(** X8.  Without [skip_item_lookup] and without an [items_cache],
    [get_suggestions] looks every ranked sku up: when every lookup returns,
    it suggests exactly the ranked skus whose item is found, in ranking
    order (so fewer than [top_k] may be left); when one lookup raises, the
    [except] clause discards every suggestion and the empty list is
    returned. *)
Theorem X8_item_lookup_filters {F : Type} {N : Num F} {V : Type}
    (w : Matcher.world F V) (requirement_string : string) (top_k : Z)
    (query_vector : option V) (vector_results : option (list (string * F)))
    (ranking : list (string * F * Matcher.score F)) :
  Matcher.calculate_hybrid_score w requirement_string top_k query_vector vector_results
    = Return ranking ->
  ((forall sku, sku ∈ ranked_skus ranking ->
      exists item, Matcher.get_item_by_sku w sku = Return item) ->
   exists suggestions,
     Matcher.get_suggestions w requirement_string top_k query_vector vector_results
       false None = Return suggestions /\
     Matcher.s_sku <$> suggestions
       = filter (fun sku => item_found w sku = true) (ranked_skus ranking)) /\
  (forall sku e,
     sku ∈ ranked_skus ranking ->
     Matcher.get_item_by_sku w sku = Raise e ->
     Matcher.get_suggestions w requirement_string top_k query_vector vector_results
       false None = Return []).
Proof.
  intros Hrank. unfold Matcher.get_suggestions. rewrite Hrank. simpl. split.
  - intros Hall. destruct (suggest_filters w ranking Hall) as (suggestions & -> & Hskus).
    by exists suggestions.
  - intros sku e Hin Hraise. by destruct (suggest_raises w ranking sku e Hin Hraise) as [e' ->].
Qed.

(** Of the two skus of the history only SKU-A is in the item table. *)
Lemma X8_item_lookup_filters_witness :
  exists ranking,
    Matcher.calculate_hybrid_score catalogue_world "Beaker 250ml" 3 None (Some [])
      = Return ranking /\
    ranked_skus ranking = ["SKU-B"; "SKU-A"] /\
    exists suggestions,
      Matcher.get_suggestions catalogue_world "Beaker 250ml" 3 None (Some []) false None
        = Return suggestions /\
      Matcher.s_sku <$> suggestions = ["SKU-A"].
Proof.
  eexists. split; [reflexivity|]. split; [reflexivity|].
  refine (proj1 (X8_item_lookup_filters catalogue_world "Beaker 250ml" 3 None (Some [])
                   _ eq_refl) _).
  intros sku _. unfold catalogue_world. simpl.
  destruct (String.eqb sku "SKU-A"); by eexists.
Defined.

(** ** The order of the ranking *)

Section SortedOn.
Context {A K : Type} (lt : K -> K -> bool) (key : A -> K).
(** [lt] is asymmetric, and transitive in its negation through the keys
    that satisfy [ok] (for floats: the numbers, as opposed to NaN). *)
Context (ok : K -> Prop).
Hypothesis lt_asym : forall x y, lt x y = true -> lt y x = false.
Hypothesis lt_negtrans :
  forall x y z, ok y -> lt x y = false -> lt y z = false -> lt x z = false.

Lemma insert_desc_sorted_on x l :
  Forall (fun a => ok (key a)) l ->
  StronglySorted (fun a b => lt (key a) (key b) = false) l ->
  StronglySorted (fun a b => lt (key a) (key b) = false) (insert_desc lt key x l).
Proof.
  intros Hok Hs. induction Hs as [|y l Hs IH Hall]; simpl.
  - by repeat constructor.
  - apply Forall_cons in Hok as [Hy Hok].
    destruct (lt (key x) (key y)) eqn:E.
    + constructor; [by apply IH|].
      rewrite insert_desc_perm. constructor; [by apply lt_asym | done].
    + constructor; [by constructor|].
      constructor; [done|].
      eapply Forall_impl; [exact Hall|]. intros z Hz. simpl in Hz.
      by eapply lt_negtrans.
Qed.

Lemma sorted_desc_sorted_on l :
  Forall (fun a => ok (key a)) l ->
  StronglySorted (fun a b => lt (key a) (key b) = false) (sorted_desc lt key l).
Proof.
  induction l as [|x l IH]; simpl; [constructor|]. intros Hok.
  apply Forall_cons in Hok as [Hx Hok].
  apply insert_desc_sorted_on; [|by apply IH].
  by rewrite sorted_desc_perm.
Qed.

End SortedOn.

Lemma ltb_nan_r (x y : float) : is_nan y = true -> PrimFloat.ltb x y = false.
Proof.
  rewrite is_nan_spec, FloatAxioms.ltb_spec. unfold SFltb.
  destruct (Prim2SF y); try done. by destruct (Prim2SF x).
Qed.

Lemma ltb_asym (x y : float) : PrimFloat.ltb x y = true -> PrimFloat.ltb y x = false.
Proof.
  intros Hlt. assert (np_lt x y = true) as Hnp by (unfold np_lt; by rewrite Hlt).
  apply np_lt_asym in Hnp. unfold np_lt in Hnp. by apply orb_false_elim in Hnp as [? _].
Qed.

Lemma ltb_negtrans (x y z : float) :
  is_nan y = false ->
  PrimFloat.ltb x y = false -> PrimFloat.ltb y z = false -> PrimFloat.ltb x z = false.
Proof.
  intros Hy Hxy Hyz. destruct (is_nan z) eqn:Hz; [by apply ltb_nan_r|].
  assert (np_lt x y = false) as H1 by (unfold np_lt; by rewrite Hxy, Hy).
  assert (np_lt y z = false) as H2 by (unfold np_lt; by rewrite Hyz, Hz).
  pose proof (np_lt_negtrans _ _ _ H1 H2) as H3.
  unfold np_lt in H3. by apply orb_false_elim in H3 as [? _].
Qed.

Lemma rank_sorted_on {F : Type} {N : Num F} (ok : F -> Prop)
    (combined_scores : dict (Matcher.score F)) (top_k : Z) (p q : nat)
    (r1 r2 : string * F * Matcher.score F) :
  (forall x y : F, nltb x y = true -> nltb y x = false) ->
  (forall x y z : F, ok y -> nltb x y = false -> nltb y z = false -> nltb x z = false) ->
  Forall (fun sm => ok (Matcher.final_score sm.2)) combined_scores ->
  (p < q)%nat ->
  Matcher.rank combined_scores top_k !! p = Some r1 ->
  Matcher.rank combined_scores top_k !! q = Some r2 ->
  nltb r1.1.2 r2.1.2 = false.
Proof.
  intros Hasym Hneg Hok Hpq Hp Hq. unfold Matcher.rank in Hp, Hq.
  destruct (slice_to_take top_k
              (sorted_desc nltb (fun sm => Matcher.final_score sm.2) combined_scores))
    as [n Hn].
  rewrite Hn in Hp, Hq. rewrite list_lookup_fmap in Hp, Hq.
  destruct (take n _ !! p) as [sm1|] eqn:E1; [|done].
  destruct (take n _ !! q) as [sm2|] eqn:E2; [|done].
  injection Hp as <-. injection Hq as <-. simpl.
  apply lookup_take_Some in E1 as [E1 _]. apply lookup_take_Some in E2 as [E2 _].
  exact (StronglySorted_lookup _ _ p q sm1 sm2
           (sorted_desc_sorted_on nltb _ ok Hasym Hneg _ Hok) Hpq E1 E2).
Qed.

(** X9.  The ranking of [calculate_hybrid_score] never puts a smaller final
    score before a greater one: in binary64 whenever no final score is NaN
    (a NaN compares false with everything, and the sort then promises
    nothing), and in exact arithmetic always. *)
Theorem X9_ranking_descends :
  (forall (combined_scores : dict (Matcher.score float)) (top_k : Z) (p q : nat)
          (r1 r2 : string * float * Matcher.score float),
     Forall (fun sm => is_nan (Matcher.final_score sm.2) = false) combined_scores ->
     (p < q)%nat ->
     Matcher.rank combined_scores top_k !! p = Some r1 ->
     Matcher.rank combined_scores top_k !! q = Some r2 ->
     PrimFloat.ltb r1.1.2 r2.1.2 = false) /\
  (forall (combined_scores : dict (Matcher.score Q)) (top_k : Z) (p q : nat)
          (r1 r2 : string * Q * Matcher.score Q),
     (p < q)%nat ->
     Matcher.rank combined_scores top_k !! p = Some r1 ->
     Matcher.rank combined_scores top_k !! q = Some r2 ->
     (r2.1.2 <= r1.1.2)%Q).
Proof.
  split.
  - intros cs k p q r1 r2 Hok Hpq Hp Hq.
    exact (rank_sorted_on (fun x => is_nan x = false) cs k p q r1 r2
             ltb_asym ltb_negtrans Hok Hpq Hp Hq).
  - intros cs k p q r1 r2 Hpq Hp Hq.
    assert (nltb r1.1.2 r2.1.2 = false) as Hlt.
    { apply (rank_sorted_on (fun _ => True) cs k p q); try done.
      - intros x y. simpl. rewrite !negb_true_iff, negb_false_iff.
        intros Hxy. apply Qle_bool_iff. 
        destruct (Qlt_le_dec y x) as [Hlt|Hle]; [|done].
        apply Qlt_le_weak, Qle_bool_iff in Hlt. congruence.
      - intros x y z _. simpl. rewrite !negb_false_iff, !Qle_bool_iff.
        intros Hyx Hzy. exact (Qle_trans _ _ _ Hzy Hyx).
      - by apply Forall_forall. }
    simpl in Hlt. by apply negb_false_iff, Qle_bool_iff in Hlt.
Qed.

(** The worked example in binary64: 0.97, 0.15, 0.13999999999999999. *)
Lemma X9_ranking_descends_witness :
  Forall (fun sm => is_nan (Matcher.final_score sm.2) = false)
    (Matcher.combine (F := float) example_history example_normalized
       example_vector_results) /\
  forall (p q : nat) (r1 r2 : string * float * Matcher.score float),
    (p < q)%nat ->
    Matcher.rank (Matcher.combine example_history example_normalized
                    example_vector_results) 10 !! p = Some r1 ->
    Matcher.rank (Matcher.combine example_history example_normalized
                    example_vector_results) 10 !! q = Some r2 ->
    PrimFloat.ltb r1.1.2 r2.1.2 = false.
Proof.
  assert (Forall (fun sm => is_nan (Matcher.final_score sm.2) = false)
            (Matcher.combine (F := float) example_history example_normalized
               example_vector_results)) as Hok.
  { vm_compute. repeat constructor. }
  split; [exact Hok|]. intros p q r1 r2.
  exact (proj1 X9_ranking_descends _ 10 p q r1 r2 Hok).
Defined.

(** ** The [/suggest] handler *)

Section MapBack.
Context {V R : Type}.

Lemma map_back_aligned (all_embeddings : list (option V)) (batch : list (list R))
    (vidx : nat) :
  (vidx + length (omap id all_embeddings) <= length batch)%nat ->
  exists per_item,
    Routes.map_back all_embeddings batch vidx = Return per_item /\
    length per_item = length all_embeddings /\
    forall i e, all_embeddings !! i = Some e ->
      per_item !! i =
        match e with
        | Some _ => batch !! (vidx + length (omap id (take i all_embeddings)))%nat
        | None => Some []
        end.
Proof.
  revert vidx. induction all_embeddings as [|[v|] rest IH]; intros vidx Hle.
  - exists []. by split.
  - change (vidx + S (length (omap id rest)) <= length batch)%nat in Hle.
    destruct (IH (S vidx)) as (per_item & Hret & Hlen & Hat); [lia|].
    destruct (lookup_lt_is_Some_2 batch vidx) as [results Hres]; [lia|].
    exists (results :: per_item). simpl. unfold list_index. rewrite Hres. simpl.
    rewrite Hret. simpl. split; [done|]. split; [by rewrite Hlen|].
    intros [|i] e Hi; simpl in Hi.
    + injection Hi as <-. simpl. by rewrite Nat.add_0_r.
    + change ((results :: per_item) !! S i) with (per_item !! i).
      rewrite (Hat i e Hi). destruct e; [|done]. csimpl. f_equal. lia.
  - change (vidx + length (omap id rest) <= length batch)%nat in Hle.
    destruct (IH vidx) as (per_item & Hret & Hlen & Hat); [lia|].
    exists ([] :: per_item). simpl. rewrite Hret. simpl.
    split; [done|]. split; [by rewrite Hlen|].
    intros [|i] e Hi; simpl in Hi.
    + by injection Hi as <-.
    + change (([] :: per_item) !! S i) with (per_item !! i).
      by rewrite (Hat i e Hi).
Qed.

Lemma map_back_short (all_embeddings : list (option V)) (batch : list (list R))
    (vidx : nat) :
  (vidx <= length batch)%nat ->
  (length batch < vidx + length (omap id all_embeddings))%nat ->
  Routes.map_back all_embeddings batch vidx = Raise IndexError.
Proof.
  revert vidx. induction all_embeddings as [|[v|] rest IH]; intros vidx Hle Hlt.
  - simpl in Hlt. lia.
  - change (length batch < vidx + S (length (omap id rest)))%nat in Hlt.
    simpl. unfold list_index.
    destruct (batch !! vidx) as [results|] eqn:Hres; [|done]. simpl.
    apply lookup_lt_Some in Hres. rewrite IH; [done|lia|lia].
  - change (length batch < vidx + length (omap id rest))%nat in Hlt.
    simpl. rewrite IH; [done|lia|lia].
Qed.

End MapBack.

(** X10.  The loop of the [/suggest] handler that maps the batch results
    back to the items: when the batch holds at least one result list per
    embedding that is not [None], the loop yields one entry per item, the
    empty list where the embedding is [None] and otherwise the batch entry
    whose position is the number of earlier embeddings that are not [None];
    when the batch holds fewer, the loop raises [IndexError]. *)
Theorem X10_map_back_aligned {V R : Type} (all_embeddings : list (option V))
    (batch_vector_results : list (list R)) :
  ((length (omap id all_embeddings) <= length batch_vector_results)%nat ->
   exists vector_results_per_item,
     Routes.map_back all_embeddings batch_vector_results 0 = Return vector_results_per_item /\
     length vector_results_per_item = length all_embeddings /\
     forall i e, all_embeddings !! i = Some e ->
       vector_results_per_item !! i =
         match e with
         | Some _ => batch_vector_results !! length (omap id (take i all_embeddings))
         | None => Some []
         end) /\
  ((length batch_vector_results < length (omap id all_embeddings))%nat ->
   Routes.map_back all_embeddings batch_vector_results 0 = Raise IndexError).
Proof.
  split; intros Hlen.
  - exact (map_back_aligned all_embeddings batch_vector_results 0 Hlen).
  - apply map_back_short; [lia|done].
Qed.

(** Three items of which the second has no embedding. *)
Lemma X10_map_back_aligned_witness :
  (length (omap id [Some 1; None; Some 2]) <= length [["a"]; ["b"; "c"]])%nat /\
  Routes.map_back [Some 1; None; Some 2] [["a"]; ["b"; "c"]] 0
    = Return [["a"]; []; ["b"; "c"]] /\
  exists vector_results_per_item,
    Routes.map_back [Some 1; None; Some 2] [["a"]; ["b"; "c"]] 0
      = Return vector_results_per_item /\
    length vector_results_per_item = 3%nat /\
    forall i e, [Some 1; None; Some 2] !! i = Some e ->
      vector_results_per_item !! i =
        match e with
        | Some _ => [["a"]; ["b"; "c"]] !! length (omap id (take i [Some 1; None; Some 2]))
        | None => Some []
        end.
Proof.
  split; [simpl; lia|]. split; [reflexivity|].
  exact (proj1 (X10_map_back_aligned [Some 1; None; Some 2] [["a"]; ["b"; "c"]])
           ltac:(simpl; lia)).
Defined.

Lemma generate_embeddings_batch_parts {E : Type} (BATCH_SIZE : Z)
    (post : list string -> option (list (Matcher.response_item E)))
    (key : string) (texts : list string) :
  0 < BATCH_SIZE ->
  let reqs := (fun i => slice i (i + Z.to_nat BATCH_SIZE) texts)
                <$> range_step (length texts) (Z.to_nat BATCH_SIZE) in
  Matcher.generate_embeddings_batch BATCH_SIZE post (Some key) texts
    = Return (reqs, concat (part post <$> reqs)).
Proof.
  intros HB reqs. unfold Matcher.generate_embeddings_batch.
  destruct (BATCH_SIZE =? 0) eqn:E0; [apply Z.eqb_eq in E0; lia|].
  destruct (BATCH_SIZE <? 0) eqn:E1; [apply Z.ltb_lt in E1; lia|].
  by rewrite embed_loop.
Qed.

Lemma concat_fmap_replicate {A B} (f : list A -> list B) (x : B) (ls : list (list A)) :
  (forall l, l ∈ ls -> f l = replicate (length l) x) ->
  concat (f <$> ls) = replicate (length (concat ls)) x.
Proof.
  induction ls as [|l ls IH]; intros Hf; [done|]. csimpl.
  rewrite length_app, replicate_add, IH, Hf; [done|apply list_elem_of_here|].
  intros l' Hl'. apply Hf. by apply list_elem_of_further.
Qed.

Lemma omap_replicate_None {A} (n : nat) : omap id (replicate n (@None A)) = [].
Proof. induction n as [|n IH]; [done|]. exact IH. Qed.

Lemma map_back_replicate_None {V R} (n : nat) (batch : list (list R)) (vidx : nat) :
  Routes.map_back (replicate n (@None V)) batch vidx = Return (replicate n []).
Proof. induction n as [|n IH]; [done|]. simpl. by rewrite IH. Qed.

Lemma zip_replicate_r {A B} (l : list A) (y : B) :
  zip l (replicate (length l) y) = (fun x => (x, y)) <$> l.
Proof. induction l as [|x l IH]; [done|]. csimpl. by rewrite IH. Qed.



(** X12.  When the snapshot is not loaded and the embedding service returns
    at least one embedding, the [/suggest] handler fails as a whole: the
    batch search raises [RuntimeError] (or [np.stack] raises [ValueError]
    before it, if the embeddings differ in length), nothing catches it
    before the handler's own [except], and no line item gets a suggestion,
    not even from the history. *)
Theorem X12_suggest_needs_snapshot {L : Type} (BATCH_SIZE : Z)
    (post : list string -> option (list (Matcher.response_item Database.vector)))
    (api_key : option string) (g : Database.globals)
    (w : Matcher.world float Database.vector) (items_to_process : list (L * string))
    (requests : list (list string)) (all_embeddings : list (option Database.vector))
    (embedding : Database.vector) :
  Database._vectors_cache g = None ->
  Matcher.generate_embeddings_batch BATCH_SIZE post api_key items_to_process.*2
    = Return (requests, all_embeddings) ->
  Some embedding ∈ all_embeddings ->
  Routes.all_suggestion_lists BATCH_SIZE post api_key g w items_to_process
    = Raise RuntimeError \/
  Routes.all_suggestion_lists BATCH_SIZE post api_key g w items_to_process
    = Raise ValueError.
Proof.
  intros Hcache Hemb Hin. unfold Routes.all_suggestion_lists. rewrite Hemb. simpl.
  unfold Routes.vector_results_per_item.
  destruct (omap id all_embeddings) as [|first valid] eqn:Evalid.
  - exfalso. assert (embedding ∈ omap id all_embeddings) as Hv.
    { apply list_elem_of_omap. by exists (Some embedding). }
    rewrite Evalid in Hv. by apply elem_of_nil in Hv.
  - unfold Routes.np_stack.
    destruct (forallb _ (first :: valid)); simpl; [|by right].
    unfold Database.search_vectors_batch. rewrite Hcache. by left.
Qed.

(** One line item, a service that answers, the snapshot not loaded. *)
Lemma X12_suggest_needs_snapshot_witness :
  Database._vectors_cache Database.initial = None /\
  Matcher.generate_embeddings_batch 100 unit_post (Some "key") [(1%nat, "Beaker")].*2
    = Return ([["Beaker"]], [Some [1; 0]%float]) /\
  Some [1; 0]%float ∈ [Some [1; 0]%float] /\
  Routes.all_suggestion_lists 100 unit_post (Some "key") Database.initial tie_world
    [(1%nat, "Beaker")] = Raise RuntimeError.
Proof.
  assert (Some [1; 0]%float ∈ [Some [1; 0]%float]) as Hin by apply list_elem_of_here.
  split; [reflexivity|]. split; [reflexivity|]. split; [exact Hin|].
  destruct (X12_suggest_needs_snapshot 100 unit_post (Some "key") Database.initial
              tie_world [(1%nat, "Beaker")] [["Beaker"]] [Some [1; 0]%float]
              [1; 0]%float eq_refl eq_refl Hin) as [Hr|Hv]; [exact Hr|].
  discriminate Hv.
Defined.

Lemma elem_of_concat {A} (x : A) (ls : list (list A)) :
  x ∈ concat ls -> exists l, x ∈ l /\ l ∈ ls.
Proof.
  induction ls as [|l ls IH]; simpl; [by intros ?%elem_of_nil|].
  intros [Hl|Hls]%elem_of_app.
  - exists l. split; [done|apply list_elem_of_here].
  - destruct (IH Hls) as (l' & Hx & Hl'). exists l'. split; [done|].
    by apply list_elem_of_further.
Qed.

Section SuggestTotal.
Import Database.
Context {L : Type} (BATCH_SIZE : Z)
        (post : list string -> option (list (Matcher.response_item vector))).

(** An embedding that the handler receives was sent by the service. *)
Lemma part_elem (reqs : list (list string)) (v : vector) :
  Some v ∈ concat (part post <$> reqs) ->
  exists batch data item,
    post batch = Some data /\ item ∈ data /\ v = Matcher.embedding item.
Proof.
  intros Hin. apply elem_of_concat in Hin as (p & Hv & Hp).
  apply list_elem_of_fmap in Hp as (batch & -> & _). unfold part in Hv.
  destruct (post batch) as [data|] eqn:Ep.
  - apply list_elem_of_fmap in Hv as (item & [= ->] & Hitem).
    rewrite sorted_asc_perm in Hitem. by exists batch, data, item.
  - by apply elem_of_replicate in Hv as [? _].
Qed.

Lemma np_stack_Return (d : nat) (arrays : list vector) :
  arrays <> [] -> Forall (fun a => length a = d) arrays ->
  Routes.np_stack arrays = Return arrays.
Proof.
  intros Hne Hall. unfold Routes.np_stack. destruct arrays as [|first rest]; [done|].
  assert (forallb (fun a => Nat.eqb (length a) (length first)) (first :: rest) = true)
    as ->; [|done].
  apply forallb_forall. intros a Ha. apply list_elem_of_In in Ha.
  rewrite Forall_forall in Hall. apply Nat.eqb_eq.
  rewrite (Hall a Ha). symmetry. apply Hall, list_elem_of_here.
Qed.

Lemma same_shape_all (d : nat) (cache queries : matrix) :
  Forall (fun row => length row = d) cache ->
  Forall (fun q => length q = d) queries ->
  forallb (same_shape cache) queries = true.
Proof.
  intros Hrows Hqs. apply forallb_forall. intros q Hq. apply list_elem_of_In in Hq.
  unfold same_shape. apply forallb_forall. intros row Hrow. apply list_elem_of_In in Hrow.
  rewrite Forall_forall in Hrows, Hqs. apply Nat.eqb_eq.
  by rewrite (Hrows row Hrow), (Hqs q Hq).
Qed.

(** The vector stage on a consistent snapshot: one list per item, each of
    at most six entries with skus of the snapshot. *)
Lemma vector_results_per_item_Return (g : globals) (cache : matrix) (skus : list string)
    (d : nat) (all_embeddings : list (option vector)) :
  _vectors_cache g = Some cache ->
  _item_skus g = Some skus ->
  length skus = length cache ->
  Forall (fun row => length row = d) cache ->
  (forall v, Some v ∈ all_embeddings -> length v = d) ->
  exists per_item,
    Routes.vector_results_per_item g all_embeddings = Return per_item /\
    length per_item = length all_embeddings /\
    Forall (fun vr => (length vr <= 6)%nat /\ Forall (fun r => r.1 ∈ skus) vr) per_item.
Proof.
  intros Hcache Hskus Hlen Hrows Hdim. unfold Routes.vector_results_per_item.
  remember (omap id all_embeddings) as valid eqn:Ev.
  assert (Forall (fun q => length q = d) valid) as Hvalid.
  { apply Forall_forall. intros v Hv. rewrite Ev in Hv.
    apply list_elem_of_omap in Hv as ([v'|] & Hin & Heq);
      [|done]. injection Heq as ->. by apply Hdim. }
  assert (exists batch,
            match valid with
            | [] => Return []
            | _ => valid_arr ← Routes.np_stack valid; search_vectors_batch g valid_arr 6
            end = Return batch /\
            length batch = length valid /\
            Forall (fun vr => (length vr <= 6)%nat /\ Forall (fun r => r.1 ∈ skus) vr) batch)
    as (batch & -> & Hbl & Hbatch).
  { clear Ev. destruct valid as [|first rest]; [by exists []|].
    rewrite (np_stack_Return d) by done. simpl.
    destruct (search_vectors_batch_results g cache skus (first :: rest) 6 Hcache Hskus Hlen)
      as (batch & -> & Hall); [by apply (same_shape_all d)|lia|].
    exists batch. split; [done|].
    split; [symmetry; exact (Forall2_length _ _ _ Hall)|].
    apply Forall_forall. intros vr Hvr. apply list_elem_of_lookup in Hvr as [i Hi].
    destruct (Forall2_lookup_r _ _ _ _ _ Hall Hi) as (q & _ & Hl & Hin & _).
    split; [lia|done]. }
  simpl.
  destruct (map_back_aligned all_embeddings batch 0) as (per_item & -> & Hpl & Hat);
    [rewrite <- Ev; lia|].
  exists per_item. split; [done|]. split; [done|].
  apply Forall_forall. intros vr Hvr. apply list_elem_of_lookup in Hvr as [i Hi].
  destruct (lookup_lt_is_Some_2 all_embeddings i) as [e He].
  { rewrite <- Hpl. by eapply lookup_lt_Some. }
  rewrite (Hat i e He) in Hi. destruct e as [v|].
  - rewrite Forall_forall in Hbatch. apply Hbatch. by eapply list_elem_of_lookup_2.
  - injection Hi as <-. split; [simpl; lia|constructor].
Qed.

End SuggestTotal.


(** Two line items against the snapshot of two identical rows. *)
Lemma unit_post_wf : well_formed unit_post.
Proof.
  intros batch data [= <-].
  match goal with |- ?l ≡ₚ ?k => assert (l = k) as ->; [|done] end.
  apply list_eq. intros i. rewrite !list_lookup_fmap, list_lookup_imap.
  destruct (batch !! i) as [text|] eqn:Ei; simpl.
  - by rewrite (proj2 (lookup_seq 0 _ i i) (conj eq_refl (lookup_lt_Some _ _ _ Ei))).
  - apply lookup_ge_None in Ei. by rewrite lookup_seq_ge.
Qed.

Lemma unit_post_dimension (batch : list string)
    (data : list (Matcher.response_item Database.vector))
    (item : Matcher.response_item Database.vector) :
  unit_post batch = Some data -> item ∈ data -> length (Matcher.embedding item) = 2%nat.
Proof.
  intros [= <-] Hin. apply list_elem_of_lookup in Hin as [i Hi].
  rewrite list_lookup_imap in Hi. destruct (batch !! i); [|done].
  by injection Hi as <-.
Qed.


(** ** [get_quote_history_bulk] *)

Lemma dict_of_items_keys {V} (items : list (string * V)) :
  dict_keys (dict_of_items items) = first_seen items.*1.
Proof.
  unfold dict_of_items, first_seen.
  induction items as [|kv items IH] using rev_ind; [done|].
  rewrite fmap_app. change ([kv].*1) with [kv.1]. rewrite !foldl_snoc.
  by rewrite dict_keys_set, dict_mem_decide, IH.
Qed.

Lemma dict_of_items_const {V} (keys : list string) (v : V) (k : string) :
  k ∈ keys -> dict_get (dict_of_items ((fun key => (key, v)) <$> keys)) k = Some v.
Proof.
  unfold dict_of_items.
  induction keys as [|key keys IH] using rev_ind; [by intros ?%elem_of_nil|].
  intros Hin. rewrite fmap_app.
  change ((fun key0 => (key0, v)) <$> [key]) with [(key, v)].
  rewrite foldl_snoc. simpl.
  destruct (decide (key = k)) as [->|Hne]; [apply dict_get_set_eq|].
  rewrite dict_get_set_ne by done. apply IH.
  apply elem_of_app in Hin as [Hin|Hin]; [done|].
  apply list_elem_of_singleton in Hin. congruence.
Qed.

Section QuoteFacts.
Context {F : Type}.
Implicit Types (d : dict (Matcher.value F)) (rows : list (dict (Matcher.value F))).

Lemma quote_of_row_sku d sku : Quotes.row_sku d = Return sku -> quote_of sku d = true.
Proof. intros Hd. unfold quote_of. rewrite Hd. apply String.eqb_refl. Qed.

Lemma quote_of_other d sku sku' :
  Quotes.row_sku d = Return sku -> sku <> sku' -> quote_of sku' d = false.
Proof.
  intros Hd Hne. unfold quote_of. rewrite Hd. by apply String.eqb_neq.
Qed.

Lemma group_step_found (limit_per_sku : Z) (result : dict (list (dict (Matcher.value F))))
    d sku quotes :
  Quotes.row_sku d = Return sku ->
  dict_get result sku = Some quotes ->
  Quotes.group_step limit_per_sku result d =
    if Z.of_nat (length quotes) <? limit_per_sku
    then Return (dict_set sku (quotes ++ [d]) result)
    else Return result.
Proof. intros Hd Hq. unfold Quotes.group_step. rewrite Hd. simpl. by rewrite Hq. Qed.

(** The grouping loop keeps, for every requested sku, the first
    [limit_per_sku] of its rows seen so far. *)
Lemma group_loop (skus : list string) (limit_per_sku : Z) rows seen
    (result : dict (list (dict (Matcher.value F)))) :
  Forall (fun d => exists sku, Quotes.row_sku d = Return sku /\ sku ∈ skus) rows ->
  dict_keys result = first_seen skus ->
  (forall sku, sku ∈ skus ->
     dict_get result sku
       = Some (take (Z.to_nat limit_per_sku) (filter (fun d => quote_of sku d = true) seen))) ->
  exists result',
    for_each (Quotes.group_step limit_per_sku) result rows = Return result' /\
    dict_keys result' = first_seen skus /\
    forall sku, sku ∈ skus ->
      dict_get result' sku
        = Some (take (Z.to_nat limit_per_sku)
                  (filter (fun d => quote_of sku d = true) (seen ++ rows))).
Proof.
  revert seen result. induction rows as [|d rows IH]; intros seen result Hrows Hkeys Hget.
  - exists result. rewrite app_nil_r. by split.
  - apply Forall_cons in Hrows as [(s & Hs & Hin) Hrows].
    cbn [for_each]. rewrite (group_step_found _ _ _ _ _ Hs (Hget s Hin)).
    set (mine := filter (fun d => quote_of s d = true) seen).
    set (n := Z.to_nat limit_per_sku).
    replace (seen ++ d :: rows) with ((seen ++ [d]) ++ rows) by (by rewrite <- app_assoc).
    destruct (Z.ltb_spec (Z.of_nat (length (take n mine))) limit_per_sku) as [Hlt|Hge].
    + assert (length mine < n)%nat as Hshort by (rewrite length_take in Hlt; lia).
      apply (IH (seen ++ [d])); [done| |].
      * rewrite dict_keys_set, dict_mem_decide, Hkeys.
        rewrite bool_decide_eq_true_2; [done|]. by apply first_seen_elem.
      * intros sku Hsku. rewrite filter_app, filter_cons, filter_nil.
        destruct (decide (s = sku)) as [<-|Hne].
        -- rewrite dict_get_set_eq, decide_True by (by apply quote_of_row_sku).
           fold mine. f_equal.
           rewrite !take_ge; [done|rewrite length_app; simpl; lia|lia].
        -- rewrite dict_get_set_ne by done.
           rewrite decide_False by (by rewrite (quote_of_other d s sku)).
           rewrite app_nil_r. by apply Hget.
    + assert (n <= length mine)%nat as Hfull by (rewrite length_take in Hge; lia).
      apply (IH (seen ++ [d])); [done|done|].
      intros sku Hsku. rewrite filter_app, filter_cons, filter_nil.
      destruct (decide (s = sku)) as [<-|Hne].
      * rewrite decide_True by (by apply quote_of_row_sku). fold mine.
        rewrite take_app_le by done. by apply Hget.
      * rewrite decide_False by (by rewrite (quote_of_other d s sku)).
        rewrite app_nil_r. by apply Hget.
Qed.

End QuoteFacts.

(** X14.  [get_quote_history_bulk] gives every requested sku a key, in the
    order of the request (a repeated sku once), and under it the first
    [limit_per_sku] rows of that sku in the order in which the query
    returned them, or the empty list when the query returned none; this
    needs every returned row to carry a requested sku, as the query's
    [WHERE] clause provides.  A limit of zero or less leaves every list
    empty. *)
Theorem X14_quote_history_grouped {F : Type}
    (fetch : list string -> outcome (list (dict (Matcher.value F))))
    (skus : list string) (limit_per_sku : Z) (rows : list (dict (Matcher.value F))) :
  fetch skus = Return rows ->
  Forall (fun d => exists sku, Quotes.row_sku d = Return sku /\ sku ∈ skus) rows ->
  exists result,
    Quotes.get_quote_history_bulk fetch skus limit_per_sku = Return result /\
    dict_keys result = first_seen skus /\
    forall sku, sku ∈ skus ->
      dict_get result sku
        = Some (take (Z.to_nat limit_per_sku) (filter (fun d => quote_of sku d = true) rows)).
Proof.
  intros Hfetch Hrows. unfold Quotes.get_quote_history_bulk.
  destruct skus as [|sku0 skus].
  - exists []. split; [done|]. split; [done|]. by intros sku ?%elem_of_nil.
  - rewrite Hfetch. unfold mbind, outcome_bind.
    apply (group_loop (sku0 :: skus) limit_per_sku rows []); [done| |].
    + rewrite dict_of_items_keys. by rewrite (fmap_fst_tag (fun _ => [])).
    + intros sku Hsku. rewrite filter_nil, take_nil. by apply (dict_of_items_const (sku0 :: skus) []).
Qed.

(** Three quotes of SKU-A and one of SKU-B, asked for with SKU-C and a
    limit of two. *)
Lemma X14_quote_history_grouped_witness :
  Forall (fun d => exists sku, Quotes.row_sku d = Return sku /\
                               sku ∈ ["SKU-B"; "SKU-A"; "SKU-C"]) example_quotes /\
  Quotes.get_quote_history_bulk (fun _ => Return example_quotes)
      ["SKU-B"; "SKU-A"; "SKU-C"] 2
    = Return [("SKU-B", drop 3 example_quotes); ("SKU-A", take 2 example_quotes);
              ("SKU-C", [])] /\
  exists result,
    Quotes.get_quote_history_bulk (fun _ => Return example_quotes)
      ["SKU-B"; "SKU-A"; "SKU-C"] 2 = Return result /\
    dict_keys result = first_seen ["SKU-B"; "SKU-A"; "SKU-C"] /\
    forall sku, sku ∈ ["SKU-B"; "SKU-A"; "SKU-C"] ->
      dict_get result sku
        = Some (take (Z.to_nat 2) (filter (fun d => quote_of sku d = true) example_quotes)).
Proof.
  assert (Forall (fun d => exists sku, Quotes.row_sku d = Return sku /\
                                       sku ∈ ["SKU-B"; "SKU-A"; "SKU-C"]) example_quotes)
    as Hrows.
  { repeat constructor.
    - exists "SKU-A". split; [reflexivity|]. apply (bool_decide_unpack _). vm_compute. exact I.
    - exists "SKU-A". split; [reflexivity|]. apply (bool_decide_unpack _). vm_compute. exact I.
    - exists "SKU-A". split; [reflexivity|]. apply (bool_decide_unpack _). vm_compute. exact I.
    - exists "SKU-B". split; [reflexivity|]. apply (bool_decide_unpack _). vm_compute. exact I. }
  split; [exact Hrows|]. split; [reflexivity|].
  exact (X14_quote_history_grouped (fun _ => Return example_quotes)
           ["SKU-B"; "SKU-A"; "SKU-C"] 2 example_quotes eq_refl Hrows).
Defined.

(** ** Rebuilding the cache and loading it *)

Section RebuildFacts.
Import Database.

Lemma load_loop (rows : list LoadVectors.item_row)
    (acc : list string * list string * list vector) :
  foldl LoadVectors.load_step acc rows =
    (acc.1.1 ++ (omap valid_row rows).*1.*1,
     acc.1.2 ++ (omap valid_row rows).*1.*2,
     acc.2 ++ (omap valid_row rows).*2).
Proof.
  revert acc. induction rows as [|[[sku name] [|v]] rows IH]; intros [[skus names] vectors].
  - simpl. by rewrite !app_nil_r.
  - cbn [foldl]. rewrite IH. done.
  - cbn [foldl]. rewrite IH. unfold LoadVectors.load_step. cbn [omap list_omap valid_row].
    destruct (Nat.eqb (length v) 1536); simpl; [|done].
    by rewrite <- !app_assoc.
Qed.

Lemma load_items_and_vectors_kept (rows : list LoadVectors.item_row) :
  LoadVectors.load_items_and_vectors rows =
    ((omap valid_row rows).*2, (omap valid_row rows).*1.*1, (omap valid_row rows).*1.*2).
Proof.
  unfold LoadVectors.load_items_and_vectors. destruct rows as [|row rows]; [done|].
  rewrite load_loop. generalize (omap valid_row (row :: rows)). intros kept.
  destruct kept as [|kept0 kept]; done.
Qed.

Lemma valid_row_Some row sku name v :
  valid_row row = Some (sku, name, v) ->
  row = (sku, name, LoadVectors.Array v) /\ length v = 1536%nat.
Proof.
  destruct row as [[sku' name'] [|v']]; simpl; [done|].
  destruct (Nat.eqb (length v') 1536) eqn:E; [|done].
  intros [= -> -> ->]. split; [done|]. by apply Nat.eqb_eq.
Qed.

Lemma same_shape_dimension (d : nat) (cache : matrix) (q : vector) :
  Forall (fun row => length row = d) cache -> length q = d -> same_shape cache q = true.
Proof.
  intros Hrows Hq. unfold same_shape. apply forallb_forall. intros row Hrow.
  apply list_elem_of_In in Hrow. rewrite Forall_forall in Hrows.
  apply Nat.eqb_eq. by rewrite (Hrows row Hrow).
Qed.

(** A search on a consistent snapshot returns [min(top_k, n)] results. *)
Lemma search_vectors_length g cache skus (d : nat) q k :
  _vectors_cache g = Some cache ->
  _item_skus g = Some skus ->
  length skus = length cache ->
  Forall (fun row => length row = d) cache ->
  length q = d ->
  0 <= k ->
  exists res,
    search_vectors g q k = Return res /\
    length res = Nat.min (Z.to_nat k) (length cache).
Proof.
  intros Hcache Hskus Hlen Hrows Hq Hk. unfold search_vectors. rewrite Hcache.
  destruct (similarities_Return cache q) as (sims & -> & Hsl);
    [by apply (same_shape_dimension d)|].
  simpl. destruct (collect_top g skus sims k Hskus) as (res & -> & Hrl & _); [lia|done|].
  exists res. split; [done|]. by rewrite Hrl, Hsl.
Qed.

End RebuildFacts.

(** X15.  [run_rebuild_cache] followed by the API's
    [load_vectors_to_memory].  The rebuild keeps the rows whose blob holds
    an array of 1536 components, in the order of the SELECT.  When no row is
    kept it raises [ValueError] and leaves the cache file as it was.
    Otherwise it returns, and the file it wrote is loaded without error
    whatever the globals held before: vectors, skus and names are those of
    the kept rows, position by position, so that every search with a query
    of 1536 components and [top_k >= 0] returns [min(top_k, n)] results. *)
Theorem X15_rebuilt_cache_loads (rows : list LoadVectors.item_row)
    (file : Database.cache_file) (g : Database.globals) :
  let kept := omap valid_row rows in
  (kept = [] ->
   LoadVectors.run_rebuild_cache (Return rows) file = (file, Raise ValueError)) /\
  (kept <> [] ->
   exists file',
     LoadVectors.run_rebuild_cache (Return rows) file = (file', Return ()) /\
     Database.load_vectors_to_memory file' g
       = (loaded kept.*2 kept.*1.*1 kept.*1.*2, Return ()) /\
     (forall i sku name vector,
        kept !! i = Some (sku, name, vector) ->
        (sku, name, LoadVectors.Array vector) ∈ rows /\
        length vector = 1536%nat /\
        kept.*2 !! i = Some vector /\
        kept.*1.*1 !! i = Some sku /\
        kept.*1.*2 !! i = Some name) /\
     forall (query_vector : Database.vector) (top_k : Z),
       length query_vector = 1536%nat ->
       0 <= top_k ->
       exists results,
         Database.search_vectors (loaded kept.*2 kept.*1.*1 kept.*1.*2) query_vector top_k
           = Return results /\
         length results = Nat.min (Z.to_nat top_k) (length kept)).
Proof.
  intros kept. unfold LoadVectors.run_rebuild_cache.
  rewrite load_items_and_vectors_kept. fold kept. split.
  - intros ->. done.
  - intros Hne. destruct kept as [|kept0 kept'] eqn:Ek; [done|]. rewrite <- Ek in *.
    assert (Nat.eqb (length kept.*1.*1) 0 = false) as ->.
    { rewrite !length_fmap, Ek. done. }
    eexists. split.
    { unfold LoadVectors.save_cache. f_equal. rewrite Ek. done. }
    split; [done|]. split.
    + intros i sku name v Hi.
      assert (valid_row (sku, name, LoadVectors.Array v) = Some (sku, name, v) /\
              (sku, name, LoadVectors.Array v) ∈ rows /\ length v = 1536%nat)
        as (_ & Hin & Hv).
      { apply list_elem_of_lookup_2 in Hi. unfold kept in Hi.
        apply list_elem_of_omap in Hi as (row & Hrow & Hvalid).
        destruct (valid_row_Some _ _ _ _ Hvalid) as [-> Hv]. done. }
      split; [done|]. split; [done|].
      rewrite !list_lookup_fmap, Hi. done.
    + intros q k Hq Hk.
      destruct (search_vectors_length (loaded kept.*2 kept.*1.*1 kept.*1.*2)
                  kept.*2 kept.*1.*1 1536 q k) as (res & Hres & Hl); try done.
      * by rewrite !length_fmap.
      * apply Forall_forall. intros v Hv.
        apply list_elem_of_fmap in Hv as ([[sku name] v'] & -> & Hin).
        unfold kept in Hin. apply list_elem_of_omap in Hin as (row & _ & Hvalid).
        by destruct (valid_row_Some _ _ _ _ Hvalid) as [_ Hv].
      * exists res. split; [done|]. by rewrite Hl, length_fmap.
Qed.

(** Of three rows only the first holds an array of 1536 components. *)
Lemma X15_rebuilt_cache_loads_witness :
  omap valid_row example_rows = [("SKU-A", "Beaker", replicate 1536 1%float)] /\
  exists file',
    LoadVectors.run_rebuild_cache (Return example_rows) Database.Missing
      = (file', Return ()) /\
    Database.load_vectors_to_memory file' Database.initial
      = (loaded [replicate 1536 1%float] ["SKU-A"] ["Beaker"], Return ()) /\
    exists results,
      Database.search_vectors (loaded [replicate 1536 1%float] ["SKU-A"] ["Beaker"])
        (replicate 1536 1%float) 3 = Return results /\
      length results = 1%nat.
Proof.
  assert (omap valid_row example_rows <> []) as Hne by (vm_compute; discriminate).
  split; [vm_compute; reflexivity|].
  destruct (proj2 (X15_rebuilt_cache_loads example_rows Database.Missing Database.initial)
              Hne) as (file' & Hrun & Hload & _ & Hsearch).
  exists file'. split; [exact Hrun|]. split; [exact Hload|].
  exact (Hsearch (replicate 1536 1%float) 3 ltac:(vm_compute; reflexivity) ltac:(lia)).
Defined.

(** ** The range of the confidence score *)

Lemma normalized_unit_interval (frequencies : dict Z) :
  Forall (fun kv => 0 <= kv.2) frequencies ->
  Forall (fun kv => (0 <= kv.2 <= 1)%Q) (normalized (F := Q) frequencies).
Proof.
  intros Hpos. unfold normalized. apply Forall_fmap, Forall_forall.
  intros [sku f] Hin. simpl.
  assert (f ∈ dict_values frequencies) as Hf.
  { unfold dict_values. apply list_elem_of_fmap. by exists (sku, f). }
  destruct (max_int (dict_values frequencies) =? 0) eqn:Emax.
  - split; apply Qle_refl || done.
  - apply ratio_in_unit_interval.
    + split; [|by apply max_int_ge].
      rewrite Forall_forall in Hpos. exact (Hpos _ Hin).
    + by apply Z.eqb_neq.
Qed.

Lemma weights_in_unit_interval (nf s : Q) :
  (0 <= nf <= 1)%Q -> (0 <= s <= 1)%Q ->
  (0 <= nadd (nmul nf Matcher.HISTORY_WEIGHT) (nmul s Matcher.VECTOR_WEIGHT) <= 1)%Q.
Proof.
  intros Hnf Hs. unfold Matcher.HISTORY_WEIGHT, Matcher.VECTOR_WEIGHT. simpl.
  assert (inject_Z 7 / inject_Z 10 == 7 # 10)%Q as -> by reflexivity.
  assert (inject_Z 3 / inject_Z 10 == 3 # 10)%Q as -> by reflexivity.
  lra.
Qed.

(** X17.  In exact arithmetic the confidence scores lie in [[0, 1]], as the
    response model of [/suggest] demands, whenever no frequency of the
    history is negative and every vector similarity lies in [[0, 1]]: the
    normalized frequency is at most 1 and the weights add up to 1. *)
Theorem X17_confidence_in_unit_interval {V : Type} (w : Matcher.world Q V)
    (requirement_string : string) (top_k : Z) (query_vector : option V)
    (vector_results : option (list (string * Q)))
    (historical_mappings : dict Z) (ranking : list (string * Q * Matcher.score Q)) :
  Matcher.get_all_historical_mappings w requirement_string = Return historical_mappings ->
  dict_wf historical_mappings ->
  Forall (fun kv => 0 <= kv.2) historical_mappings ->
  Forall (fun sv => (0 <= sv.2 <= 1)%Q)
    (Matcher.step_vector_results w top_k
       (Matcher.step_embedding w requirement_string query_vector vector_results)
       vector_results) ->
  Matcher.calculate_hybrid_score w requirement_string top_k query_vector vector_results
    = Return ranking ->
  Forall (fun r => (0 <= r.1.2 <= 1)%Q) ranking.
Proof.
  intros Hh Hwf Hpos Hsims. unfold Matcher.calculate_hybrid_score.
  rewrite Hh. simpl. rewrite normalize_frequencies_normalized by done. simpl.
  set (vr := Matcher.step_vector_results _ _ _ _) in *.
  set (nh := normalized historical_mappings).
  intros [= <-]. apply Forall_forall. intros [[sku f] m] Hin.
  assert (f = Matcher.final_score m) as ->.
  { unfold Matcher.rank in Hin. apply list_elem_of_fmap in Hin as (sm & Heq & _).
    by injection Heq as -> -> ->. }
  apply rank_elem in Hin. simpl.
  assert (dict_wf nh) as Hnwf.
  { unfold nh, normalized, dict_wf, dict_keys.
    by rewrite (fmap_fst_keep (fun kv => if _ =? 0 then nzero else nratio kv.2 _)). }
  apply (dict_get_elem_wf _ _ _ (combine_wf historical_mappings nh vr)) in Hin.
  pose proof (combine_get historical_mappings nh vr sku Hnwf) as Hc.
  assert (forall nf, dict_get nh sku = Some nf -> (0 <= nf <= 1)%Q) as Hnf.
  { intros nf Hget. apply dict_get_Some_elem in Hget.
    pose proof (normalized_unit_interval historical_mappings Hpos) as Hall.
    rewrite Forall_forall in Hall. exact (Hall _ Hget). }
  assert (forall s, last_similarity vr sku = Some s -> (0 <= s <= 1)%Q) as Hs.
  { intros s Hget. unfold last_similarity in Hget. apply dict_get_Some_elem in Hget.
    rewrite elem_of_reverse in Hget. rewrite Forall_forall in Hsims. exact (Hsims _ Hget). }
  assert (forall nf s, (0 <= nf <= 1)%Q -> (0 <= s <= 1)%Q ->
            scored_as (Some nf) (Some s) m \/ scored_as (Some nf) None m \/
            scored_as None (Some s) m ->
            (0 <= Matcher.final_score m <= 1)%Q) as Hrange.
  { intros nf s Hn Hv Hcases.
    pose proof (weights_in_unit_interval nf s Hn Hv) as H1.
    pose proof (weights_in_unit_interval nf 0 Hn ltac:(lra)) as H2.
    pose proof (weights_in_unit_interval 0 s ltac:(lra) Hv) as H3.
    simpl in H1, H2, H3.
    destruct Hcases as [(Ha & Hb & Hf)|[(Ha & Hb & Hf)|(Ha & Hb & Hf)]];
      simpl in Ha, Hb, Hf; rewrite Hf, Ha, Hb; simpl; lra. }
  destruct (dict_get nh sku) as [nf|] eqn:En, (last_similarity vr sku) as [s|] eqn:Es.
  - destruct Hc as (m' & Hm' & Hsc). assert (m' = m) as -> by congruence.
    apply (Hrange nf s); auto.
  - destruct Hc as (m' & Hm' & Hsc). assert (m' = m) as -> by congruence.
    apply (Hrange nf 0%Q); auto. lra.
  - destruct Hc as (m' & Hm' & Hsc). assert (m' = m) as -> by congruence.
    apply (Hrange 0%Q s); auto. lra.
  - congruence.
Qed.

(** The worked example: frequencies 5 and 1, similarities 0.9 and 0.5. *)
Lemma X17_confidence_in_unit_interval_witness :
  dict_wf example_history /\
  Forall (fun kv => 0 <= kv.2) example_history /\
  Forall (fun sv => (0 <= sv.2 <= 1)%Q) (example_vector_results (F := Q)) /\
  exists ranking,
    Matcher.calculate_hybrid_score example_world "Beaker" 3 None
      (Some example_vector_results) = Return ranking /\
    ranked_skus ranking = ["SKU-A"; "SKU-C"; "SKU-B"] /\
    Forall (fun r => (0 <= r.1.2 <= 1)%Q) ranking.
Proof.
  assert (dict_wf example_history) as Hwf.
  { apply (bool_decide_unpack _). vm_compute. exact I. }
  assert (Forall (fun kv => 0 <= kv.2) example_history) as Hpos.
  { repeat constructor; simpl; lia. }
  assert (Forall (fun sv => (0 <= sv.2 <= 1)%Q) (example_vector_results (F := Q))) as Hsims.
  { repeat constructor; vm_compute; discriminate. }
  split; [exact Hwf|]. split; [exact Hpos|]. split; [exact Hsims|].
  eexists. split; [reflexivity|]. split; [vm_compute; reflexivity|].
  exact (X17_confidence_in_unit_interval example_world "Beaker" 3 None
           (Some example_vector_results) example_history _ eq_refl Hwf Hpos Hsims eq_refl).
Defined.

(** ** The history table built from the quotation rows *)

Section AggregateFacts.
Context (strip : string -> string).

Lemma occurrences_snoc requirement sku rows (row : string * string) :
  occurrences strip requirement sku (rows ++ [row]) =
    occurrences strip requirement sku rows +
    (if decide (strip row.1 = requirement /\ strip row.2 = sku) then 1 else 0).
Proof.
  unfold occurrences. rewrite filter_app, filter_cons, filter_nil, length_app.
  destruct (decide _); simpl; lia.
Qed.

Lemma occurrences_nonneg requirement sku rows : 0 <= occurrences strip requirement sku rows.
Proof. unfold occurrences. lia. Qed.

Lemma count_row_other (mappings : dict (dict Z)) (row : string * string) requirement sku :
  ~ (strip row.1 = requirement /\ strip row.2 = sku) ->
  frequency_of (MappingHistory.count_row strip mappings row) requirement sku
    = frequency_of mappings requirement sku.
Proof.
  intros Hother. unfold MappingHistory.count_row.
  destruct (negb _ && negb _); [|done]. unfold frequency_of.
  destruct (decide (strip row.1 = requirement)) as [Hreq|Hreq].
  - rewrite Hreq in *. rewrite dict_get_set_eq. simpl.
    rewrite dict_get_set_ne by (intros Hsku; by apply Hother).
    by destruct (dict_get mappings requirement).
  - by rewrite dict_get_set_ne.
Qed.

Lemma count_row_same (mappings : dict (dict Z)) (row : string * string) :
  strip row.1 <> "" -> strip row.2 <> "" ->
  frequency_of (MappingHistory.count_row strip mappings row) (strip row.1) (strip row.2)
    = Some (default 0 (frequency_of mappings (strip row.1) (strip row.2)) + 1).
Proof.
  intros Hr Hs. unfold MappingHistory.count_row.
  apply String.eqb_neq in Hr, Hs. rewrite Hr, Hs. simpl.
  unfold frequency_of. rewrite dict_get_set_eq. simpl. rewrite dict_get_set_eq.
  by destruct (dict_get mappings (strip row.1)).
Qed.

(** What the nested dict holds after the rows [rows]. *)
Lemma extract_mappings_frequency rows requirement sku :
  frequency_of (MappingHistory.extract_mappings_from_tables_data strip rows) requirement sku =
    if decide (requirement <> "" /\ sku <> "" /\
               0 < occurrences strip requirement sku rows)
    then Some (occurrences strip requirement sku rows)
    else None.
Proof.
  unfold MappingHistory.extract_mappings_from_tables_data.
  induction rows as [|row rows IH] using rev_ind.
  - simpl. rewrite decide_False; [done|]. unfold occurrences. simpl. lia.
  - rewrite foldl_snoc, occurrences_snoc.
    set (m := foldl (MappingHistory.count_row strip) [] rows) in *.
    pose proof (occurrences_nonneg requirement sku rows) as Hnn.
    destruct (decide (strip row.1 = requirement /\ strip row.2 = sku)) as [[<- <-]|Hother].
    + destruct (decide (strip row.1 <> "" /\ strip row.2 <> "")) as [[Hr Hs]|Hempty].
      * rewrite count_row_same, IH by done.
        rewrite (decide_True (P := _ /\ _ /\ 0 < _ + 1)) by (repeat split; [done|done|lia]).
        f_equal. destruct (decide _) as [_|Hn]; simpl; [done|].
        assert (occurrences strip (strip row.1) (strip row.2) rows = 0) as ->; [|done].
        destruct (Z.eq_dec (occurrences strip (strip row.1) (strip row.2) rows) 0);
          [done|].
        exfalso. apply Hn. repeat split; [done|done|lia].
      * assert (MappingHistory.count_row strip m row = m) as ->.
        { unfold MappingHistory.count_row.
          destruct (String.eqb_spec (strip row.1) ""), (String.eqb_spec (strip row.2) "");
            simpl; try done. exfalso. by apply Hempty. }
        rewrite IH. rewrite !decide_False; [done| |].
        -- intros (Hr & Hs & _). by apply Hempty.
        -- intros (Hr & Hs & _). by apply Hempty.
    + rewrite count_row_other by done. by rewrite Z.add_0_r.
Qed.

Lemma count_row_wf (mappings : dict (dict Z)) row :
  dict_wf mappings /\ Forall (fun rf => dict_wf rf.2) mappings ->
  dict_wf (MappingHistory.count_row strip mappings row) /\
  Forall (fun rf => dict_wf rf.2) (MappingHistory.count_row strip mappings row).
Proof.
  intros [Hwf Hinner]. unfold MappingHistory.count_row.
  destruct (negb _ && negb _); [|done].
  split; [by apply dict_wf_set|].
  apply dict_set_Forall; [|done]. simpl. apply dict_wf_set.
  destruct (dict_get mappings (strip row.1)) as [freqs|] eqn:Eg; simpl; [|apply NoDup_nil_2].
  apply dict_get_Some_elem in Eg. rewrite Forall_forall in Hinner. exact (Hinner _ Eg).
Qed.

Lemma extract_mappings_wf rows :
  dict_wf (MappingHistory.extract_mappings_from_tables_data strip rows) /\
  Forall (fun rf => dict_wf rf.2)
         (MappingHistory.extract_mappings_from_tables_data strip rows).
Proof.
  unfold MappingHistory.extract_mappings_from_tables_data.
  induction rows as [|row rows IH] using rev_ind.
  - split; [apply NoDup_nil_2|constructor].
  - rewrite foldl_snoc. by apply count_row_wf.
Qed.

End AggregateFacts.

Lemma insert_mappings_elem (mappings : dict (dict Z)) requirement sku f :
  dict_wf mappings -> Forall (fun rf => dict_wf rf.2) mappings ->
  (requirement, sku, f) ∈ MappingHistory.insert_mappings mappings <->
  frequency_of mappings requirement sku = Some f.
Proof.
  intros Hwf Hinner. unfold MappingHistory.insert_mappings, frequency_of.
  rewrite list_elem_of_bind. split.
  - intros ([req freqs] & Hin & Hm). simpl in Hin.
    apply list_elem_of_fmap in Hin as ([sku' f'] & [= -> -> ->] & Hin).
    rewrite (dict_get_elem_wf _ _ _ Hwf Hm). simpl.
    rewrite Forall_forall in Hinner. apply dict_get_elem_wf; [|done].
    exact (Hinner _ Hm).
  - destruct (dict_get mappings requirement) as [freqs|] eqn:Em; simpl; [|done].
    intros Hf. exists (requirement, freqs). split.
    + simpl. apply list_elem_of_fmap. exists (sku, f). split; [done|].
      by apply dict_get_Some_elem.
    + by apply dict_get_Some_elem.
Qed.

Lemma insert_mappings_NoDup (mappings : dict (dict Z)) :
  dict_wf mappings -> Forall (fun rf => dict_wf rf.2) mappings ->
  NoDup ((fun t => (t.1.1, t.1.2)) <$> MappingHistory.insert_mappings mappings).
Proof.
  unfold MappingHistory.insert_mappings, dict_wf, dict_keys.
  induction mappings as [|[req freqs] mappings IH]; intros Hwf Hinner; [constructor|].
  apply NoDup_cons in Hwf as [Hreq Hwf]. apply Forall_cons in Hinner as [Hfreqs Hinner].
  csimpl. rewrite fmap_app. apply NoDup_app. split; [|split].
  - rewrite <- list_fmap_compose. simpl in Hfreqs.
    unfold dict_wf, dict_keys in Hfreqs.
    apply NoDup_fmap_2_strong; [|by apply (NoDup_fmap_1 fst)].
    intros x y Hx Hy [= Heq]. by apply (NoDup_fmap_elem_inj fst freqs).
  - intros [req' sku'] Hin Hin'.
    apply list_elem_of_fmap in Hin as ([[r s] f] & [= -> ->] & Hin).
    apply list_elem_of_fmap in Hin as ([s' f'] & [= -> -> ->] & _).
    apply list_elem_of_fmap in Hin' as ([[r s] f] & [= -> ->] & Hin').
    apply list_elem_of_bind in Hin' as ([r' freqs'] & Hin' & Hm).
    apply list_elem_of_fmap in Hin' as ([s'' f''] & [= -> -> ->] & _). simpl in *.
    apply Hreq. apply list_elem_of_fmap. by exists (r', freqs').
  - by apply IH.
Qed.

(** X16.  The history table that [create_sku_mapping_history.py] builds
    from the quotation rows: a pair of a stripped requirement and a stripped
    sku is inserted exactly when both are non-empty and some row carries
    them, its frequency is the number of those rows (so it is at least 1),
    and no pair is inserted twice, which is what the table's [UNIQUE]
    constraint demands.  This holds whatever [str.strip] removes. *)
Theorem X16_history_counts_rows (strip : string -> string) (rows : list (string * string)) :
  let mappings := MappingHistory.extract_mappings_from_tables_data strip rows in
  let inserted := MappingHistory.insert_mappings mappings in
  NoDup ((fun t => (t.1.1, t.1.2)) <$> inserted) /\
  forall requirement sku frequency,
    (requirement, sku, frequency) ∈ inserted <->
    requirement <> "" /\ sku <> "" /\
    frequency = occurrences strip requirement sku rows /\ 1 <= frequency.
Proof.
  intros mappings inserted.
  destruct (extract_mappings_wf strip rows) as [Hwf Hinner]. fold mappings in Hwf, Hinner.
  split; [by apply insert_mappings_NoDup|].
  intros requirement sku frequency. unfold inserted.
  rewrite insert_mappings_elem by done. unfold mappings.
  rewrite extract_mappings_frequency.
  destruct (decide _) as [(Hr & Hs & Hpos)|Hn].
  - split.
    + intros [= <-]. repeat split; [done|done|lia].
    + by intros (_ & _ & -> & _).
  - split; [done|]. intros (Hr & Hs & -> & Hpos). exfalso. apply Hn.
    repeat split; [done|done|lia].
Qed.

(** Five rows: "beaker" is mapped to SKU-A twice and to SKU-C once, "flask"
    to SKU-B once, and one row has no requirement. *)
Lemma X16_history_counts_rows_witness :
  MappingHistory.insert_mappings
    (MappingHistory.extract_mappings_from_tables_data (fun s => s) example_mappings_rows)
    = [("beaker", "SKU-A", 2); ("beaker", "SKU-C", 1); ("flask", "SKU-B", 1)] /\
  NoDup ((fun t : string * string * Z => (t.1.1, t.1.2))
           <$> [("beaker", "SKU-A", 2); ("beaker", "SKU-C", 1); ("flask", "SKU-B", 1)]) /\
  (("beaker", "SKU-A", 2) ∈
     [("beaker", "SKU-A", 2); ("beaker", "SKU-C", 1); ("flask", "SKU-B", 1)] <->
   "beaker" <> "" /\ "SKU-A" <> "" /\
   2 = occurrences (fun s => s) "beaker" "SKU-A" example_mappings_rows /\ 1 <= 2).
Proof.
  split; [reflexivity|].
  pose proof (X16_history_counts_rows (fun s => s) example_mappings_rows) as [Hnd Hin].
  split; [exact Hnd|]. exact (Hin "beaker" "SKU-A" 2).
Defined.

(** ** The metadata of a ranked sku *)

(** X18.  The metadata that [calculate_hybrid_score] returns with a ranked
    sku: the score of the tuple is the record's [final_score], its
    [historical_frequency] is the frequency of the sku in the history (0 for
    a sku that only the vector search found), and its [vector_similarity] is
    the similarity of the sku's last entry in the vector results (0.0 for a
    sku that only the history knows). *)
Theorem X18_ranked_metadata {F : Type} {N : Num F} {V : Type}
    (w : Matcher.world F V) (requirement_string : string) (top_k : Z)
    (query_vector : option V) (vector_results : option (list (string * F)))
    (historical_mappings : dict Z) (ranking : list (string * F * Matcher.score F)) :
  Matcher.get_all_historical_mappings w requirement_string = Return historical_mappings ->
  dict_wf historical_mappings ->
  Matcher.calculate_hybrid_score w requirement_string top_k query_vector vector_results
    = Return ranking ->
  Forall (fun r =>
            r.1.2 = Matcher.final_score r.2 /\
            Matcher.historical_frequency r.2
              = default 0 (dict_get historical_mappings r.1.1) /\
            Matcher.vector_similarity r.2
              = default nzero
                  (last_similarity
                     (Matcher.step_vector_results w top_k
                        (Matcher.step_embedding w requirement_string query_vector
                           vector_results)
                        vector_results) r.1.1))
         ranking.
Proof.
  intros Hh Hwf. unfold Matcher.calculate_hybrid_score.
  rewrite Hh. simpl. rewrite normalize_frequencies_normalized by done. simpl.
  set (vr := Matcher.step_vector_results _ _ _ _) in *.
  set (nh := normalized historical_mappings).
  intros [= <-]. apply Forall_forall. intros [[sku f] m] Hin.
  assert (f = Matcher.final_score m) as ->.
  { unfold Matcher.rank in Hin. apply list_elem_of_fmap in Hin as (sm & Heq & _).
    by injection Heq as -> -> ->. }
  apply rank_elem in Hin. simpl. split; [done|].
  assert (dict_keys nh = dict_keys historical_mappings) as Hkeys.
  { unfold nh, normalized, dict_keys.
    by rewrite (fmap_fst_keep (fun kv => if _ =? 0 then nzero else nratio kv.2 _)). }
  assert (dict_wf nh) as Hnwf by (unfold dict_wf; by rewrite Hkeys).
  apply (dict_get_elem_wf _ _ _ (combine_wf historical_mappings nh vr)) in Hin.
  unfold Matcher.combine in Hin.
  pose proof (add_vector_fold_get (Matcher.add_historical historical_mappings nh) vr sku)
    as Hv.
  rewrite add_historical_get, dict_get_reverse in Hv by done.
  assert (dict_get nh sku = None -> dict_get historical_mappings sku = None) as Hnone.
  { intros Hn. apply dict_get_None. rewrite <- Hkeys. by apply dict_get_None. }
  destruct (last_similarity vr sku) as [s|]; simpl.
  - destruct Hv as (m' & Hm' & _ & Hfreq & _ & Hsim & _).
    assert (m' = m) as -> by congruence. split; [|done].
    rewrite Hfreq. destruct (dict_get nh sku) as [nf|] eqn:En; simpl; [done|].
    by rewrite Hnone.
  - rewrite Hv in Hin. destruct (dict_get nh sku) as [nf|]; simpl in Hin; [|done].
    by injection Hin as <-.
Qed.

(** The worked example: SKU-A is in both sources, SKU-C only in the vector
    results, SKU-B only in the history. *)
Lemma X18_ranked_metadata_witness :
  dict_wf example_history /\
  exists ranking,
    Matcher.calculate_hybrid_score example_world "Beaker" 3 None
      (Some example_vector_results) = Return ranking /\
    (fun r => (r.1.1, Matcher.historical_frequency r.2, Matcher.vector_similarity r.2))
      <$> ranking
      = [("SKU-A", 5, nratio 9 10); ("SKU-C", 0, nratio 5 10); ("SKU-B", 1, nzero)] /\
    Forall (fun r =>
              r.1.2 = Matcher.final_score r.2 /\
              Matcher.historical_frequency r.2 = default 0 (dict_get example_history r.1.1) /\
              Matcher.vector_similarity r.2
                = default nzero (last_similarity example_vector_results r.1.1))
           ranking.
Proof.
  assert (dict_wf example_history) as Hwf.
  { apply (bool_decide_unpack _). vm_compute. exact I. }
  split; [exact Hwf|].
  eexists. split; [reflexivity|]. split; [vm_compute; reflexivity|].
  exact (X18_ranked_metadata example_world "Beaker" 3 None (Some example_vector_results)
           example_history _ eq_refl Hwf eq_refl).
Defined.

(** ** The batches of an ingestion run *)

(** X19.  With a positive [BATCH_SIZE], [main] hands every item to exactly
    one worker: its batches, read one after the other, are the items in
    their order; there are [ceil(n / BATCH_SIZE)] of them, none is empty and
    none has more than [BATCH_SIZE] items. *)
Theorem X19_batches_partition (BATCH_SIZE : nat) (items : list (string * string)) :
  (0 < BATCH_SIZE)%nat ->
  concat (GenerateVectors.batches BATCH_SIZE items) = items /\
  length (GenerateVectors.batches BATCH_SIZE items)
    = ((length items + BATCH_SIZE - 1) / BATCH_SIZE)%nat /\
  Forall (fun batch => 0 < length batch <= BATCH_SIZE)%nat
         (GenerateVectors.batches BATCH_SIZE items).
Proof.
  intros HB. unfold GenerateVectors.batches.
  split; [by apply chunks_concat|].
  split; [by rewrite length_fmap, range_step_length|].
  by apply chunks_bounds.
Qed.

(** Three items in batches of two. *)
Lemma X19_batches_partition_witness :
  (0 < 2)%nat /\
  GenerateVectors.batches 2 three_items
    = [[("SKU-A", "Beaker"); ("SKU-B", "Flask")]; [("SKU-C", "Funnel")]] /\
  concat (GenerateVectors.batches 2 three_items) = three_items /\
  length (GenerateVectors.batches 2 three_items) = ((length three_items + 2 - 1) / 2)%nat /\
  Forall (fun batch => 0 < length batch <= 2)%nat (GenerateVectors.batches 2 three_items).
Proof.
  split; [lia|]. split; [reflexivity|].
  exact (X19_batches_partition 2 three_items ltac:(lia)).
Defined.
